(** * BESAPlayer server: payment confirmation and ownership transfer

    A shallow embedding of the PayFast router of [src/db/index.ts]
    (signature codec, in-memory payment status store, the create-payment,
    return, status, manual-transfer and ITN handlers, and
    [transferCardOwnership]) together with the properties of the payment
    subsystem.

    Modelling conventions.
    - A JavaScript string is a Rocq [string] whose characters are the code
      points U+0000..U+00FF; [String.le] is then the code-unit order that
      [Array.prototype.sort] uses by default.
    - A plain object ([Record<string, string>], [req.body], [req.query]) is an
      association list of its own enumerable properties in insertion order;
      an absent property and a property holding [undefined] both read as
      [JUndefined].
    - [paymentStatusStore] is a [gmap] from keys to records.
    - A JavaScript number is an integer that a double holds exactly, or an
      infinity; [parseInt] rounds to the nearest double.
    - The database is a record of tables and of the two sequences that give
      the ids of new rows. A query throws when PostgreSQL rejects what it is
      given: a value out of the range of [integer], a text that a
      [decimal(10,2)] column does not take, an id or an order number that is
      taken, a sequence that is exhausted. What the server makes of a text
      bound to a decimal column, and its [LOWER], are read from the
      environment, as the clock is. Every query may also throw for reasons
      outside the model (the connection, say), which is decided by a fault
      schedule carried in the world state. A query that throws leaves the
      tables as they were; the model leaves the sequences too, where
      PostgreSQL may have drawn an id by then.
    - Console output is not modelled. *)

From Stdlib Require Import ZArith Ascii String List.
From stdpp Require Import base tactics option list sorting strings countable gmap.

Local Open Scope string_scope.
Local Open Scope Z_scope.

(** ** MD5 ([crypto.createHash('md5')], RFC 1321) *)

Module MD5.

Definition mask32 (x : Z) : Z := Z.land x 0xFFFFFFFF.
Definition add32 (x y : Z) : Z := mask32 (x + y).
Definition not32 (x : Z) : Z := Z.lxor (mask32 x) 0xFFFFFFFF.
Definition rotl32 (x n : Z) : Z :=
  mask32 (Z.lor (Z.shiftl x n) (Z.shiftr (mask32 x) (32 - n))).

Definition K : list Z :=
  [ 0xd76aa478; 0xe8c7b756; 0x242070db; 0xc1bdceee;
    0xf57c0faf; 0x4787c62a; 0xa8304613; 0xfd469501;
    0x698098d8; 0x8b44f7af; 0xffff5bb1; 0x895cd7be;
    0x6b901122; 0xfd987193; 0xa679438e; 0x49b40821;
    0xf61e2562; 0xc040b340; 0x265e5a51; 0xe9b6c7aa;
    0xd62f105d; 0x02441453; 0xd8a1e681; 0xe7d3fbc8;
    0x21e1cde6; 0xc33707d6; 0xf4d50d87; 0x455a14ed;
    0xa9e3e905; 0xfcefa3f8; 0x676f02d9; 0x8d2a4c8a;
    0xfffa3942; 0x8771f681; 0x6d9d6122; 0xfde5380c;
    0xa4beea44; 0x4bdecfa9; 0xf6bb4b60; 0xbebfbc70;
    0x289b7ec6; 0xeaa127fa; 0xd4ef3085; 0x04881d05;
    0xd9d4d039; 0xe6db99e5; 0x1fa27cf8; 0xc4ac5665;
    0xf4292244; 0x432aff97; 0xab9423a7; 0xfc93a039;
    0x655b59c3; 0x8f0ccc92; 0xffeff47d; 0x85845dd1;
    0x6fa87e4f; 0xfe2ce6e0; 0xa3014314; 0x4e0811a1;
    0xf7537e82; 0xbd3af235; 0x2ad7d2bb; 0xeb86d391 ].

Definition S : list Z :=
  [ 7; 12; 17; 22; 7; 12; 17; 22; 7; 12; 17; 22; 7; 12; 17; 22;
    5; 9; 14; 20; 5; 9; 14; 20; 5; 9; 14; 20; 5; 9; 14; 20;
    4; 11; 16; 23; 4; 11; 16; 23; 4; 11; 16; 23; 4; 11; 16; 23;
    6; 10; 15; 21; 6; 10; 15; 21; 6; 10; 15; 21; 6; 10; 15; 21 ].

Record state := State { sa : Z; sb : Z; sc : Z; sd : Z }.

Definition init : state :=
  State 0x67452301 0xefcdab89 0x98badcfe 0x10325476.

(** One of the 64 operations on a 16-word block [M]. *)
Definition step (M : list Z) (st : state) (i : nat) : state :=
  let '(State a b c d) := st in
  let '(f, g) :=
    if (i <? 16)%nat then (Z.lor (Z.land b c) (Z.land (not32 b) d), i)
    else if (i <? 32)%nat then
      (Z.lor (Z.land d b) (Z.land (not32 d) c), ((5 * i + 1) mod 16)%nat)
    else if (i <? 48)%nat then
      (Z.lxor (Z.lxor b c) d, ((3 * i + 5) mod 16)%nat)
    else (Z.lxor c (Z.lor b (not32 d)), ((7 * i) mod 16)%nat) in
  let f' := add32 (add32 (add32 f a) (nth i K 0)) (nth g M 0) in
  State d (add32 b (rotl32 f' (nth i S 0))) b c.

Definition block (st : state) (M : list Z) : state :=
  let '(State a b c d) := foldl (step M) st (seq 0 64) in
  State (add32 (sa st) a) (add32 (sb st) b) (add32 (sc st) c) (add32 (sd st) d).

(** Little-endian conversions between bytes and words. *)
Fixpoint le_bytes (n : nat) (x : Z) : list Z :=
  match n with
  | O => []
  | Datatypes.S n' => Z.land x 0xFF :: le_bytes n' (Z.shiftr x 8)
  end.

Fixpoint words (fuel : nat) (bs : list Z) : list Z :=
  match fuel, bs with
  | Datatypes.S fuel', b0 :: b1 :: b2 :: b3 :: rest =>
      (b0 + Z.shiftl b1 8 + Z.shiftl b2 16 + Z.shiftl b3 24) :: words fuel' rest
  | _, _ => []
  end.

Definition pad (bs : list Z) : list Z :=
  let len := Z.of_nat (length bs) in
  let zeros := Z.to_nat ((55 - len) mod 64) in
  bs ++ [0x80] ++ repeat 0 zeros ++ le_bytes 8 (8 * len).

Fixpoint blocks (fuel : nat) (st : state) (ws : list Z) : state :=
  match fuel with
  | O => st
  | Datatypes.S fuel' =>
      match ws with
      | [] => st
      | _ => blocks fuel' (block st (take 16 ws)) (drop 16 ws)
      end
  end.

Definition hexdigit (n : Z) : ascii :=
  ascii_of_nat (Z.to_nat (if n <? 10 then 48 + n else 87 + n)).

Definition hexbyte (b : Z) : string :=
  String (hexdigit (Z.shiftr b 4)) (String (hexdigit (Z.land b 0xF)) "").

Definition digest (bs : list Z) : string :=
  let p := pad bs in
  let ws := words (length p) p in
  let '(State a b c d) := blocks (length ws) init ws in
  String.concat "" (map hexbyte (le_bytes 4 a ++ le_bytes 4 b ++ le_bytes 4 c ++ le_bytes 4 d)).

End MD5.

(** ** JavaScript strings *)

Definition code (c : ascii) : Z := Z.of_nat (nat_of_ascii c).
Definition chr (n : Z) : ascii := ascii_of_nat (Z.to_nat n).

(** The UTF-8 encoding of a string of code points below U+0100. *)
Definition utf8_char (c : ascii) : list Z :=
  let n := code c in
  if n <? 128 then [n]
  else [Z.lor 0xC0 (Z.shiftr n 6); Z.lor 0x80 (Z.land n 0x3F)].

Definition utf8 (s : string) : list Z :=
  concat (map utf8_char (list_ascii_of_string s)).

(** [md5(str)]: [crypto.createHash('md5').update(str, 'utf8').digest('hex')]. *)
Definition md5 (str : string) : string := MD5.digest (utf8 str).

(** ** JavaScript values *)

(** The values that reach the payment router from JSON or form-encoded
    request bodies and query strings. [JNum n] is the number [n], an integer
    that a double holds exactly; [JInf] is [Infinity] or, with [true],
    [-Infinity]. Numbers with a fraction, nested objects and arrays are left
    out. *)
Inductive jsval :=
  | JUndefined
  | JNull
  | JBool (b : bool)
  | JNum (n : Z)
  | JInf (negative : bool)
  | JNaN
  | JStr (s : string).

Global Instance jsval_eq_dec : EqDecision jsval.
Proof. solve_decision. Defined.

Definition jsval_to_sum (v : jsval) : (unit + unit) + ((bool + bool) + (Z + (unit + string))) :=
  match v with
  | JUndefined => inl (inl tt)
  | JNull => inl (inr tt)
  | JBool b => inr (inl (inl b))
  | JInf negative => inr (inl (inr negative))
  | JNum n => inr (inr (inl n))
  | JNaN => inr (inr (inr (inl tt)))
  | JStr s => inr (inr (inr (inr s)))
  end.

Definition jsval_of_sum (x : (unit + unit) + ((bool + bool) + (Z + (unit + string)))) : jsval :=
  match x with
  | inl (inl _) => JUndefined
  | inl (inr _) => JNull
  | inr (inl (inl b)) => JBool b
  | inr (inl (inr negative)) => JInf negative
  | inr (inr (inl n)) => JNum n
  | inr (inr (inr (inl _))) => JNaN
  | inr (inr (inr (inr s))) => JStr s
  end.

Global Instance jsval_countable : Countable jsval.
Proof.
  refine (inj_countable' jsval_to_sum jsval_of_sum _).
  intros []; reflexivity.
Defined.

(** ToBoolean. *)
Definition truthy (v : jsval) : bool :=
  match v with
  | JUndefined | JNull | JNaN => false
  | JBool b => b
  | JNum n => negb (n =? 0)
  | JInf _ => true
  | JStr s => negb (String.eqb s "")
  end.

(** [a || b]. *)
Definition js_or (a b : jsval) : jsval := if truthy a then a else b.

(** [typeof v === 'string']. *)
Definition is_string (v : jsval) : bool :=
  match v with JStr _ => true | _ => false end.

Definition digit_char (d : Z) : ascii := chr (48 + d).

Fixpoint pos_digits (fuel : nat) (n : Z) (acc : string) : string :=
  match fuel with
  | O => acc
  | S fuel' =>
      let acc' := String (digit_char (n mod 10)) acc in
      if n / 10 =? 0 then acc' else pos_digits fuel' (n / 10) acc'
  end.

(** The decimal digits of a non-negative integer. *)
Definition dec_digits (n : Z) : string := pos_digits (S (Z.to_nat (Z.log2 n))) n "".

(** The double nearest to a non-negative integer, ties to the even
    significand of 53 bits; beyond the largest double it is [2^1024] or
    more, which stands for [Infinity]. *)
Definition round_double (n : Z) : Z :=
  let e := Z.log2 n - 52 in
  if e <=? 0 then n
  else
    let q := Z.shiftr n e in
    let r := Z.land n (Z.ones e) in
    let half := Z.shiftl 1 (e - 1) in
    Z.shiftl (if (half <? r) || ((r =? half) && Z.odd q) then q + 1 else q) e.

(** [Number.MAX_VALUE]. *)
Definition double_max : Z := 2 ^ 1024 - 2 ^ 971.

(** The number that JavaScript makes of the integer [n]. *)
Definition number_of_Z (n : Z) : jsval :=
  let m := round_double (Z.abs n) in
  if double_max <? m then JInf (n <? 0) else JNum (if n <? 0 then - m else m).

(** The shortest decimal that reads back as the double [x] (above 2^53),
    as an integer: the one with the fewest significant digits whose nearest
    double is [x], the closest to [x] among those, the even one of two. *)
Fixpoint shortest_decimal (fuel : nat) (k : Z) (x : Z) : Z :=
  match fuel with
  | O => x
  | S fuel' =>
      let p := 10 ^ (Z.of_nat (String.length (dec_digits x)) - k) in
      let lo := x / p * p in
      let hi := lo + p in
      let lo_ok := round_double lo =? x in
      let hi_ok := round_double hi =? x in
      if lo_ok && hi_ok then
        if x - lo <? hi - x then lo
        else if hi - x <? x - lo then hi
        else if Z.even (lo / p) then lo else hi
      else if lo_ok then lo
      else if hi_ok then hi
      else shortest_decimal fuel' (k + 1) x
  end.

Fixpoint strip_zeros (s : string) : string :=
  match s with
  | String "0" s' => strip_zeros s'
  | _ => s
  end.

(** Number.prototype.toString for a non-negative integer-valued double:
    the digits of the integer up to 2^53, and beyond it the digits of the
    shortest decimal, in exponent notation from 10^21 on. *)
Definition pos_to_string (x : Z) : string :=
  if x <=? 2 ^ 53 then dec_digits x
  else
    let c := shortest_decimal 17 1 x in
    let digits := dec_digits c in
    if c <? 10 ^ 21 then digits
    else
      let exponent := dec_digits (Z.of_nat (String.length digits) - 1) in
      match String.rev (strip_zeros (String.rev digits)) with
      | String d EmptyString => String d ("e+" +:+ exponent)
      | String d rest => String d ("." +:+ rest +:+ "e+" +:+ exponent)
      | EmptyString => digits
      end.

(** Number.prototype.toString for an integer-valued number. *)
Definition num_to_string (n : Z) : string :=
  if n <? 0 then String "-" (pos_to_string (- n)) else pos_to_string n.

(** [String(v)], the ToString conversion. *)
Definition String_ (v : jsval) : string :=
  match v with
  | JUndefined => "undefined"
  | JNull => "null"
  | JBool true => "true"
  | JBool false => "false"
  | JNum n => num_to_string n
  | JInf false => "Infinity"
  | JInf true => "-Infinity"
  | JNaN => "NaN"
  | JStr s => s
  end.

(** [v.toString()]: a TypeError on [null] and [undefined]. *)
Definition toString (v : jsval) : option string :=
  match v with
  | JUndefined | JNull => None
  | _ => Some (String_ v)
  end.

(** White space and line terminators below U+0100 (String.prototype.trim). *)
Definition is_js_space (c : ascii) : bool :=
  let n := code c in
  (n =? 9) || (n =? 10) || (n =? 11) || (n =? 12) || (n =? 13) || (n =? 32) || (n =? 160).

Fixpoint trimStart (s : string) : string :=
  match s with
  | String c s' => if is_js_space c then trimStart s' else s
  | EmptyString => EmptyString
  end.

Definition trimEnd (s : string) : string := String.rev (trimStart (String.rev s)).

Definition trim (s : string) : string := trimEnd (trimStart s).

Fixpoint startsWith (s p : string) : bool :=
  match p, s with
  | EmptyString, _ => true
  | String a p', String b s' => if Ascii.eqb a b then startsWith s' p' else false
  | String _ _, EmptyString => false
  end.

(** *** Percent-encoding *)

Definition is_alnum (c : ascii) : bool :=
  let n := code c in
  ((48 <=? n) && (n <=? 57)) || ((65 <=? n) && (n <=? 90)) || ((97 <=? n) && (n <=? 122)).

Fixpoint mem_char (c : ascii) (s : string) : bool :=
  match s with
  | EmptyString => false
  | String d s' => Ascii.eqb c d || mem_char c s'
  end.

(** The characters [encodeURIComponent] leaves alone. *)
Definition uri_unreserved (c : ascii) : bool :=
  is_alnum c || mem_char c "-_.!~*'()".

Definition HEXDIGIT (n : Z) : ascii := chr (if n <? 10 then 48 + n else 55 + n).

Definition pct (b : Z) : string :=
  String "%" (String (HEXDIGIT (Z.shiftr b 4)) (String (HEXDIGIT (Z.land b 0xF)) "")).

Definition encode_char (c : ascii) : string :=
  if uri_unreserved c then String c "" else String.concat "" (map pct (utf8_char c)).

Fixpoint encodeURIComponent (s : string) : string :=
  match s with
  | EmptyString => ""
  | String c s' => encode_char c +:+ encodeURIComponent s'
  end.

(** [s.replace(/%20/g, '+')]. *)
Fixpoint replace_pct20 (s : string) : string :=
  match s with
  | String "%" (String "2" (String "0" rest)) => String "+" (replace_pct20 rest)
  | String c rest => String c (replace_pct20 rest)
  | EmptyString => ""
  end.

(** [encodeURIComponent(value).replace(/%20/g, '+')]. *)
Definition pf_encode (value : string) : string :=
  replace_pct20 (encodeURIComponent value).

(** The characters the application/x-www-form-urlencoded serializer of
    [URLSearchParams] leaves alone; a space becomes [+]. *)
Definition form_unreserved (c : ascii) : bool :=
  is_alnum c || mem_char c "*-._".

Definition form_encode_char (c : ascii) : string :=
  if form_unreserved c then String c ""
  else if code c =? 32 then "+"
  else String.concat "" (map pct (utf8_char c)).

Fixpoint form_encode (s : string) : string :=
  match s with
  | EmptyString => ""
  | String c s' => form_encode_char c +:+ form_encode s'
  end.

(** ** Plain objects *)

Abbreviation JsObject := (list (string * jsval)).

(** [o[k]]. *)
Fixpoint obj_get (o : JsObject) (k : string) : jsval :=
  match o with
  | [] => JUndefined
  | (k', v) :: o' => if String.eqb k' k then v else obj_get o' k
  end.

(** [o[k] = v]: an existing property keeps its place, a new one is added
    last. *)
Fixpoint obj_set (o : JsObject) (k : string) (v : jsval) : JsObject :=
  match o with
  | [] => [(k, v)]
  | (k', v') :: o' =>
      if String.eqb k' k then (k', v) :: o' else (k', v') :: obj_set o' k v
  end.

(** [Object.keys(o)], for keys that are not array indices (those would be
    listed first); the router sorts the keys or uses fixed ones. *)
Definition obj_keys (o : JsObject) : list string := map fst o.

(** ** Signature codec *)

(** The test of the filter in [generatePayFastSignature]:
    [value !== '' && value != null && value !== undefined && key !== 'signature']. *)
Definition sig_keep (key : string) (value : jsval) : bool :=
  negb (bool_decide (value = JStr ""))
  && negb (bool_decide (value = JNull) || bool_decide (value = JUndefined))
  && negb (bool_decide (value = JUndefined))
  && negb (String.eqb key "signature").

(** The [forEach] that fills [filtered]; the values it reads are not [null]
    or [undefined], so [toString] does not throw there. *)
Definition sig_filter_step (params : JsObject) (filtered : JsObject) (key : string) : JsObject :=
  let value := obj_get params key in
  if sig_keep key value then obj_set filtered key (JStr (trim (String_ value)))
  else filtered.

Definition sig_filtered (params : JsObject) : JsObject :=
  foldl (sig_filter_step params) [] (obj_keys params).

(** [Object.keys(filtered).sort()]. *)
Definition sig_sortedKeys (filtered : JsObject) : list string :=
  merge_sort String.le (obj_keys filtered).

(** One [key=value] pair of the query string. *)
Definition sig_pair (filtered : JsObject) (key : string) : string :=
  key +:+ "=" +:+ pf_encode (String_ (obj_get filtered key)).

Definition sig_pairs (params : JsObject) : list string :=
  let filtered := sig_filtered params in
  map (sig_pair filtered) (sig_sortedKeys filtered).

Definition sig_paramString (params : JsObject) : string :=
  String.concat "&" (sig_pairs params).

(** The string that is hashed. [passphrase] is [None] for [undefined]. *)
Definition sig_signatureString (params : JsObject) (passphrase : option string) : string :=
  let paramString := sig_paramString params in
  match passphrase with
  | Some p =>
      if negb (String.eqb p "") && negb (String.eqb (trim p) "")
      then paramString +:+ "&passphrase=" +:+ pf_encode (trim p)
      else paramString
  | None => paramString
  end.

Definition generatePayFastSignature (params : JsObject) (passphrase : option string) : string :=
  md5 (sig_signatureString params passphrase).

(** *** The codec, step by step

    What [generatePayFastSignature] computes on an object without repeated
    keys, written without the loop. *)

(** The property an input property becomes in [filtered]. *)
Definition sig_entry (kv : string * jsval) : string * jsval :=
  (fst kv, JStr (trim (String_ (snd kv)))).

Definition sig_kept (kv : string * jsval) : Prop := sig_keep (fst kv) (snd kv) = true.

#[local] Instance sig_kept_dec kv : Decision (sig_kept kv).
Proof. unfold sig_kept. apply _. Defined.

(** The pairs of the query string, from [filtered]. *)
Definition pairs_of (filtered : JsObject) : list string :=
  map (sig_pair filtered) (sig_sortedKeys filtered).

(** What [encodeURIComponent(value).replace(/%20/g, '+')] makes of one
    character. *)
Definition pf_char (c : ascii) : string :=
  if Ascii.eqb c " " then "+" else encode_char c.

Definition hexval (c : ascii) : Z :=
  let n := code c in
  if (48 <=? n) && (n <=? 57) then n - 48
  else if (65 <=? n) && (n <=? 70) then n - 55
  else 16.

(** The inverse of the encoding: [+] is a space, [%XX] a byte below 128 or the
    first of the two bytes of a code point below U+0100. *)
Fixpoint pf_decode (s : string) : string :=
  match s with
  | EmptyString => ""
  | String "+" r => String " " (pf_decode r)
  | String "%" (String h1 (String h2 r)) =>
      let b := 16 * hexval h1 + hexval h2 in
      if b <? 128 then String (chr b) (pf_decode r)
      else
        match r with
        | String "%" (String h3 (String h4 r')) =>
            let b' := 16 * hexval h3 + hexval h4 in
            String (chr (Z.lor (Z.shiftl (Z.land b 0x1F) 6) (Z.land b' 0x3F))) (pf_decode r')
        | _ => String (chr b) (pf_decode r)
        end
  | String c r => String c (pf_decode r)
  end.

(** What stands before and after an element in [String.concat sep]. *)
Fixpoint concat_before (sep : string) (l : list string) : string :=
  match l with
  | [] => ""
  | x :: l' => x +:+ sep +:+ concat_before sep l'
  end.

Definition concat_after (sep : string) (l : list string) : string :=
  match l with
  | [] => ""
  | _ => sep +:+ String.concat sep l
  end.

(** [parseInt(s)] with no radix argument: the digits give an integer, and
    the result is the double nearest to it (V8 rounds correctly in radix 10
    and 16). *)
Definition digit_val (radix : Z) (c : ascii) : option Z :=
  let n := code c in
  let d := if (48 <=? n) && (n <=? 57) then n - 48
           else if (97 <=? n) && (n <=? 122) then n - 87
           else if (65 <=? n) && (n <=? 90) then n - 55
           else radix in
  if d <? radix then Some d else None.

Fixpoint parse_digits (radix : Z) (s : string) (acc : option Z) : option Z :=
  match s with
  | String c s' =>
      match digit_val radix c with
      | Some d => parse_digits radix s' (Some (radix * default 0 acc + d))
      | None => acc
      end
  | EmptyString => acc
  end.

Definition parseInt (s : string) : jsval :=
  let s1 := trimStart s in
  let '(neg, s2) :=
    match s1 with
    | String "-" r => (true, r)
    | String "+" r => (false, r)
    | _ => (false, s1)
    end in
  let '(radix, s3) :=
    match s2 with
    | String "0" (String "x" r) => (16, r)
    | String "0" (String "X" r) => (16, r)
    | _ => (10, s2)
    end in
  match parse_digits radix s3 None with
  | None => JNaN
  | Some n => number_of_Z (if neg : bool then - n else n)
  end.

(** ** Payment status store *)

Inductive Status := pending | complete | failed | cancelled.

Global Instance Status_eq_dec : EqDecision Status.
Proof. solve_decision. Defined.

(** The value type of [paymentStatusStore]; an optional field that is not
    set holds [JUndefined]. *)
Record PaymentRecord := {
  status : Status;
  mPaymentId : jsval;
  pfPaymentId : jsval;
  amount : jsval;
  timestamp : Z;
  listingId : jsval;
  buyerId : jsval;
  sellerId : jsval;
}.

Abbreviation PaymentStore := (gmap jsval PaymentRecord).

(** ** Database tables (src/db/schema.ts), the columns the router reads or
    sets; [created_at], and [updated_at] where only the defaults of an insert
    write it, are left out *)

Record Listing := {
  l_id : Z;
  l_storeId : Z;
  l_cardName : string;
  l_cardImage : option string;
  l_price : string;
  l_description : option string;
  l_isActive : option bool;
  l_updatedAt : Z;
}.

Record User := {
  u_id : string;
  u_email : string;
  u_name : string;
}.

Record StoreRow := {
  s_id : Z;
  s_userId : string;
  s_storeName : option string;
  s_totalSales : option Z;
  s_updatedAt : Z;
}.

Record CollectionRow := {
  c_id : Z;
  c_userId : string;
  c_type : string;
  c_name : string;
  c_description : option string;
  c_image : option string;
  c_cardId : option string;
  c_set : option string;
  c_condition : option string;
  c_grade : option Z;
  c_estimatedValue : option string;
  c_purchasePrice : option string;
  c_purchaseDate : option Z;
  c_notes : option string;
}.

Record OrderRow := {
  o_id : Z;
  o_storeId : Z;
  o_buyerId : string;
  o_itemName : string;
  o_itemImage : option string;
  o_price : string;
  o_quantity : Z;
  o_status : string;
  o_orderNumber : string;
}.

Record Database := {
  storeListings : list Listing;
  users : list User;
  stores : list StoreRow;
  collections : list CollectionRow;
  orders : list OrderRow;
  collections_seq : Z;
  orders_seq : Z;
}.

(** ** Configuration and per-request environment *)

(** [PAYFAST_CONFIG] and the environment variables read by the router. *)
Record Config := {
  merchantId : string;
  merchantKey : string;
  passphrase : string;
  sandboxMerchantId : string;
  sandboxMerchantKey : string;
  sandboxPassphrase : string;
  sandbox : bool;
  sandboxUrl : string;
  productionUrl : string;
  BACKEND_URL : option string;
  PAYFAST_SANDBOX_PASSPHRASE : option string;
}.

(** [PAYFAST_CONFIG] when no environment variable is set. *)
Definition PAYFAST_CONFIG : Config := {|
  merchantId := "31957853";
  merchantKey := "crrh4hjrcxuzt";
  passphrase := "Shinigami2022";
  sandboxMerchantId := "10045117";
  sandboxMerchantKey := "dxv5rm6a520rb";
  sandboxPassphrase := "";
  sandbox := true;
  sandboxUrl := "https://sandbox.payfast.co.za/eng/process";
  productionUrl := "https://www.payfast.co.za/eng/process";
  BACKEND_URL := None;
  PAYFAST_SANDBOX_PASSPHRASE := None;
|}.

(** What a request reads from outside the program: the configuration, the
    clock ([Date.now()]), [Math.random().toString(36).substr(2, 9)],
    floating-point formatting [parseFloat(s).toFixed(2)] ([None] when
    [parseFloat(s)] is [NaN]), and two conversions of the database server:
    what a [decimal(10,2)] column makes of a text ([None] when PostgreSQL
    rejects it, as not a number or as out of range, and otherwise the value
    as the column gives it back, with two decimals), and [LOWER], which
    depends on the locale of the database. *)
Record Env := {
  config : Config;
  now : Z;
  random9 : string;
  parseFloat_toFixed2 : string -> option string;
  pg_decimal_10_2 : string -> option string;
  pg_lower : string -> string;
}.

(** ** World state and the monad of handler code *)

Record World := {
  paymentStatusStore : PaymentStore;
  db : Database;
  faults : list bool;
}.

(** How a block of statements ends: normally, by [return r], or by a
    thrown exception. *)
Inductive Outcome (R A : Type) :=
  | Normal (a : A)
  | Return (r : R)
  | Throw.
Arguments Normal {R A} a.
Arguments Return {R A} r.
Arguments Throw {R A}.

Definition M (R A : Type) : Type := World -> Outcome R A * World.

Definition ret {R A} (a : A) : M R A := fun w => (Normal a, w).

Definition bind {R A B} (m : M R A) (k : A -> M R B) : M R B :=
  fun w =>
    match m w with
    | (Normal a, w') => k a w'
    | (Return r, w') => (Return r, w')
    | (Throw, w') => (Throw, w')
    end.

Notation "x <- m ;; k" := (bind m (fun x => k))
  (at level 100, m at next level, right associativity).
Notation "m ;;; k" := (bind m (fun _ => k))
  (at level 100, right associativity).

Definition throw {R A} : M R A := fun w => (Throw, w).
Definition return_ {R A} (r : R) : M R A := fun w => (Return r, w).
Definition skip {R} : M R unit := ret tt.

(** [try { body } catch { handler }]. *)
Definition try_catch {R A} (body handler : M R A) : M R A :=
  fun w =>
    match body w with
    | (Throw, w') => handler w'
    | res => res
    end.

(** A call of a function whose body is [body]: a [return] ends the call. *)
Definition call {R A} (body : M A A) : M R A :=
  fun w =>
    match body w with
    | (Normal a, w') => (Normal a, w')
    | (Return a, w') => (Normal a, w')
    | (Throw, w') => (Throw, w')
    end.

(** A value that may be a thrown TypeError. *)
Definition lift_option {R A} (o : option A) : M R A :=
  match o with Some a => ret a | None => throw end.

(** [paymentStatusStore.get(k)] and [paymentStatusStore.set(k, v)]. *)
Definition store_get {R} (k : jsval) : M R (option PaymentRecord) :=
  fun w => (Normal (paymentStatusStore w !! k), w).

Definition store_set {R} (k : jsval) (v : PaymentRecord) : M R unit :=
  fun w => (Normal tt, {| paymentStatusStore := <[k := v]> (paymentStatusStore w);
                          db := db w; faults := faults w |}).

(** One awaited database query: it throws when the fault schedule says so,
    and otherwise runs [q] on the tables. *)
Definition dbcall {R A} (q : Database -> option (A * Database)) : M R A :=
  fun w =>
    let '(fault, rest) :=
      match faults w with
      | [] => (false, [])
      | f :: fs => (f, fs)
      end in
    let w' := {| paymentStatusStore := paymentStatusStore w; db := db w; faults := rest |} in
    if fault then (Throw, w')
    else match q (db w) with
         | None => (Throw, w')
         | Some (a, d) =>
             (Normal a, {| paymentStatusStore := paymentStatusStore w; db := d; faults := rest |})
         end.

(** *** Queries *)

(** The largest value of an [integer] or [serial] column. *)
Definition int4_max : Z := 2147483647.

(** A JavaScript value bound to an integer column: [None] when PostgreSQL
    rejects it (not a number, or out of the range of [integer]), [Some None]
    for NULL. The router binds numbers only (the ids it stores are parsed
    with [parseInt] or come from the database). *)
Definition sql_int (v : jsval) : option (option Z) :=
  match v with
  | JNum n => if (- int4_max - 1 <=? n) && (n <=? int4_max) then Some (Some n) else None
  | JNull | JUndefined => Some None
  | _ => None
  end.

(** A JavaScript value bound to a text parameter; [None] for NULL. *)
Definition sql_text (v : jsval) : option string :=
  match v with
  | JNull | JUndefined => None
  | _ => Some (String_ v)
  end.

Definition select_listing_by_id (id : jsval) (d : Database) : option (option Listing * Database) :=
  match sql_int id with
  | None => None
  | Some None => Some (None, d)
  | Some (Some n) => Some (find (fun l => l_id l =? n) (storeListings d), d)
  end.

Definition select_active_listing_by_name (name : jsval) (d : Database)
  : option (option Listing * Database) :=
  match sql_text name with
  | None => Some (None, d)
  | Some s =>
      Some (find (fun l => String.eqb (l_cardName l) s
                           && bool_decide (l_isActive l = Some true)) (storeListings d), d)
  end.

Definition select_user_by_id (id : string) (d : Database) : option (option User * Database) :=
  Some (find (fun u => String.eqb (u_id u) id) (users d), d).

Definition select_user_by_email (email : jsval) (d : Database) : option (option User * Database) :=
  match sql_text email with
  | None => Some (None, d)
  | Some s => Some (find (fun u => String.eqb (u_email u) s) (users d), d)
  end.

Definition select_store_by_userId (uid : string) (d : Database) : option (option StoreRow * Database) :=
  Some (find (fun s => String.eqb (s_userId s) uid) (stores d), d).

Definition select_store_by_id (id : Z) (d : Database) : option (option StoreRow * Database) :=
  Some (find (fun s => s_id s =? id) (stores d), d).

(** [LOWER] where the locale lowers the ASCII letters only. *)
Definition lower_char (c : ascii) : ascii :=
  let n := code c in if (65 <=? n) && (n <=? 90) then chr (n + 32) else c.

Fixpoint sql_lower (s : string) : string :=
  match s with
  | EmptyString => ""
  | String c s' => String (lower_char c) (sql_lower s')
  end.

Fixpoint sql_ltrim (s : string) : string :=
  match s with
  | String " " s' => sql_ltrim s'
  | _ => s
  end.

Definition sql_trim (s : string) : string :=
  String.rev (sql_ltrim (String.rev (sql_ltrim s))).

(** SQL [LOWER(TRIM(x))]: blanks stripped at both ends, then [LOWER]. *)
Definition lower_trim (env : Env) (s : string) : string := pg_lower env (sql_trim s).

Definition select_collection_exact (uid name : string) (d : Database)
  : option (option CollectionRow * Database) :=
  Some (find (fun c => String.eqb (c_userId c) uid && String.eqb (c_name c) name)
             (collections d), d).

Definition select_collection_ci (env : Env) (uid : string) (name : jsval) (d : Database)
  : option (option CollectionRow * Database) :=
  match sql_text name with
  | None => Some (None, d)
  | Some s =>
      Some (find (fun c => String.eqb (c_userId c) uid
                           && String.eqb (lower_trim env (c_name c)) (lower_trim env s))
                 (collections d), d)
  end.

(** A nullable text bound to a [decimal(10,2)] column: [None] when the
    column rejects it, [Some None] for NULL. *)
Definition sql_decimal (env : Env) (v : option string) : option (option string) :=
  match v with
  | None => Some None
  | Some s => Some <$> pg_decimal_10_2 env s
  end.

Definition with_purchasePrice (price : option string) (c : CollectionRow) : CollectionRow :=
  {| c_id := c_id c; c_userId := c_userId c; c_type := c_type c; c_name := c_name c;
     c_description := c_description c; c_image := c_image c; c_cardId := c_cardId c;
     c_set := c_set c; c_condition := c_condition c; c_grade := c_grade c;
     c_estimatedValue := c_estimatedValue c; c_purchasePrice := price;
     c_purchaseDate := c_purchaseDate c; c_notes := c_notes c |}.

(** An id that some card already has ([id] is the primary key). *)
Definition card_id_taken (id : Z) (d : Database) : bool :=
  existsb (fun c => c_id c =? id) (collections d).

(** [insert(collections).values(row).returning()]: the row gets the next
    id of the sequence and its [purchase_price] as the column holds it; the
    insert throws when the sequence is exhausted, the id is taken, or the
    column rejects the price. *)
Definition insert_collection (env : Env) (row : Z -> CollectionRow) (d : Database)
  : option (CollectionRow * Database) :=
  let r := row (collections_seq d) in
  if (int4_max <? collections_seq d) || card_id_taken (collections_seq d) d then None
  else
    match sql_decimal env (c_purchasePrice r) with
    | None => None
    | Some price =>
        let r := with_purchasePrice price r in
        Some (r, {| storeListings := storeListings d; users := users d; stores := stores d;
                    collections := collections d ++ [r]; orders := orders d;
                    collections_seq := collections_seq d + 1; orders_seq := orders_seq d |})
    end.

Definition delete_collection (id : Z) (d : Database) : option (unit * Database) :=
  Some (tt, {| storeListings := storeListings d; users := users d; stores := stores d;
               collections := filter (fun c => c_id c ≠ id) (collections d);
               orders := orders d;
               collections_seq := collections_seq d; orders_seq := orders_seq d |}).

(** A listing after [set({ isActive: false })] at time [t]: the schema's
    [$onUpdate] of [updated_at] writes the time of the update as well. *)
Definition deactivate (t : Z) (l : Listing) : Listing :=
  {| l_id := l_id l; l_storeId := l_storeId l; l_cardName := l_cardName l;
     l_cardImage := l_cardImage l; l_price := l_price l;
     l_description := l_description l; l_isActive := Some false; l_updatedAt := t |}.

(** [update(storeListings).set({ isActive: false }).where(eq(id, ...))]. *)
Definition update_listing_inactive (t : Z) (id : jsval) (d : Database)
  : option (unit * Database) :=
  match sql_int id with
  | None => None
  | Some None => Some (tt, d)
  | Some (Some n) =>
      Some (tt, {| storeListings :=
                     map (fun l => if l_id l =? n then deactivate t l else l) (storeListings d);
                   users := users d; stores := stores d; collections := collections d;
                   orders := orders d;
                   collections_seq := collections_seq d; orders_seq := orders_seq d |})
  end.

Definition with_price (price : string) (o : OrderRow) : OrderRow :=
  {| o_id := o_id o; o_storeId := o_storeId o; o_buyerId := o_buyerId o;
     o_itemName := o_itemName o; o_itemImage := o_itemImage o; o_price := price;
     o_quantity := o_quantity o; o_status := o_status o; o_orderNumber := o_orderNumber o |}.

(** An order number that some order already has ([order_number] is
    [unique]). *)
Definition order_number_taken (orderNumber : string) (d : Database) : bool :=
  existsb (fun o => String.eqb (o_orderNumber o) orderNumber) (orders d).

(** An id that some order already has ([id] is the primary key). *)
Definition order_id_taken (id : Z) (d : Database) : bool :=
  existsb (fun o => o_id o =? id) (orders d).

(** [insert(orders).values(row).returning()]: the row gets the next id of
    the sequence and its [price] as the column holds it; the insert throws
    when the sequence is exhausted, the id or the order number is taken, or
    the column rejects the price. *)
Definition insert_order (env : Env) (row : Z -> OrderRow) (d : Database)
  : option (OrderRow * Database) :=
  let r := row (orders_seq d) in
  if (int4_max <? orders_seq d) || order_id_taken (orders_seq d) d
     || order_number_taken (o_orderNumber r) d then None
  else
    match pg_decimal_10_2 env (o_price r) with
    | None => None
    | Some price =>
        let r := with_price price r in
        Some (r, {| storeListings := storeListings d; users := users d; stores := stores d;
                    collections := collections d; orders := orders d ++ [r];
                    collections_seq := collections_seq d; orders_seq := orders_seq d + 1 |})
    end.

Definition bump_sales (t : Z) (s : StoreRow) : StoreRow :=
  {| s_id := s_id s; s_userId := s_userId s; s_storeName := s_storeName s;
     s_totalSales := (fun n => n + 1) <$> s_totalSales s; s_updatedAt := t |}.

(** A store whose [total_sales + 1] is still an [integer]. *)
Definition sales_fit (s : StoreRow) : bool :=
  match s_totalSales s with
  | Some n => n <? int4_max
  | None => true
  end.

(** [update(stores).set({ totalSales: sql`total_sales + 1`, updatedAt })]:
    it throws when the sum is out of the range of [integer]. *)
Definition increment_totalSales (storeId t : Z) (d : Database) : option (unit * Database) :=
  if forallb (fun s => negb (s_id s =? storeId) || sales_fit s) (stores d) then
    Some (tt, {| storeListings := storeListings d; users := users d;
                 stores := map (fun s => if s_id s =? storeId then bump_sales t s else s)
                             (stores d);
                 collections := collections d; orders := orders d;
                 collections_seq := collections_seq d; orders_seq := orders_seq d |})
  else None.

(** ** Ownership transfer *)

(** [a || b] on nullable text columns. *)
Definition text_or (a b : option string) : option string :=
  match a with
  | Some s => if String.eqb s "" then b else a
  | None => b
  end.

(** [orderPrice] of [transferCardOwnership]. *)
Definition order_price (env : Env) (amount : jsval) (listing : Listing) : string :=
  let src := if truthy amount then String_ amount else l_price listing in
  match parseFloat_toFixed2 env src with
  | None => l_price listing
  | Some fixed => fixed
  end.

Definition purchase_notes (sellerStore : StoreRow) (seller : User) : string :=
  "Purchased from " +:+
  default "seller" (text_or (text_or (s_storeName sellerStore) (Some (u_name seller))) (Some "seller")).

(** The row inserted for the buyer when the seller's card was found. *)
Definition moved_card (env : Env) (buyerIdStr : string) (amount : jsval)
    (listing : Listing) (sellerStore : StoreRow) (seller : User)
    (sellerCard : CollectionRow) (id : Z) : CollectionRow :=
  {| c_id := id;
     c_userId := buyerIdStr;
     c_type := default "card" (text_or (Some (c_type sellerCard)) (Some "card"));
     c_name := l_cardName listing;
     c_description := text_or (text_or (c_description sellerCard) (l_description listing)) None;
     c_image := text_or (text_or (c_image sellerCard) (l_cardImage listing)) None;
     c_cardId := c_cardId sellerCard;
     c_set := c_set sellerCard;
     c_condition := c_condition sellerCard;
     c_grade := c_grade sellerCard;
     c_estimatedValue := c_estimatedValue sellerCard;
     c_purchasePrice := sql_text amount;
     c_purchaseDate := Some (now env);
     c_notes := Some (purchase_notes sellerStore seller) |}.

(** The row inserted for the buyer when the seller has no matching card. *)
Definition fresh_card (env : Env) (buyerIdStr : string) (amount : jsval)
    (listing : Listing) (sellerStore : StoreRow) (seller : User) (id : Z) : CollectionRow :=
  {| c_id := id;
     c_userId := buyerIdStr;
     c_type := "card";
     c_name := l_cardName listing;
     c_description := text_or (l_description listing) None;
     c_image := text_or (l_cardImage listing) None;
     c_cardId := None;
     c_set := None;
     c_condition := None;
     c_grade := None;
     c_estimatedValue := None;
     c_purchasePrice := sql_text amount;
     c_purchaseDate := Some (now env);
     c_notes := Some (purchase_notes sellerStore seller) |}.

(** [orderNumber] of [transferCardOwnership]. *)
Definition order_number (env : Env) : string :=
  "ORD-" +:+ num_to_string (now env) +:+ "-" +:+ random9 env.

Definition new_order (env : Env) (buyerIdStr : string) (amount : jsval)
    (listing : Listing) (id : Z) : OrderRow :=
  {| o_id := id;
     o_storeId := l_storeId listing;
     o_buyerId := buyerIdStr;
     o_itemName := l_cardName listing;
     o_itemImage := text_or (l_cardImage listing) None;
     o_price := order_price env amount listing;
     o_quantity := 1;
     o_status := "completed";
     o_orderNumber := order_number env |}.

(** The three lookups of the seller's card, tried in order. *)
Definition find_sellerCard {R} (env : Env) (sellerIdStr : string) (listing : Listing)
    (itemName : jsval) : M R (option CollectionRow) :=
  exactMatch <- dbcall (select_collection_exact sellerIdStr (l_cardName listing)) ;;
  match exactMatch with
  | Some c => ret (Some c)
  | None =>
      caseInsensitiveMatch <-
        dbcall (select_collection_ci env sellerIdStr (JStr (l_cardName listing))) ;;
      match caseInsensitiveMatch with
      | Some c => ret (Some c)
      | None => dbcall (select_collection_ci env sellerIdStr itemName)
      end
  end.

(** The [try] block of [transferCardOwnership]. *)
Definition transfer_steps (env : Env) (listingId buyerId sellerId itemName amount : jsval)
  : M unit unit :=
  let buyerIdStr := if is_string buyerId then String_ buyerId else String_ buyerId in
  let sellerIdStr := if is_string sellerId then String_ sellerId else String_ sellerId in
  listing <- dbcall (select_listing_by_id listingId) ;;
  match listing with
  | None => return_ tt
  | Some listing =>
  buyer <- dbcall (select_user_by_id buyerIdStr) ;;
  match buyer with
  | None => return_ tt
  | Some buyer =>
  seller <- dbcall (select_user_by_id sellerIdStr) ;;
  match seller with
  | None => return_ tt
  | Some seller =>
  sellerStore <- dbcall (select_store_by_userId sellerIdStr) ;;
  match sellerStore with
  | None => return_ tt
  | Some sellerStore =>
  sellerCard <- find_sellerCard env sellerIdStr listing itemName ;;
  (match sellerCard with
   | Some sellerCard =>
       dbcall (insert_collection env
                 (moved_card env buyerIdStr amount listing sellerStore seller sellerCard)) ;;;
       dbcall (delete_collection (c_id sellerCard))
   | None =>
       dbcall (insert_collection env
                 (fresh_card env buyerIdStr amount listing sellerStore seller)) ;;;
       skip
   end) ;;;
  dbcall (update_listing_inactive (now env) listingId) ;;;
  dbcall (insert_order env (new_order env buyerIdStr amount listing)) ;;;
  dbcall (increment_totalSales (l_storeId listing) (now env))
  end end end end.

(** [await transferCardOwnership(...)]: the function catches what its
    [try] block throws. *)
Definition transferCardOwnership {R} (env : Env)
    (listingId buyerId sellerId itemName amount : jsval) : M R unit :=
  call (try_catch (transfer_steps env listingId buyerId sellerId itemName amount) skip).

(** ** HTTP requests and responses *)

Record Request := {
  req_body : option JsObject;
  req_query : JsObject;
  req_params : JsObject;
  req_protocol : string;
  req_host : option string;
}.

Inductive Body :=
  | BText (text : string)
  | BError (error : string)
  | BPaymentCreated (paymentUrl : string) (paymentParams : JsObject) (mPaymentId : jsval)
  | BSuccessPage
  | BCancelPage
  | BStatus (st : Status) (mPaymentId pfPaymentId amount : jsval)
  | BTransferDone.

Record Response := { res_status : Z; res_body : Body }.

(** An Express handler whose whole body is [try { body } catch { send on_error }]. *)
Definition handler (body : M Response Response) (on_error : Response)
  : World -> Response * World :=
  fun w =>
    match body w with
    | (Normal r, w') => (r, w')
    | (Return r, w') => (r, w')
    | (Throw, w') => (on_error, w')
    end.

(** ** POST /create-payment *)

Definition opt_jsval (o : option string) : jsval :=
  match o with Some s => JStr s | None => JUndefined end.

(** The check of a caller-supplied return or cancel URL; [startsWith] is not
    a function on a value that is not a string. *)
Definition check_url {R} (url : jsval) : M R jsval :=
  if truthy url then
    match url with
    | JStr s =>
        if negb (startsWith s "http://") && negb (startsWith s "https://")
        then ret JUndefined else ret url
    | _ => throw
    end
  else ret url.

(** [new URLSearchParams()], filled with the truthy parameters, and its
    [toString()]. *)
Definition payfast_query (paymentParams : JsObject) : string :=
  String.concat "&"
    (map (fun kv => form_encode (fst kv) +:+ "=" +:+ form_encode (String_ (snd kv)))
         (filter (fun kv => truthy (snd kv) = true) paymentParams)).

Definition create_payment_body (env : Env) (req : Request) : M Response Response :=
  let cfg := config env in
  body <- lift_option (req_body req) ;;
  let amount := obj_get body "amount" in
  let itemName := obj_get body "itemName" in
  let itemDescription := obj_get body "itemDescription" in
  let returnUrl := obj_get body "returnUrl" in
  let cancelUrl := obj_get body "cancelUrl" in
  let notifyUrl := obj_get body "notifyUrl" in
  let userEmail := obj_get body "userEmail" in
  let userNameFirst := obj_get body "userNameFirst" in
  let userNameLast := obj_get body "userNameLast" in
  let cellNumber := obj_get body "cellNumber" in
  let mPaymentId := obj_get body "mPaymentId" in
  let listingId := obj_get body "listingId" in
  let buyerId := obj_get body "buyerId" in
  let sellerId := obj_get body "sellerId" in
  let clientBackendUrl := obj_get body "backendUrl" in
  if negb (truthy amount) || negb (truthy itemName) then
    return_ {| res_status := 400; res_body := BError "Amount and item name are required" |}
  else
  let paymentId :=
    js_or mPaymentId (JStr ("pf_" +:+ num_to_string (now env) +:+ "_" +:+ random9 env)) in
  let backendUrl := js_or clientBackendUrl (opt_jsval (BACKEND_URL cfg)) in
  let backendUrl :=
    if negb (truthy backendUrl) then
      let protocol := js_or (JStr (req_protocol req)) (JStr "http") in
      let host := js_or (opt_jsval (req_host req)) (JStr "localhost:3050") in
      JStr (String_ protocol +:+ "://" +:+ String_ host)
    else backendUrl in
  let backendUrl :=
    if negb (truthy backendUrl) then JStr "http://localhost:3050" else backendUrl in
  baseReturnUrl <- check_url returnUrl ;;
  baseCancelUrl <- check_url cancelUrl ;;
  let baseReturnUrl :=
    js_or baseReturnUrl
      (JStr (String_ backendUrl +:+ "/payment/return?status=success&m_payment_id="
             +:+ String_ paymentId)) in
  let baseCancelUrl :=
    js_or baseCancelUrl
      (JStr (String_ backendUrl +:+ "/payment/return?status=cancel&m_payment_id="
             +:+ String_ paymentId)) in
  let isSandbox := sandbox cfg in
  let merchantId := if isSandbox then sandboxMerchantId cfg else merchantId cfg in
  let merchantKey := if isSandbox then sandboxMerchantKey cfg else merchantKey cfg in
  let passphrase :=
    if isSandbox
    then js_or (js_or (JStr (sandboxPassphrase cfg)) (opt_jsval (PAYFAST_SANDBOX_PASSPHRASE cfg)))
               (JStr "")
    else JStr (passphrase cfg) in
  let paymentParams : JsObject :=
    [ ("merchant_id", JStr merchantId);
      ("merchant_key", JStr merchantKey);
      ("return_url", baseReturnUrl);
      ("cancel_url", baseCancelUrl);
      ("notify_url", js_or notifyUrl (JStr (String_ backendUrl +:+ "/payment/itn")));
      ("name_first", js_or userNameFirst (JStr "User"));
      ("name_last", js_or userNameLast (JStr ""));
      ("email_address", js_or userEmail (JStr "user@example.com"));
      ("cell_number", js_or cellNumber (JStr ""));
      ("m_payment_id", paymentId);
      ("amount", JStr (default "NaN" (parseFloat_toFixed2 env (String_ amount))));
      ("item_name", itemName);
      ("item_description", js_or itemDescription itemName) ] in
  let signature :=
    generatePayFastSignature paymentParams
      (if truthy passphrase then Some (String_ passphrase) else None) in
  let paymentParams := obj_set paymentParams "signature" (JStr signature) in
  let paymentUrl := if sandbox cfg then sandboxUrl cfg else productionUrl cfg in
  let directPayFastUrl := paymentUrl +:+ "?" +:+ payfast_query paymentParams in
  let parsedListingId :=
    if truthy listingId
    then (if is_string listingId then parseInt (String_ listingId) else listingId)
    else JUndefined in
  let parsedBuyerId :=
    if truthy buyerId
    then (if is_string buyerId then buyerId else JStr (String_ buyerId))
    else JUndefined in
  let parsedSellerId :=
    if truthy sellerId
    then (if is_string sellerId then sellerId else JStr (String_ sellerId))
    else JUndefined in
  store_set paymentId
    {| status := pending;
       mPaymentId := paymentId;
       pfPaymentId := JUndefined;
       amount := JUndefined;
       timestamp := now env;
       listingId := parsedListingId;
       buyerId := parsedBuyerId;
       sellerId := parsedSellerId |} ;;;
  ret {| res_status := 200;
         res_body := BPaymentCreated directPayFastUrl paymentParams paymentId |}.

Definition create_payment (env : Env) (req : Request) : World -> Response * World :=
  handler (create_payment_body env req)
          {| res_status := 500; res_body := BError "Failed to create payment" |}.

(** ** GET /return *)

(** [{ ...existingPayment, status: 'complete', timestamp: Date.now() }]. *)
Definition promote (env : Env) (existingPayment : PaymentRecord) : PaymentRecord :=
  {| status := complete;
     mPaymentId := mPaymentId existingPayment;
     pfPaymentId := pfPaymentId existingPayment;
     amount := amount existingPayment;
     timestamp := now env;
     listingId := listingId existingPayment;
     buyerId := buyerId existingPayment;
     sellerId := sellerId existingPayment |}.

(** The transfer triggered from the return URL for a record that was still
    pending. *)
Definition return_transfer {R} (env : Env) (existingPayment : PaymentRecord) : M R unit :=
  if truthy (listingId existingPayment) && truthy (buyerId existingPayment)
     && truthy (sellerId existingPayment) then
    try_catch
      (listing <- dbcall (select_listing_by_id (listingId existingPayment)) ;;
       match listing with
       | Some listing =>
           transferCardOwnership env
             (listingId existingPayment) (buyerId existingPayment) (sellerId existingPayment)
             (JStr (l_cardName listing))
             (js_or (amount existingPayment) (JStr (l_price listing)))
       | None => skip
       end)
      skip
  else if truthy (listingId existingPayment) then
    try_catch (dbcall (update_listing_inactive (now env) (listingId existingPayment))) skip
  else skip.

Definition return_body (env : Env) (req : Request) : M Response Response :=
  let status_ := obj_get (req_query req) "status" in
  let m_payment_id := obj_get (req_query req) "m_payment_id" in
  (if bool_decide (status_ = JStr "success") && truthy m_payment_id && is_string m_payment_id
   then
     existingPayment <- store_get m_payment_id ;;
     match existingPayment with
     | Some existingPayment =>
         if bool_decide (status existingPayment = pending) then
           store_set m_payment_id (promote env existingPayment) ;;;
           return_transfer env existingPayment
         else skip
     | None =>
         store_set m_payment_id
           {| status := complete;
              mPaymentId := m_payment_id;
              pfPaymentId := JUndefined;
              amount := JUndefined;
              timestamp := now env;
              listingId := JUndefined;
              buyerId := JUndefined;
              sellerId := JUndefined |}
     end
   else skip) ;;;
  if bool_decide (status_ = JStr "success") then
    ret {| res_status := 200; res_body := BSuccessPage |}
  else if bool_decide (status_ = JStr "cancel") then
    ret {| res_status := 200; res_body := BCancelPage |}
  else ret {| res_status := 400; res_body := BText "Invalid status parameter" |}.

Definition payment_return (env : Env) (req : Request) : World -> Response * World :=
  handler (return_body env req)
          {| res_status := 500; res_body := BText "Error processing return" |}.

(** ** POST /manual-transfer *)

Definition manual_transfer_body (env : Env) (req : Request) : M Response Response :=
  body <- lift_option (req_body req) ;;
  let paymentId := obj_get body "paymentId" in
  let listingId := obj_get body "listingId" in
  let buyerId := obj_get body "buyerId" in
  let sellerId := obj_get body "sellerId" in
  let itemName := obj_get body "itemName" in
  let amount := obj_get body "amount" in
  if negb (truthy paymentId) || negb (truthy listingId) || negb (truthy buyerId)
     || negb (truthy sellerId) then
    return_ {| res_status := 400;
               res_body := BError "Missing required fields: paymentId, listingId, buyerId, sellerId" |}
  else
  let lid := if is_string listingId then parseInt (String_ listingId) else listingId in
  listing <- dbcall (select_listing_by_id lid) ;;
  match listing with
  | None => return_ {| res_status := 404; res_body := BError "Listing not found" |}
  | Some listing =>
      transferCardOwnership env lid buyerId sellerId
        (js_or itemName (JStr (l_cardName listing)))
        (js_or amount (JStr (l_price listing))) ;;;
      ret {| res_status := 200; res_body := BTransferDone |}
  end.

Definition manual_transfer (env : Env) (req : Request) : World -> Response * World :=
  handler (manual_transfer_body env req)
          {| res_status := 500; res_body := BError "Failed to transfer card" |}.

(** ** GET /status/:paymentId *)

Definition status_body (req : Request) : M Response Response :=
  let paymentId := obj_get (req_params req) "paymentId" in
  payment <- store_get paymentId ;;
  match payment with
  | None => return_ {| res_status := 404; res_body := BError "Payment not found" |}
  | Some payment =>
      ret {| res_status := 200;
             res_body := BStatus (status payment) (mPaymentId payment)
                                 (pfPaymentId payment) (amount payment) |}
  end.

Definition payment_status (req : Request) : World -> Response * World :=
  handler (status_body req)
          {| res_status := 500; res_body := BError "Failed to check payment status" |}.

(** ** POST /itn *)

(** The [forEach] that fills [verifyParams]; [data[key].toString()] throws
    on [null]. *)
Definition itn_verify_step (data : JsObject) (acc : option JsObject) (key : string)
  : option JsObject :=
  match acc with
  | None => None
  | Some verifyParams =>
      if negb (String.eqb key "signature") && negb (bool_decide (obj_get data key = JStr ""))
      then match toString (obj_get data key) with
           | Some s => Some (obj_set verifyParams key (JStr s))
           | None => None
           end
      else Some verifyParams
  end.

Definition itn_isSandbox (cfg : Config) (data : JsObject) : bool :=
  bool_decide (obj_get data "merchant_id" = JStr (sandboxMerchantId cfg)).

Definition itn_passphrase (cfg : Config) (data : JsObject) : option string :=
  let passphrase :=
    if itn_isSandbox cfg data then sandboxPassphrase cfg else passphrase cfg in
  if String.eqb passphrase "" then None else Some passphrase.

(** [expectedSignature], or [None] when building [verifyParams] throws. *)
Definition itn_expectedSignature (cfg : Config) (data : JsObject) : option string :=
  match foldl (itn_verify_step data) (Some []) (obj_keys data) with
  | None => None
  | Some verifyParams =>
      let merchantKey :=
        if itn_isSandbox cfg data then sandboxMerchantKey cfg else merchantKey cfg in
      let verifyParams := obj_set verifyParams "merchant_key" (JStr merchantKey) in
      Some (generatePayFastSignature verifyParams (itn_passphrase cfg data))
  end.

(** The comparison [expectedSignature !== incomingSignature] decides only
    what is logged. *)
Definition itn_signature_matches (cfg : Config) (data : JsObject) : option bool :=
  match itn_expectedSignature cfg data with
  | None => None
  | Some expectedSignature =>
      Some (bool_decide (JStr expectedSignature = obj_get data "signature"))
  end.

Definition OK200 : Response := {| res_status := 200; res_body := BText "OK" |}.

(** The lookups made when the stored record lacks an id. *)
Definition itn_fallback (env : Env) (data : JsObject) : M Response unit :=
  listing <- dbcall (select_active_listing_by_name (obj_get data "item_name")) ;;
  match listing with
  | Some listing =>
      sellerStore <- dbcall (select_store_by_id (l_storeId listing)) ;;
      match sellerStore with
      | None => return_ OK200
      | Some sellerStore =>
          buyer <- dbcall (select_user_by_email (obj_get data "email_address")) ;;
          match buyer with
          | None => return_ OK200
          | Some buyer =>
              transferCardOwnership env (JNum (l_id listing)) (JStr (u_id buyer))
                (JStr (s_userId sellerStore))
                (obj_get data "item_name") (obj_get data "amount_gross")
          end
      end
  | None => skip
  end.

Definition itn_complete (env : Env) (data : JsObject) : M Response unit :=
  let m_payment_id := obj_get data "m_payment_id" in
  storedPayment <- store_get m_payment_id ;;
  let stored_listingId := default JUndefined (listingId <$> storedPayment) in
  let stored_buyerId := default JUndefined (buyerId <$> storedPayment) in
  let stored_sellerId := default JUndefined (sellerId <$> storedPayment) in
  store_set m_payment_id
    {| status := complete;
       mPaymentId := m_payment_id;
       pfPaymentId := obj_get data "pf_payment_id";
       amount := obj_get data "amount_gross";
       timestamp := now env;
       listingId := stored_listingId;
       buyerId := stored_buyerId;
       sellerId := stored_sellerId |} ;;;
  if truthy stored_listingId && truthy stored_buyerId && truthy stored_sellerId then
    transferCardOwnership env stored_listingId stored_buyerId stored_sellerId
      (obj_get data "item_name") (obj_get data "amount_gross")
  else itn_fallback env data.

Definition itn_failed (env : Env) (data : JsObject) : M Response unit :=
  let m_payment_id := obj_get data "m_payment_id" in
  store_set m_payment_id
    {| status := failed;
       mPaymentId := m_payment_id;
       pfPaymentId := JUndefined;
       amount := JUndefined;
       timestamp := now env;
       listingId := JUndefined;
       buyerId := JUndefined;
       sellerId := JUndefined |}.

Definition itn_body (env : Env) (req : Request) : M Response Response :=
  data <- lift_option (req_body req) ;;
  let payment_status := obj_get data "payment_status" in
  _matches <- lift_option (itn_signature_matches (config env) data) ;;
  (if bool_decide (payment_status = JStr "COMPLETE") then itn_complete env data
   else if bool_decide (payment_status = JStr "FAILED") then itn_failed env data
   else skip) ;;;
  ret OK200.

Definition itn (env : Env) (req : Request) : World -> Response * World :=
  handler (itn_body env req) OK200.

(** The properties of the ITN payload that go into [verifyParams]. *)
Definition itn_kept (kv : string * jsval) : Prop :=
  fst kv <> "signature" /\ snd kv <> JStr "".

#[local] Instance itn_kept_dec kv : Decision (itn_kept kv).
Proof. unfold itn_kept. apply _. Defined.

(** The payload the gateway would post for [params] signed with the
    passphrase of the environment that [params] names. *)
Definition signed_payload (cfg : Config) (params : JsObject) : JsObject :=
  obj_set params "signature"
    (JStr (generatePayFastSignature params (itn_passphrase cfg params))).

(** ** Requests against the router *)

Inductive Route := CreatePayment | PaymentReturn | ManualTransfer | PaymentStatus | Itn.

Definition route (env : Env) (r : Route) (req : Request) : World -> Response * World :=
  match r with
  | CreatePayment => create_payment env req
  | PaymentReturn => payment_return env req
  | ManualTransfer => manual_transfer env req
  | PaymentStatus => payment_status req
  | Itn => itn env req
  end.

(** One incoming request: the route, the request, what it reads from its
    environment, and the faults its database queries meet. *)
Record Call := {
  call_route : Route;
  call_req : Request;
  call_env : Env;
  call_faults : list bool;
}.

Definition with_faults (fs : list bool) (w : World) : World :=
  {| paymentStatusStore := paymentStatusStore w; db := db w; faults := fs |}.

Definition serve (w : World) (c : Call) : World :=
  snd (route (call_env c) (call_route c) (call_req c) (with_faults (call_faults c) w)).

(** The world after a sequence of requests handled one after the other. *)
Definition serve_all (w : World) (cs : list Call) : World := foldl serve w cs.

Definition initial_world (d : Database) : World :=
  {| paymentStatusStore := ∅; db := d; faults := [] |}.

(** ** A worked scenario

    One listing of the card Flareon Ex at 165.00, its seller with a
    store and the card in the collection, and a buyer. *)

Definition example_config_env (t : Z) (rnd : string) : Env := {|
  config := PAYFAST_CONFIG;
  now := t;
  random9 := rnd;
  (* parseFloat("165.00").toFixed(2) is "165.00" and
     parseFloat("165.5").toFixed(2) is "165.50"; the scenario formats no
     other amount. *)
  parseFloat_toFixed2 :=
    fun s => if String.eqb s "165.00" then Some "165.00"
             else if String.eqb s "165.5" then Some "165.50" else None;
  (* The decimal column holds 165.00 as it is given and 165.5 as 165.50;
     the scenario binds no other price. Its names are ASCII. *)
  pg_decimal_10_2 :=
    fun s => if String.eqb s "165.00" || String.eqb s "165.50" then Some s
             else if String.eqb s "165.5" then Some "165.50" else None;
  pg_lower := sql_lower;
|}.

Definition example_db : Database := {|
  storeListings :=
    [ {| l_id := 7; l_storeId := 3; l_cardName := "Flareon Ex"; l_cardImage := None;
         l_price := "165.00"; l_description := None; l_isActive := Some true;
         l_updatedAt := 0 |} ];
  users :=
    [ {| u_id := "buyer-1"; u_email := "buyer@example.com"; u_name := "Bea" |};
      {| u_id := "seller-1"; u_email := "seller@example.com"; u_name := "Sol" |} ];
  stores :=
    [ {| s_id := 3; s_userId := "seller-1"; s_storeName := Some "Card Shop";
         s_totalSales := Some 0; s_updatedAt := 0 |} ];
  collections :=
    [ {| c_id := 1; c_userId := "seller-1"; c_type := "card"; c_name := "Flareon Ex";
         c_description := None; c_image := None; c_cardId := None; c_set := None;
         c_condition := Some "mint"; c_grade := None; c_estimatedValue := None;
         c_purchasePrice := None; c_purchaseDate := None; c_notes := None |} ];
  orders := [];
  collections_seq := 2;
  orders_seq := 1;
|}.

Definition example_request (body : option JsObject) (query : JsObject) : Request := {|
  req_body := body;
  req_query := query;
  req_params := [];
  req_protocol := "http";
  req_host := Some "localhost:3050";
|}.

(** The buyer starts the purchase. *)
Definition example_create : Call := {|
  call_route := CreatePayment;
  call_req :=
    example_request
      (Some [ ("amount", JStr "165.00"); ("itemName", JStr "Flareon Ex");
              ("mPaymentId", JStr "pay-1"); ("listingId", JNum 7);
              ("buyerId", JStr "buyer-1"); ("sellerId", JStr "seller-1") ]) [];
  call_env := example_config_env 1700000000000 "k3j9x2m1q";
  call_faults := [];
|}.

Definition example_itn_payload (payment_status : string) : JsObject :=
  [ ("m_payment_id", JStr "pay-1"); ("pf_payment_id", JStr "1089250");
    ("payment_status", JStr payment_status); ("item_name", JStr "Flareon Ex");
    ("amount_gross", JStr "165.00"); ("merchant_id", JStr "10045117");
    ("email_address", JStr "buyer@example.com");
    ("signature", JStr "0123456789abcdef0123456789abcdef") ].

(** The gateway reports the payment, at time [t]. *)
Definition example_itn (payment_status : string) (t : Z) (rnd : string) : Call := {|
  call_route := Itn;
  call_req := example_request (Some (example_itn_payload payment_status)) [];
  call_env := example_config_env t rnd;
  call_faults := [];
|}.

(** The browser of the buyer comes back from the gateway. *)
Definition example_return (status_ : string) (t : Z) (rnd : string) : Call := {|
  call_route := PaymentReturn;
  call_req := example_request None [("status", JStr status_); ("m_payment_id", JStr "pay-1")];
  call_env := example_config_env t rnd;
  call_faults := [];
|}.

(** What the scenario observes of a world. *)
Definition sales_of (w : World) : list (option Z) := map s_totalSales (stores (db w)).
Definition owners_of (w : World) : list string := map c_userId (collections (db w)).
Definition order_numbers_of (w : World) : list string := map o_orderNumber (orders (db w)).
Definition status_of (w : World) (k : jsval) : option Status :=
  status <$> paymentStatusStore w !! k.
Definition ids_of (w : World) (k : jsval) : option (jsval * jsval * jsval) :=
  (fun r => (listingId r, buyerId r, sellerId r)) <$> paymentStatusStore w !! k.

(** The worlds the scenario goes through. *)
Definition world_created : World := serve (initial_world example_db) example_create.

Definition world_paid : World :=
  serve world_created (example_itn "COMPLETE" 1700000060000 "a1b2c3d4e").

Definition world_paid_again : World :=
  serve world_paid (example_itn "COMPLETE" 1700000120000 "z9y8x7w6v").

Definition world_returned : World :=
  serve world_created (example_return "success" 1700000030000 "m4n5b6v7c").

Definition world_returned_then_paid : World :=
  serve world_returned (example_itn "COMPLETE" 1700000060000 "a1b2c3d4e").

Definition world_failed : World :=
  serve world_created (example_itn "FAILED" 1700000060000 "a1b2c3d4e").

Definition world_paid_then_failed : World :=
  serve world_paid (example_itn "FAILED" 1700000120000 "z9y8x7w6v").

Definition world_failed_then_paid : World :=
  serve world_failed (example_itn "COMPLETE" 1700000120000 "z9y8x7w6v").

(** The buyer starts the purchase of [pay-1] once more, after it was paid,
    and comes back from the gateway. *)
Definition example_create_again : Call := {|
  call_route := CreatePayment;
  call_req := call_req example_create;
  call_env := example_config_env 1700000090000 "q7w8e9r0t";
  call_faults := [];
|}.

Definition world_paid_then_created : World := serve world_paid example_create_again.

Definition world_paid_created_returned : World :=
  serve world_paid_then_created (example_return "success" 1700000120000 "z9y8x7w6v").

(** The parameters of a notification for the scenario's payment, with the
    sandbox credentials of [PAYFAST_CONFIG], for a given [amount_gross]. *)
Definition example_params (amount_gross : string) : JsObject :=
  [ ("merchant_id", JStr "10045117"); ("merchant_key", JStr "dxv5rm6a520rb");
    ("m_payment_id", JStr "pay-1"); ("payment_status", JStr "COMPLETE");
    ("item_name", JStr "Flareon Ex"); ("amount_gross", JStr amount_gross) ].

(** A string that is one tab character. *)
Definition tab : string := String (chr 9) "".

(** ** What one request may do to the store *)

Definition ids_kept (old : option PaymentRecord) (new : PaymentRecord) : Prop :=
  listingId new = default JUndefined (listingId <$> old)
  /\ buyerId new = default JUndefined (buyerId <$> old)
  /\ sellerId new = default JUndefined (sellerId <$> old).

(** The record [new] that the request [c] may put in place of [old]. *)
Definition call_writes (c : Call) (old : option PaymentRecord) (new : PaymentRecord) : Prop :=
  match call_route c with
  | CreatePayment => status new = pending
  | PaymentReturn =>
      status new = complete
      /\ (old = None \/ exists r, old = Some r /\ status r = pending)
      /\ ids_kept old new
  | Itn =>
      exists data, req_body (call_req c) = Some data
      /\ ((obj_get data "payment_status" = JStr "COMPLETE"
           /\ status new = complete /\ ids_kept old new)
          \/ (obj_get data "payment_status" = JStr "FAILED" /\ status new = failed))
  | ManualTransfer | PaymentStatus => False
  end.

(** The store [s'] is [s], or [s] with one record written. *)
Definition one_write (P : option PaymentRecord -> PaymentRecord -> Prop)
    (s s' : PaymentStore) : Prop :=
  s' = s \/ exists k new, P (s !! k) new /\ s' = <[k := new]> s.

(** ** Vocabulary of the properties *)

(** What a computation can end with: [Pn] holds of a normal result and [Pr]
    of a returned one. *)
Definition ends {R A} (Pn : A -> Prop) (Pr : R -> Prop) (m : M R A) : Prop :=
  forall w,
    match fst (m w) with
    | Normal a => Pn a
    | Return r => Pr r
    | Throw => True
    end.

(** A computation that leaves the payment status store as it was. *)
Definition store_fixed {R A} (m : M R A) : Prop :=
  forall w, paymentStatusStore (snd (m w)) = paymentStatusStore w.

(** A computation that takes the store from [s] to some [s'] with [E s s']. *)
Definition store_effect {R A} (E : PaymentStore -> PaymentStore -> Prop) (m : M R A) : Prop :=
  forall w, E (paymentStatusStore w) (paymentStatusStore (snd (m w))).

(** ** Vocabulary of the further properties *)

(** Every character of [s] passes the test [P]. *)
Fixpoint all_chars (P : ascii -> bool) (s : string) : bool :=
  match s with
  | EmptyString => true
  | String c s' => P c && all_chars P s'
  end.

(** The characters an encoded value is made of. *)
Definition pf_safe_char (c : ascii) : bool := uri_unreserved c || mem_char c "%+".

(** A lower-case hexadecimal digit. *)
Definition is_lower_hex (c : ascii) : bool := mem_char c "0123456789abcdef".

(** The world with its database replaced. *)
Definition with_db (d : Database) (w : World) : World :=
  {| paymentStatusStore := paymentStatusStore w; db := d; faults := faults w |}.

(** What may become of a listing and of a store row. *)
Definition listing_history (l l' : Listing) : Prop := l' = l \/ exists t, l' = deactivate t l.

Definition store_history (s s' : StoreRow) : Prop :=
  s_id s' = s_id s /\ s_userId s' = s_userId s /\ s_storeName s' = s_storeName s
  /\ exists k, 0 <= k /\ s_totalSales s' = (fun n => n + k) <$> s_totalSales s.

(** What may become of the database: users stay, listings are at most
    deactivated, store rows at most gain sales, orders are only added. *)
Definition db_history (d d' : Database) : Prop :=
  users d' = users d
  /\ Forall2 listing_history (storeListings d) (storeListings d')
  /\ Forall2 store_history (stores d) (stores d')
  /\ exists new, orders d' = (orders d ++ new)%list.

Definition query_keeps {A} (q : Database -> option (A * Database)) : Prop :=
  forall d a d', q d = Some (a, d') -> db_history d d'.

Definition db_moves {R A} (m : M R A) : Prop :=
  forall w, db_history (db w) (db (snd (m w))).

(** The row of a query that selects one. *)
Definition first_row {A} (r : option (option A * Database)) : option A :=
  match r with
  | Some (row, _) => row
  | None => None
  end.


(** [store_listings.id] is a [serial] primary key: the ids of the listings
    are distinct and in the range of [integer]. *)
Definition listings_keyed (d : Database) : Prop :=
  NoDup (map l_id (storeListings d))
  /\ Forall (fun l => - int4_max - 1 <= l_id l <= int4_max) (storeListings d).

(** The database takes the rows that a transfer for [listing] at [amount]
    writes: both sequences give an id that is in range and not taken, the
    [purchase_price] column takes the amount and holds it as
    [purchasePrice], the [price] column takes the order price and holds it
    as [price], the order number is not taken, and the sales of the
    listing's store can still be counted up. *)
Definition transfer_accepted (env : Env) (amount : jsval) (listing : Listing) (d : Database)
    (purchasePrice : option string) (price : string) : Prop :=
  collections_seq d <= int4_max
  /\ card_id_taken (collections_seq d) d = false
  /\ orders_seq d <= int4_max
  /\ order_id_taken (orders_seq d) d = false
  /\ sql_decimal env (sql_text amount) = Some purchasePrice
  /\ pg_decimal_10_2 env (order_price env amount listing) = Some price
  /\ order_number_taken (order_number env) d = false
  /\ forallb (fun s => negb (s_id s =? l_storeId listing) || sales_fit s) (stores d) = true.

(** The passphrase [create-payment] signs with ([passphrase || undefined]). *)
Definition create_passphrase (cfg : Config) : option string :=
  let passphrase :=
    if sandbox cfg
    then js_or (js_or (JStr (sandboxPassphrase cfg)) (opt_jsval (PAYFAST_SANDBOX_PASSPHRASE cfg)))
               (JStr "")
    else JStr (passphrase cfg) in
  if truthy passphrase then Some (String_ passphrase) else None.

(** [mPaymentId || `pf_${Date.now()}_${...}`]. *)
Definition create_paymentId (env : Env) (body : JsObject) : jsval :=
  js_or (obj_get body "mPaymentId")
        (JStr ("pf_" +:+ num_to_string (now env) +:+ "_" +:+ random9 env)).

(** [parsedListingId], and [parsedBuyerId] / [parsedSellerId]. *)
Definition parse_listingId (listingId : jsval) : jsval :=
  if truthy listingId
  then (if is_string listingId then parseInt (String_ listingId) else listingId)
  else JUndefined.

Definition parse_partyId (id : jsval) : jsval :=
  if truthy id then (if is_string id then id else JStr (String_ id)) else JUndefined.

(** The record [create-payment] stores. *)
Definition create_record (env : Env) (body : JsObject) : PaymentRecord :=
  {| status := pending;
     mPaymentId := create_paymentId env body;
     pfPaymentId := JUndefined;
     amount := JUndefined;
     timestamp := now env;
     listingId := parse_listingId (obj_get body "listingId");
     buyerId := parse_partyId (obj_get body "buyerId");
     sellerId := parse_partyId (obj_get body "sellerId") |}.

(** The world with one record written to the payment status store. *)
Definition with_record (k : jsval) (r : PaymentRecord) (w : World) : World :=
  {| paymentStatusStore := <[k := r]> (paymentStatusStore w); db := db w; faults := faults w |}.

(** A return or cancel URL on which [startsWith] can be called, or that is
    not looked at. *)
Definition url_usable (url : jsval) : Prop := truthy url = false \/ is_string url = true.

(** The page or error that GET /return sends for a [status]. *)
Definition return_response (status_ : jsval) : Response :=
  if bool_decide (status_ = JStr "success") then
    {| res_status := 200; res_body := BSuccessPage |}
  else if bool_decide (status_ = JStr "cancel") then
    {| res_status := 200; res_body := BCancelPage |}
  else {| res_status := 400; res_body := BText "Invalid status parameter" |}.

(** The condition under which GET /return looks at the store:
    [status === 'success' && m_payment_id && typeof m_payment_id === 'string']. *)
Definition return_updates (req : Request) : bool :=
  bool_decide (obj_get (req_query req) "status" = JStr "success")
  && truthy (obj_get (req_query req) "m_payment_id")
  && is_string (obj_get (req_query req) "m_payment_id").

(** The record GET /return creates when none is stored. *)
Definition bare_complete (env : Env) (m_payment_id : jsval) : PaymentRecord :=
  {| status := complete;
     mPaymentId := m_payment_id;
     pfPaymentId := JUndefined;
     amount := JUndefined;
     timestamp := now env;
     listingId := JUndefined;
     buyerId := JUndefined;
     sellerId := JUndefined |}.

(** A computation that always ends normally. *)
Definition settles {R A} (m : M R A) : Prop :=
  forall w, exists a w', m w = (Normal a, w').

(** The two outcomes that POST /itn acts on. *)
Definition itn_reports (req : Request) (payment_status : string) : bool :=
  match req_body req with
  | Some data => bool_decide (obj_get data "payment_status" = JStr payment_status)
  | None => false
  end.

(** The record POST /itn stores for a COMPLETE notification. *)
Definition itn_record (env : Env) (data : JsObject) (storedPayment : option PaymentRecord)
  : PaymentRecord :=
  {| status := complete;
     mPaymentId := obj_get data "m_payment_id";
     pfPaymentId := obj_get data "pf_payment_id";
     amount := obj_get data "amount_gross";
     timestamp := now env;
     listingId := default JUndefined (listingId <$> storedPayment);
     buyerId := default JUndefined (buyerId <$> storedPayment);
     sellerId := default JUndefined (sellerId <$> storedPayment) |}.

(** The listing id that POST /manual-transfer hands to the database:
    [typeof listingId === 'string' ? parseInt(listingId) : listingId]. *)
Definition manual_listingId (body : JsObject) : jsval :=
  let listingId := obj_get body "listingId" in
  if is_string listingId then parseInt (String_ listingId) else listingId.

(** The check of POST /manual-transfer on its four required fields. *)
Definition manual_complete (body : JsObject) : bool :=
  truthy (obj_get body "paymentId") && truthy (obj_get body "listingId")
  && truthy (obj_get body "buyerId") && truthy (obj_get body "sellerId").

Definition with_store (s : PaymentStore) (w : World) : World :=
  {| paymentStatusStore := s; db := db w; faults := faults w |}.

(** A computation that neither reads nor writes the payment status store. *)
Definition store_blind {R A} (m : M R A) : Prop :=
  forall w s, m (with_store s w) = (fst (m w), with_store s (snd (m w))).

(** * Properties *)

(** ** The digest agrees with the RFC 1321 test suite *)

Example md5_empty : md5 "" = "d41d8cd98f00b204e9800998ecf8427e".
Proof. vm_compute. reflexivity. Qed.

Example md5_abc : md5 "abc" = "900150983cd24fb0d6963f7d28e17f72".
Proof. vm_compute. reflexivity. Qed.

Example md5_long :
  md5 "12345678901234567890123456789012345678901234567890123456789012345678901234567890"
  = "57edf4a22be3c955ac49da2e2107b67a".
Proof. vm_compute. reflexivity. Qed.

(** ** Reasoning about handler code *)

Lemma ends_ret {R A} (Pn : A -> Prop) (Pr : R -> Prop) a : Pn a -> ends Pn Pr (ret a).
Proof. intros H w. exact H. Qed.

Lemma ends_return {R A} (Pn : A -> Prop) (Pr : R -> Prop) r :
  Pr r -> ends Pn Pr (return_ (A := A) r).
Proof. intros H w. exact H. Qed.

Lemma ends_throw {R A} (Pn : A -> Prop) (Pr : R -> Prop) : ends Pn Pr (throw (R := R) (A := A)).
Proof. intros w. exact I. Qed.

Lemma ends_bind {R A B} (Pa : A -> Prop) (Pb : B -> Prop) (Pr : R -> Prop)
    (m : M R A) (k : A -> M R B) :
  ends Pa Pr m -> (forall a, Pa a -> ends Pb Pr (k a)) -> ends Pb Pr (bind m k).
Proof.
  intros Hm Hk w. unfold bind. specialize (Hm w).
  destruct (m w) as [[a | r |] w']; simpl in *; auto.
  apply Hk. exact Hm.
Qed.

Lemma ends_weaken {R A} (Pn Pn' : A -> Prop) (Pr : R -> Prop) (m : M R A) :
  (forall a, Pn a -> Pn' a) -> ends Pn Pr m -> ends Pn' Pr m.
Proof.
  intros Himp Hm w. specialize (Hm w). destruct (fst (m w)); auto.
Qed.

Lemma ends_lift_option {R A} (Pr : R -> Prop) (o : option A) :
  ends (fun a => o = Some a) Pr (lift_option o).
Proof. destruct o; intros w; simpl; auto. Qed.

Lemma ends_dbcall {R A} (Pr : R -> Prop) (q : Database -> option (A * Database)) :
  ends (fun _ => True) Pr (dbcall q).
Proof.
  intros w. unfold dbcall.
  destruct (faults w) as [| [] fs]; simpl; try exact I;
    destruct (q (db w)) as [[a d] |]; simpl; exact I.
Qed.

Lemma ends_store_get {R} (Pr : R -> Prop) k : ends (fun _ => True) Pr (store_get k).
Proof. intros w. exact I. Qed.

Lemma ends_store_set {R} (Pr : R -> Prop) k v : ends (fun _ => True) Pr (store_set k v).
Proof. intros w. exact I. Qed.

(** A called function never makes its caller return. *)
Lemma ends_call {R A} (Pr : R -> Prop) (body : M A A) :
  ends (fun _ => True) Pr (call body).
Proof.
  intros w. unfold call. destruct (body w) as [[a | r |] w']; exact I.
Qed.

Lemma ends_transfer {R} (Pr : R -> Prop) env l b s i a :
  ends (fun _ => True) Pr (transferCardOwnership env l b s i a).
Proof. apply ends_call. Qed.

(** The response of a handler whose body can only end with [P]. *)
Lemma handler_response (P : Response -> Prop) body on_error :
  ends P P body -> P on_error -> forall w, P (fst (handler body on_error w)).
Proof.
  intros Hb He w. unfold handler. specialize (Hb w).
  destruct (body w) as [[r | r |] w']; simpl in *; auto.
Qed.

Lemma itn_fallback_ends env data :
  ends (fun _ => True) (fun r => r = OK200) (itn_fallback env data).
Proof.
  unfold itn_fallback.
  eapply ends_bind; [apply ends_dbcall |]. intros [listing |] _; [| apply ends_ret; exact I].
  eapply ends_bind; [apply ends_dbcall |].
  intros [sellerStore |] _; [| apply ends_return; reflexivity].
  eapply ends_bind; [apply ends_dbcall |].
  intros [buyer |] _; [| apply ends_return; reflexivity].
  apply ends_transfer.
Qed.

Lemma itn_complete_ends env data :
  ends (fun _ => True) (fun r => r = OK200) (itn_complete env data).
Proof.
  unfold itn_complete.
  eapply ends_bind; [apply ends_store_get |]. intros storedPayment _.
  eapply ends_bind; [apply ends_store_set |]. intros _ _.
  destruct (_ && _); [apply ends_transfer | apply itn_fallback_ends].
Qed.

Lemma itn_body_ends env req :
  ends (fun r => r = OK200) (fun r => r = OK200) (itn_body env req).
Proof.
  unfold itn_body.
  eapply ends_bind; [apply ends_lift_option |]. intros data _.
  eapply ends_bind; [apply ends_lift_option |]. intros _matches _.
  eapply ends_bind with (Pa := fun _ => True).
  - destruct (bool_decide _); [apply itn_complete_ends |].
    destruct (bool_decide _); [apply ends_store_set | apply ends_ret; exact I].
  - intros _ _. apply ends_ret. reflexivity.
Qed.

(** ** Lookups that find nothing *)

Lemma find_all_false {A} (f : A -> bool) (l : list A) :
  (forall x, x ∈ l -> f x = false) -> find f l = None.
Proof.
  induction l as [| x l IH]; intros H; simpl; [reflexivity |].
  rewrite (H x) by apply list_elem_of_here.
  apply IH. intros y Hy. apply H. apply list_elem_of_further. exact Hy.
Qed.

Lemma select_listing_absent (listingId : jsval) (d : Database) :
  (forall l, l ∈ storeListings d -> sql_int listingId = Some (Some (l_id l)) -> False) ->
  select_listing_by_id listingId d = None \/ select_listing_by_id listingId d = Some (None, d).
Proof.
  intros H. unfold select_listing_by_id.
  destruct (sql_int listingId) as [[n |] |]; auto.
  right. rewrite find_all_false; [reflexivity |].
  intros l Hl. apply Z.eqb_neq. intros E. apply (H l Hl). rewrite E. reflexivity.
Qed.

(** ** The claims *)

(** C5. The ITN webhook answers every request with status 200 and body OK:
    whatever the payload (a missing body, a value whose [toString] throws, a
    wrong or missing signature, any [payment_status]), whatever is stored,
    whatever the lookups find, and whichever database queries throw. *)
Theorem itn_always_acknowledges (env : Env) (req : Request) (w : World) :
  fst (itn env req w) = OK200.
Proof.
  unfold itn.
  apply (handler_response (fun r => r = OK200)); [apply itn_body_ends | reflexivity].
Qed.

(** C7. A create-payment request whose body has no (or a falsy) [amount] or
    no (or a falsy) [itemName] is answered with status 400, and the world,
    in particular the payment status store, is left as it was. *)
Theorem create_payment_rejects_missing_fields
    (env : Env) (req : Request) (body : JsObject) (w : World) :
  req_body req = Some body ->
  truthy (obj_get body "amount") = false \/ truthy (obj_get body "itemName") = false ->
  create_payment env req w
  = ({| res_status := 400; res_body := BError "Amount and item name are required" |}, w).
Proof.
  intros Hbody Hmiss.
  unfold create_payment, handler, create_payment_body, bind, lift_option.
  rewrite Hbody. unfold ret at 1.
  assert (negb (truthy (obj_get body "amount")) || negb (truthy (obj_get body "itemName")) = true)
    as ->.
  { destruct Hmiss as [-> | ->]; simpl; [reflexivity | apply orb_true_r]. }
  reflexivity.
Qed.

(** C8. When no listing has the id that [listingId] is to the database,
    [transferCardOwnership] stops at the listing lookup: it returns normally
    and the database (owned cards, listings, orders, store counters) and the
    payment status store are unchanged; only the fault schedule has advanced
    by the one query. *)
Theorem transfer_aborts_without_listing
    (env : Env) (listingId buyerId sellerId itemName amount : jsval) (w : World) :
  (forall l, l ∈ storeListings (db w) -> sql_int listingId = Some (Some (l_id l)) -> False) ->
  transferCardOwnership (R := Response) env listingId buyerId sellerId itemName amount w
  = (Normal tt, with_faults (drop 1 (faults w)) w).
Proof.
  intros Habsent.
  unfold transferCardOwnership, call, try_catch, transfer_steps, bind, dbcall, with_faults.
  destruct (select_listing_absent listingId (db w) Habsent) as [-> | ->];
    destruct (faults w) as [| [] fs]; reflexivity.
Qed.

(** ** Frame properties: what leaves the payment status store alone *)

Lemma fixed_ret {R A} (a : A) : store_fixed (ret (R := R) a).
Proof. intros w. reflexivity. Qed.

Lemma fixed_throw {R A} : store_fixed (throw (R := R) (A := A)).
Proof. intros w. reflexivity. Qed.

Lemma fixed_return {R A} (r : R) : store_fixed (return_ (A := A) r).
Proof. intros w. reflexivity. Qed.

Lemma fixed_bind {R A B} (m : M R A) (k : A -> M R B) :
  store_fixed m -> (forall a, store_fixed (k a)) -> store_fixed (bind m k).
Proof.
  intros Hm Hk w. unfold bind. specialize (Hm w).
  destruct (m w) as [[a | r |] w']; simpl in *; try exact Hm.
  rewrite Hk. exact Hm.
Qed.

Lemma fixed_try_catch {R A} (body h : M R A) :
  store_fixed body -> store_fixed h -> store_fixed (try_catch body h).
Proof.
  intros Hb Hh w. unfold try_catch. specialize (Hb w).
  destruct (body w) as [[a | r |] w']; simpl in *; try exact Hb.
  rewrite Hh. exact Hb.
Qed.

Lemma fixed_call {R A} (body : M A A) : store_fixed body -> store_fixed (call (R := R) body).
Proof.
  intros Hb w. unfold call. specialize (Hb w).
  destruct (body w) as [[a | r |] w']; exact Hb.
Qed.

Lemma fixed_lift_option {R A} (o : option A) : store_fixed (lift_option (R := R) o).
Proof. destruct o; intros w; reflexivity. Qed.

Lemma fixed_dbcall {R A} (q : Database -> option (A * Database)) :
  store_fixed (dbcall (R := R) q).
Proof.
  intros w. unfold dbcall.
  destruct (faults w) as [| [] fs]; simpl; try reflexivity;
    destruct (q (db w)) as [[a d] |]; reflexivity.
Qed.

Lemma fixed_store_get {R} k : store_fixed (store_get (R := R) k).
Proof. intros w. reflexivity. Qed.

Lemma fixed_check_url {R} url : store_fixed (check_url (R := R) url).
Proof.
  unfold check_url. destruct (truthy url); [| apply fixed_ret].
  destruct url; try apply fixed_throw.
  destruct (_ && _); apply fixed_ret.
Qed.

Lemma fixed_skip {R} : store_fixed (skip (R := R)).
Proof. intros w. reflexivity. Qed.

Create HintDb frame.
#[local] Hint Resolve fixed_skip fixed_ret fixed_throw fixed_return fixed_dbcall fixed_store_get
  fixed_lift_option fixed_check_url : frame.

Ltac frame :=
  repeat first
    [ solve [ auto with frame ]
    | apply fixed_bind; [| intros ? ]
    | apply fixed_try_catch
    | apply fixed_call
    | match goal with
      | |- store_fixed (match ?x with _ => _ end) => destruct x
      | |- store_fixed (if ?b then _ else _) => destruct b
      end ].

Lemma fixed_find_sellerCard {R} env uid listing itemName :
  store_fixed (find_sellerCard (R := R) env uid listing itemName).
Proof. unfold find_sellerCard. frame. Qed.

Lemma fixed_transfer_steps env l b s i a : store_fixed (transfer_steps env l b s i a).
Proof.
  unfold transfer_steps. cbv zeta.
  pose proof (@fixed_find_sellerCard unit). frame.
Qed.

Lemma fixed_transfer {R} env l b s i a :
  store_fixed (transferCardOwnership (R := R) env l b s i a).
Proof.
  unfold transferCardOwnership. apply fixed_call, fixed_try_catch;
    [apply fixed_transfer_steps | apply fixed_skip].
Qed.

#[local] Hint Resolve fixed_transfer : frame.

Lemma fixed_return_transfer {R} env existing :
  store_fixed (return_transfer (R := R) env existing).
Proof. unfold return_transfer. frame. Qed.

Lemma fixed_itn_fallback env data : store_fixed (itn_fallback env data).
Proof. unfold itn_fallback. frame. Qed.

#[local] Hint Resolve fixed_return_transfer fixed_itn_fallback : frame.

Lemma fixed_manual_transfer_body env req : store_fixed (manual_transfer_body env req).
Proof. unfold manual_transfer_body. cbv zeta. frame. Qed.

Lemma fixed_status_body req : store_fixed (status_body req).
Proof. unfold status_body. cbv zeta. frame. Qed.

Lemma handler_world body on_error w : snd (handler body on_error w) = snd (body w).
Proof. unfold handler. destruct (body w) as [[r | r |] w']; reflexivity. Qed.

(** *** Effects on the store *)

Lemma one_write_refl P s : one_write P s s.
Proof. left. reflexivity. Qed.

Lemma effect_fixed {R A} P (m : M R A) : store_fixed m -> store_effect (one_write P) m.
Proof. intros H w. rewrite H. apply one_write_refl. Qed.

Lemma effect_bind_l {R A B} P (m : M R A) (k : A -> M R B) :
  store_fixed m -> (forall a, store_effect (one_write P) (k a)) ->
  store_effect (one_write P) (bind m k).
Proof.
  intros Hm Hk w. unfold bind. specialize (Hm w).
  destruct (m w) as [[a | r |] w']; simpl in *;
    try (rewrite Hm; apply one_write_refl).
  rewrite <- Hm. apply Hk.
Qed.

Lemma effect_bind_r {R A B} P (m : M R A) (k : A -> M R B) :
  store_effect (one_write P) m -> (forall a, store_fixed (k a)) ->
  store_effect (one_write P) (bind m k).
Proof.
  intros Hm Hk w. unfold bind. specialize (Hm w).
  destruct (m w) as [[a | r |] w']; simpl in *; try exact Hm.
  rewrite Hk. exact Hm.
Qed.

Lemma effect_store_set {R} (P : option PaymentRecord -> PaymentRecord -> Prop) k v :
  (forall s : PaymentStore, P (s !! k) v) -> store_effect (one_write P) (store_set (R := R) k v).
Proof. intros H w. right. exists k, v. split; [apply H | reflexivity]. Qed.

Lemma bind_ret_l {R A B} (a : A) (k : A -> M R B) : bind (ret a) k = k a.
Proof. reflexivity. Qed.

Lemma create_payment_effect env req (P : option PaymentRecord -> PaymentRecord -> Prop) :
  (forall old new, status new = pending -> P old new) ->
  store_effect (one_write P) (create_payment_body env req).
Proof.
  intros HP. unfold create_payment_body. cbv zeta.
  apply effect_bind_l; [apply fixed_lift_option |]. intros body.
  destruct (negb _ || negb _); [apply effect_fixed, fixed_return |].
  apply effect_bind_l; [apply fixed_check_url |]. intros baseReturnUrl.
  apply effect_bind_l; [apply fixed_check_url |]. intros baseCancelUrl.
  apply effect_bind_r; [| intros; apply fixed_ret].
  apply effect_store_set. intros s. apply HP. reflexivity.
Qed.

Lemma return_effect env req (P : option PaymentRecord -> PaymentRecord -> Prop) :
  (forall old new,
      status new = complete ->
      (old = None \/ exists r, old = Some r /\ status r = pending) ->
      ids_kept old new -> P old new) ->
  store_effect (one_write P) (return_body env req).
Proof.
  intros HP. unfold return_body. cbv zeta.
  apply effect_bind_r;
    [| intros; repeat (match goal with |- store_fixed (if ?b then _ else _) => destruct b end);
       apply fixed_ret].
  destruct (_ && _); [| apply effect_fixed, fixed_skip].
  intros w. unfold bind at 1, store_get.
  destruct (paymentStatusStore w !! obj_get (req_query req) "m_payment_id")
    as [existing |] eqn:Hget.
  - destruct (bool_decide (status existing = pending)) eqn:Hpending;
      [| apply one_write_refl].
    apply bool_decide_eq_true in Hpending.
    unfold bind, store_set. rewrite fixed_return_transfer. right.
    eexists _, _. split; [| reflexivity]. simpl.
    apply HP; [reflexivity | | rewrite Hget; repeat split].
    right. exists existing. split; [exact Hget | exact Hpending].
  - right. eexists _, _. split; [| reflexivity]. simpl.
    apply HP; [reflexivity | left; exact Hget | rewrite Hget; repeat split].
Qed.

Lemma itn_complete_effect env data (P : option PaymentRecord -> PaymentRecord -> Prop) :
  (forall old new, status new = complete -> ids_kept old new -> P old new) ->
  store_effect (one_write P) (itn_complete env data).
Proof.
  intros HP w. unfold itn_complete. cbv zeta. unfold bind at 1, store_get.
  unfold bind, store_set.
  match goal with
  | |- context [if ?b then _ else _] => destruct b
  end; [rewrite fixed_transfer | rewrite fixed_itn_fallback];
    right; eexists _, _; (split; [| reflexivity]); simpl;
    apply HP; try reflexivity; repeat split.
Qed.

Lemma itn_effect env req (P : option PaymentRecord -> PaymentRecord -> Prop) :
  (forall data old new,
      req_body req = Some data ->
      (obj_get data "payment_status" = JStr "COMPLETE" /\ status new = complete /\ ids_kept old new)
      \/ (obj_get data "payment_status" = JStr "FAILED" /\ status new = failed) ->
      P old new) ->
  store_effect (one_write P) (itn_body env req).
Proof.
  intros HP. unfold itn_body.
  destruct (req_body req) as [data |] eqn:Hbody;
    [| apply effect_fixed; intros w; reflexivity].
  unfold lift_option at 1. rewrite bind_ret_l. cbv zeta.
  apply effect_bind_l; [apply fixed_lift_option |]. intros _.
  apply effect_bind_r; [| intros; apply fixed_ret].
  destruct (bool_decide (obj_get data "payment_status" = JStr "COMPLETE")) eqn:Hc.
  - apply bool_decide_eq_true in Hc. apply itn_complete_effect.
    intros old new Hst Hids. apply (HP data); [reflexivity | left; auto].
  - destruct (bool_decide (obj_get data "payment_status" = JStr "FAILED")) eqn:Hf;
      [| apply effect_fixed, fixed_skip].
    apply bool_decide_eq_true in Hf. unfold itn_failed. cbv zeta.
    apply effect_store_set. intros s. apply (HP data); [reflexivity | right; auto].
Qed.

(** Every request writes at most one record, and only what [call_writes]
    allows. *)
Lemma serve_one_write (w : World) (c : Call) :
  one_write (call_writes c) (paymentStatusStore w) (paymentStatusStore (serve w c)).
Proof.
  destruct c as [r req env fs]. unfold serve, route, call_writes. simpl.
  change (paymentStatusStore w) with (paymentStatusStore (with_faults fs w)).
  destruct r.
  - unfold create_payment. rewrite handler_world.
    apply (create_payment_effect env req). auto.
  - unfold payment_return. rewrite handler_world.
    apply (return_effect env req). auto.
  - unfold manual_transfer. rewrite handler_world, fixed_manual_transfer_body.
    apply one_write_refl.
  - unfold payment_status. rewrite handler_world, fixed_status_body.
    apply one_write_refl.
  - unfold itn. rewrite handler_world.
    apply (itn_effect env req). intros data old new Hb H. exists data. auto.
Qed.

(** ** Claims about the store and the transfer *)

(** C1 (the code departs from it). One payment, [pay-1], with its three ids
    stored. After the first COMPLETE notification there is one order, one
    sale and one card for the buyer. A second COMPLETE notification for the
    same payment runs the transfer again: two orders, two sales, two cards.
    So does a COMPLETE notification that follows a successful return. *)
Theorem notification_repeats_the_transfer :
  (order_numbers_of world_paid = ["ORD-1700000060000-a1b2c3d4e"]
   /\ sales_of world_paid = [Some 1]
   /\ owners_of world_paid = ["buyer-1"])
  /\ (order_numbers_of world_paid_again
      = ["ORD-1700000060000-a1b2c3d4e"; "ORD-1700000120000-z9y8x7w6v"]
      /\ sales_of world_paid_again = [Some 2]
      /\ owners_of world_paid_again = ["buyer-1"; "buyer-1"])
  /\ (order_numbers_of world_returned = ["ORD-1700000030000-m4n5b6v7c"]
      /\ order_numbers_of world_returned_then_paid
         = ["ORD-1700000030000-m4n5b6v7c"; "ORD-1700000060000-a1b2c3d4e"]
      /\ sales_of world_returned_then_paid = [Some 2]
      /\ owners_of world_returned_then_paid = ["buyer-1"; "buyer-1"]).
Proof. vm_compute. repeat split; reflexivity. Qed.

(** The status of a key after a request, from [serve_one_write]. *)
Lemma status_after (w : World) (c : Call) (k : jsval) :
  status_of (serve w c) k = status_of w k
  \/ exists new, call_writes c (paymentStatusStore w !! k) new
                 /\ status_of (serve w c) k = Some (status new).
Proof.
  unfold status_of.
  destruct (serve_one_write w c) as [-> | (k0 & new & Hnew & ->)]; [left; reflexivity |].
  destruct (decide (k0 = k)) as [-> | Hne].
  - right. exists new. rewrite lookup_insert_eq. auto.
  - left. rewrite lookup_insert_ne by exact Hne. reflexivity.
Qed.

(** What one request does to the status stored under a key. It leaves it as
    it was, or: create-payment stores pending; the return path stores
    complete, and only where nothing or a pending record was stored; the ITN
    stores complete for COMPLETE and failed for FAILED; manual transfer and
    the status query store nothing. Only the return path looks at the status
    that is stored. *)
Lemma status_transitions (w : World) (c : Call) (k : jsval) :
  status_of (serve w c) k = status_of w k
  \/ match call_route c with
     | CreatePayment => status_of (serve w c) k = Some pending
     | PaymentReturn =>
         (status_of w k = None \/ status_of w k = Some pending)
         /\ status_of (serve w c) k = Some complete
     | Itn =>
         exists data, req_body (call_req c) = Some data
         /\ ((obj_get data "payment_status" = JStr "COMPLETE"
              /\ status_of (serve w c) k = Some complete)
             \/ (obj_get data "payment_status" = JStr "FAILED"
                 /\ status_of (serve w c) k = Some failed))
     | ManualTransfer | PaymentStatus => False
     end.
Proof.
  destruct (status_after w c k) as [Hsame | (new & Hw & Hafter)]; [left; exact Hsame |].
  right. unfold call_writes in Hw. rewrite Hafter. destruct (call_route c).
  - rewrite Hw. reflexivity.
  - destruct Hw as (-> & Hold & _). split; [| reflexivity].
    unfold status_of. destruct Hold as [-> | (r & -> & Hr)]; [left | right]; simpl; congruence.
  - contradiction.
  - contradiction.
  - destruct Hw as (data & Hbody & [(Hc & -> & _) | (Hf & ->)]); exists data; auto.
Qed.

(** C2 (the code departs from it). A terminal status is not final. The
    payment [pay-1] is complete after its COMPLETE notification; a FAILED
    notification then makes it failed. It is failed after a FAILED
    notification; a COMPLETE notification then makes it complete. And a
    second create-payment for [pay-1] takes it from complete back to
    pending, after which a successful return runs the transfer again and a
    second order is added. Neither the notification handler nor
    create-payment reads the stored status; the return path does, and
    writes only over a pending record. *)
Theorem terminal_status_is_overwritten :
  (status_of world_paid (JStr "pay-1") = Some complete
   /\ status_of world_paid_then_failed (JStr "pay-1") = Some failed)
  /\ (status_of world_failed (JStr "pay-1") = Some failed
      /\ status_of world_failed_then_paid (JStr "pay-1") = Some complete)
  /\ (status_of world_paid_then_created (JStr "pay-1") = Some pending
      /\ order_numbers_of world_paid = ["ORD-1700000060000-a1b2c3d4e"]
      /\ order_numbers_of world_paid_created_returned
         = ["ORD-1700000060000-a1b2c3d4e"; "ORD-1700000120000-z9y8x7w6v"]).
Proof. vm_compute. repeat split; reflexivity. Qed.

(** The return path and a COMPLETE notification carry the three ids of the
    stored record over to the record they write. *)
Lemma return_and_complete_keep_ids (w : World) (c : Call) (k : jsval) (r r' : PaymentRecord) :
  call_route c = PaymentReturn
  \/ (call_route c = Itn /\ exists data, req_body (call_req c) = Some data
                            /\ obj_get data "payment_status" = JStr "COMPLETE") ->
  paymentStatusStore w !! k = Some r ->
  paymentStatusStore (serve w c) !! k = Some r' ->
  listingId r' = listingId r /\ buyerId r' = buyerId r /\ sellerId r' = sellerId r.
Proof.
  intros Hroute Hr Hr'.
  destruct (serve_one_write w c) as [Heq | (k0 & new & Hnew & Heq)]; rewrite Heq in Hr'.
  { rewrite Hr in Hr'. inversion Hr'. auto. }
  destruct (decide (k0 = k)) as [-> | Hne];
    [| rewrite lookup_insert_ne in Hr' by exact Hne; rewrite Hr in Hr'; inversion Hr'; auto].
  rewrite lookup_insert_eq in Hr'. inversion Hr'; subst new. clear Hr'.
  rewrite Hr in Hnew. unfold call_writes in Hnew.
  destruct Hroute as [Hroute | (Hroute & data & Hbody & Hc)]; rewrite Hroute in Hnew.
  - destruct Hnew as (_ & _ & Hids). exact Hids.
  - destruct Hnew as (data' & Hbody' & [(_ & _ & Hids) | (Hf & _)]); [exact Hids |].
    rewrite Hbody in Hbody'. inversion Hbody'; subst data'. rewrite Hc in Hf. discriminate.
Qed.

(** C3 (the code departs from it). The record of [pay-1] holds its listing,
    buyer and seller ids; a FAILED notification, which supplies none of
    them, replaces the record by one in which all three are undefined. *)
Theorem failed_notification_erases_ids :
  ids_of world_created (JStr "pay-1") = Some (JNum 7, JStr "buyer-1", JStr "seller-1")
  /\ ids_of world_failed (JStr "pay-1") = Some (JUndefined, JUndefined, JUndefined).
Proof. vm_compute. split; reflexivity. Qed.

Lemma return_cancel_changes_nothing (env : Env) (req : Request) (w : World) :
  obj_get (req_query req) "status" = JStr "cancel" ->
  payment_return env req w = ({| res_status := 200; res_body := BCancelPage |}, w).
Proof.
  intros Hcancel. unfold payment_return, handler, return_body. cbv zeta. rewrite Hcancel.
  reflexivity.
Qed.

(** A record with status cancelled is never the one a request wrote. *)
Lemma cancelled_not_written (w : World) (c : Call) (k : jsval) (r : PaymentRecord) :
  paymentStatusStore (serve w c) !! k = Some r -> status r = cancelled ->
  paymentStatusStore w !! k = Some r.
Proof.
  intros Hr Hcancelled.
  destruct (serve_one_write w c) as [Heq | (k0 & new & Hnew & Heq)]; rewrite Heq in Hr;
    [exact Hr |].
  destruct (decide (k0 = k)) as [-> | Hne];
    [| rewrite lookup_insert_ne in Hr by exact Hne; exact Hr].
  rewrite lookup_insert_eq in Hr. inversion Hr; subst new. exfalso.
  unfold call_writes in Hnew. destruct (call_route c).
  - congruence.
  - destruct Hnew as (Hst & _). congruence.
  - exact Hnew.
  - exact Hnew.
  - destruct Hnew as (data & _ & [(_ & Hst & _) | (_ & Hst)]); congruence.
Qed.

(** C10. No request writes the status cancelled: a record with that status
    that is in the store after a request was there, the same, before it. And
    a return with [status=cancel] answers with the cancel page and leaves the
    whole world, so the store and any pending record in it, as it was. *)
Theorem cancelled_is_never_written (w : World) (c : Call) :
  (forall k r,
      paymentStatusStore (serve w c) !! k = Some r -> status r = cancelled ->
      paymentStatusStore w !! k = Some r)
  /\ (call_route c = PaymentReturn ->
      obj_get (req_query (call_req c)) "status" = JStr "cancel" ->
      route (call_env c) (call_route c) (call_req c) (with_faults (call_faults c) w)
      = ({| res_status := 200; res_body := BCancelPage |}, with_faults (call_faults c) w)).
Proof.
  split.
  - intros k r. apply cancelled_not_written.
  - intros Hroute Hcancel. rewrite Hroute. simpl.
    apply return_cancel_changes_nothing. exact Hcancel.
Qed.

(** No store reached from the empty one holds a cancelled record. *)
Corollary cancelled_unreachable (d : Database) (cs : list Call) (k : jsval) :
  status_of (serve_all (initial_world d) cs) k <> Some cancelled.
Proof.
  unfold serve_all.
  assert (forall w, (forall k, status_of w k <> Some cancelled) ->
                    forall k, status_of (foldl serve w cs) k <> Some cancelled) as Hall.
  { induction cs as [| c cs IH]; intros w Hw; simpl; [exact Hw |].
    apply IH. intros k' Hk'. unfold status_of in Hk'.
    destruct (paymentStatusStore (serve w c) !! k') as [r |] eqn:Hr; [| discriminate].
    simpl in Hk'. inversion Hk' as [Hst].
    apply cancelled_not_written in Hr; [| exact Hst].
    apply (Hw k'). unfold status_of. rewrite Hr. simpl. congruence. }
  apply Hall. intros k'. unfold status_of, initial_world. simpl.
  rewrite lookup_empty. discriminate.
Qed.

(** ** The theorems above at the scenario *)

(** A create-payment request without [amount] against the scenario's
    database. *)
Lemma create_payment_rejects_missing_fields_witness :
  create_payment (example_config_env 1700000000000 "k3j9x2m1q")
    (example_request (Some [("itemName", JStr "Flareon Ex"); ("mPaymentId", JStr "pay-2")]) [])
    (initial_world example_db)
  = ({| res_status := 400; res_body := BError "Amount and item name are required" |},
     initial_world example_db).
Proof.
  exact (create_payment_rejects_missing_fields
           (example_config_env 1700000000000 "k3j9x2m1q")
           (example_request
              (Some [("itemName", JStr "Flareon Ex"); ("mPaymentId", JStr "pay-2")]) [])
           [("itemName", JStr "Flareon Ex"); ("mPaymentId", JStr "pay-2")]
           (initial_world example_db) eq_refl (or_introl eq_refl)).
Defined.

(** A transfer for listing 99, which the scenario's database does not
    have. *)
Lemma transfer_aborts_without_listing_witness :
  transferCardOwnership (R := Response) (example_config_env 1700000060000 "a1b2c3d4e")
    (JNum 99) (JStr "buyer-1") (JStr "seller-1") (JStr "Flareon Ex") (JStr "165.00")
    (initial_world example_db)
  = (Normal tt, initial_world example_db).
Proof.
  refine (transfer_aborts_without_listing
            (example_config_env 1700000060000 "a1b2c3d4e")
            (JNum 99) (JStr "buyer-1") (JStr "seller-1") (JStr "Flareon Ex") (JStr "165.00")
            (initial_world example_db) _).
  intros l Hl Heq. simpl in Hl. apply list_elem_of_singleton in Hl. subst l.
  discriminate Heq.
Defined.

(** The buyer of the scenario cancels at the gateway: the record of [pay-1]
    stays pending. *)
Lemma cancelled_is_never_written_witness :
  route (example_config_env 1700000030000 "m4n5b6v7c") PaymentReturn
    (example_request None [("status", JStr "cancel"); ("m_payment_id", JStr "pay-1")])
    (with_faults [] world_created)
  = ({| res_status := 200; res_body := BCancelPage |}, with_faults [] world_created)
  /\ status_of world_created (JStr "pay-1") = Some pending.
Proof.
  split.
  - exact (proj2 (cancelled_is_never_written world_created
                    (example_return "cancel" 1700000030000 "m4n5b6v7c")) eq_refl eq_refl).
  - vm_compute. reflexivity.
Defined.

(** ** The signature codec *)

(** *** Objects without repeated keys *)

Lemma obj_get_elem (o : JsObject) (k : string) (v : jsval) :
  NoDup (obj_keys o) -> (k, v) ∈ o -> obj_get o k = v.
Proof.
  induction o as [| [k' v'] o IH]; intros Hnd Hin.
  - inversion Hin.
  - simpl in *. apply NoDup_cons in Hnd as [Hk' Hnd].
    apply elem_of_cons in Hin as [Heq | Hin].
    + inversion Heq; subst. rewrite String.eqb_refl. reflexivity.
    + destruct (String.eqb_spec k' k) as [-> | _]; [| auto].
      exfalso. apply Hk'. apply list_elem_of_fmap. exists (k, v). auto.
Qed.

Lemma obj_get_absent (o : JsObject) (k : string) :
  k ∉ obj_keys o -> obj_get o k = JUndefined.
Proof.
  induction o as [| [k' v'] o IH]; intros Hk; simpl in *; [reflexivity |].
  apply not_elem_of_cons in Hk as [Hne Hk].
  destruct (String.eqb_spec k' k) as [-> | _]; [contradiction | auto].
Qed.

Lemma obj_set_fresh (o : JsObject) (k : string) (v : jsval) :
  k ∉ obj_keys o -> obj_set o k v = (o ++ [(k, v)])%list.
Proof.
  induction o as [| [k' v'] o IH]; intros Hk; simpl in *; [reflexivity |].
  apply not_elem_of_cons in Hk as [Hne Hk].
  destruct (String.eqb_spec k' k) as [-> | _]; [contradiction |].
  rewrite IH by exact Hk. reflexivity.
Qed.

Lemma obj_set_same (o : JsObject) (k : string) :
  k ∈ obj_keys o -> obj_set o k (obj_get o k) = o.
Proof.
  induction o as [| [k' v'] o IH]; intros Hk; simpl in *; [inversion Hk |].
  destruct (String.eqb_spec k' k) as [-> | Hne]; [reflexivity |].
  apply elem_of_cons in Hk as [-> | Hk]; [contradiction |].
  rewrite IH by exact Hk. reflexivity.
Qed.

Lemma obj_get_perm (o o' : JsObject) (k : string) :
  NoDup (obj_keys o) -> o ≡ₚ o' -> obj_get o k = obj_get o' k.
Proof.
  intros Hnd Hperm.
  assert (NoDup (obj_keys o')) as Hnd'.
  { unfold obj_keys. rewrite <- Hperm. exact Hnd. }
  destruct (decide (k ∈ obj_keys o)) as [Hin | Hout].
  - apply list_elem_of_fmap in Hin as ([k' v] & -> & Hin). simpl.
    rewrite (obj_get_elem o k' v Hnd Hin). symmetry. apply obj_get_elem; [exact Hnd' |].
    rewrite <- Hperm. exact Hin.
  - rewrite (obj_get_absent o k Hout). symmetry. apply obj_get_absent.
    unfold obj_keys. rewrite <- Hperm. exact Hout.
Qed.

(** *** The filter *)

Lemma sig_keep_true (k : string) (v : jsval) :
  sig_keep k v = true
  <-> v <> JStr "" /\ v <> JNull /\ v <> JUndefined /\ k <> "signature".
Proof.
  unfold sig_keep.
  rewrite !andb_true_iff, !negb_true_iff, orb_false_iff, !bool_decide_eq_false.
  rewrite String.eqb_neq. tauto.
Qed.

Lemma sig_filter_loop (params : JsObject) (q acc : JsObject) :
  (forall kv, kv ∈ q -> obj_get params (fst kv) = snd kv) ->
  NoDup (obj_keys acc ++ obj_keys q)%list ->
  foldl (sig_filter_step params) acc (obj_keys q)
  = (acc ++ (sig_entry <$> filter sig_kept q))%list.
Proof.
  revert acc. induction q as [| [k v] q IH]; intros acc Hget Hnd; simpl.
  - rewrite app_nil_r. reflexivity.
  - assert (obj_get params k = v) as Hk by (apply (Hget (k, v)), list_elem_of_here).
    assert (forall kv, kv ∈ q -> obj_get params (fst kv) = snd kv) as Hget'.
    { intros kv Hkv. apply Hget. apply list_elem_of_further. exact Hkv. }
    simpl in Hnd. apply NoDup_app in Hnd as (Hacc & Hdisj & Hq).
    apply NoDup_cons in Hq as [Hkq Hq].
    assert (k ∉ obj_keys acc) as Hkacc.
    { intros Hin. apply (Hdisj k Hin). apply list_elem_of_here. }
    unfold sig_filter_step at 2. rewrite Hk.
    destruct (sig_keep k v) eqn:Hkeep.
    + rewrite (filter_cons_True sig_kept) by exact Hkeep.
      rewrite obj_set_fresh by exact Hkacc.
      rewrite IH; [| exact Hget' |].
      * rewrite <- app_assoc. reflexivity.
      * unfold obj_keys. rewrite fmap_app. simpl. rewrite <- app_assoc. simpl.
        apply NoDup_app. split; [exact Hacc |]. split.
        -- intros x Hx Hx'. apply elem_of_cons in Hx' as [-> | Hx']; [contradiction |].
           apply (Hdisj x Hx). apply list_elem_of_further. exact Hx'.
        -- apply NoDup_cons. split; assumption.
    + rewrite (filter_cons_False sig_kept) by (unfold sig_kept; simpl; congruence).
      apply IH; [exact Hget' |].
      apply NoDup_app. split; [exact Hacc |]. split; [| exact Hq].
      intros x Hx Hx'. apply (Hdisj x Hx). apply list_elem_of_further. exact Hx'.
Qed.

(** [filtered] holds the kept properties, their values converted and
    trimmed, in the order of the input. *)
Lemma sig_filtered_spec (params : JsObject) :
  NoDup (obj_keys params) ->
  sig_filtered params = sig_entry <$> filter sig_kept params.
Proof.
  intros Hnd. unfold sig_filtered.
  rewrite sig_filter_loop; [reflexivity | | exact Hnd].
  intros [k v] Hkv. simpl. apply obj_get_elem; assumption.
Qed.

Lemma sig_filtered_keys (params : JsObject) :
  NoDup (obj_keys params) ->
  obj_keys (sig_filtered params) = obj_keys (filter sig_kept params).
Proof.
  intros Hnd. rewrite sig_filtered_spec by exact Hnd.
  unfold obj_keys. rewrite <- list_fmap_compose. reflexivity.
Qed.

Lemma sig_filtered_NoDup (params : JsObject) :
  NoDup (obj_keys params) -> NoDup (obj_keys (sig_filtered params)).
Proof.
  intros Hnd. rewrite sig_filtered_keys by exact Hnd.
  unfold obj_keys. eapply sublist_NoDup;
    first [exact Hnd | apply fmap_sublist, sublist_filter].
Qed.

(** *** Strings *)

Lemma append_nil_r (s : string) : s +:+ "" = s.
Proof.
  induction s as [| c s IH]; [reflexivity |].
  change (String c (s +:+ "") = String c s). rewrite IH. reflexivity.
Qed.

Lemma append_assoc (s1 s2 s3 : string) : (s1 +:+ s2) +:+ s3 = s1 +:+ (s2 +:+ s3).
Proof.
  induction s1 as [| c s1 IH]; [reflexivity |].
  change (String c ((s1 +:+ s2) +:+ s3) = String c (s1 +:+ (s2 +:+ s3))).
  rewrite IH. reflexivity.
Qed.

Lemma length_append (s1 s2 : string) :
  String.length (s1 +:+ s2) = (String.length s1 + String.length s2)%nat.
Proof.
  induction s1 as [| c s1 IH]; [reflexivity |].
  change (S (String.length (s1 +:+ s2)) = S (String.length s1 + String.length s2)).
  rewrite IH. reflexivity.
Qed.

(** Cancellation on the right. *)
Lemma append_inv_tail (s1 s2 t : string) : s1 +:+ t = s2 +:+ t -> s1 = s2.
Proof.
  revert s2. induction s1 as [| c s1 IH]; intros [| d s2] H.
  - reflexivity.
  - exfalso. apply (f_equal String.length) in H.
    rewrite !length_append in H. simpl in H. lia.
  - exfalso. apply (f_equal String.length) in H.
    rewrite !length_append in H. simpl in H. lia.
  - change (String c (s1 +:+ t) = String d (s2 +:+ t)) in H.
    inversion H; subst. f_equal. apply IH. assumption.
Qed.

Lemma append_inv_head (s t1 t2 : string) : s +:+ t1 = s +:+ t2 -> t1 = t2.
Proof. apply (inj (String.append s)). Qed.

Lemma concat_split (sep : string) (l1 : list string) (x : string) (l2 : list string) :
  String.concat sep (l1 ++ x :: l2)%list
  = concat_before sep l1 +:+ x +:+ concat_after sep l2.
Proof.
  induction l1 as [| a l1 IH].
  - destruct l2; simpl; [rewrite append_nil_r |]; reflexivity.
  - change (String.concat sep (a :: (l1 ++ x :: l2)%list)
            = (a +:+ sep +:+ concat_before sep l1) +:+ x +:+ concat_after sep l2).
    rewrite !append_assoc, <- IH.
    destruct l1; reflexivity.
Qed.

(** *** Sorting and the pairs *)

Lemma sortedKeys_perm (f f' : JsObject) : f ≡ₚ f' -> sig_sortedKeys f = sig_sortedKeys f'.
Proof.
  intros Hperm. unfold sig_sortedKeys.
  apply (Sorted_unique String.le); try apply Sorted_merge_sort; try apply _.
  rewrite !merge_sort_Permutation. unfold obj_keys. rewrite Hperm. reflexivity.
Qed.

Lemma sortedKeys_elem (f : JsObject) (k : string) :
  k ∈ sig_sortedKeys f <-> k ∈ obj_keys f.
Proof. unfold sig_sortedKeys. rewrite merge_sort_Permutation. reflexivity. Qed.

Lemma pairs_of_perm (f f' : JsObject) :
  NoDup (obj_keys f) -> f ≡ₚ f' -> pairs_of f = pairs_of f'.
Proof.
  intros Hnd Hperm. unfold pairs_of. rewrite (sortedKeys_perm f f' Hperm).
  apply map_ext. intros k. unfold sig_pair. rewrite (obj_get_perm f f' k Hnd Hperm).
  reflexivity.
Qed.

Lemma sig_filtered_perm (params params' : JsObject) :
  NoDup (obj_keys params) -> params ≡ₚ params' ->
  sig_filtered params ≡ₚ sig_filtered params'.
Proof.
  intros Hnd Hperm.
  assert (NoDup (obj_keys params')) as Hnd'.
  { unfold obj_keys. rewrite <- Hperm. exact Hnd. }
  rewrite !sig_filtered_spec by assumption. rewrite Hperm. reflexivity.
Qed.

(** The pair a kept property puts into the query string. *)
Lemma sig_pair_of_kept (params : JsObject) (k : string) (v : jsval) :
  NoDup (obj_keys params) -> (k, v) ∈ params -> sig_keep k v = true ->
  (k +:+ "=" +:+ pf_encode (trim (String_ v))) ∈ sig_pairs params.
Proof.
  intros Hnd Hin Hkeep.
  assert (sig_entry (k, v) ∈ sig_filtered params) as Hentry.
  { rewrite sig_filtered_spec by exact Hnd. apply list_elem_of_fmap_2.
    apply list_elem_of_filter. split; [exact Hkeep | exact Hin]. }
  unfold sig_pairs. cbv zeta. apply list_elem_of_fmap. exists k. split.
  - unfold sig_pair.
    rewrite (obj_get_elem _ k (JStr (trim (String_ v))) (sig_filtered_NoDup _ Hnd) Hentry).
    reflexivity.
  - apply sortedKeys_elem. apply list_elem_of_fmap. exists (sig_entry (k, v)). auto.
Qed.

Lemma sig_filtered_key_iff (params : JsObject) (k : string) (v : jsval) :
  NoDup (obj_keys params) -> (k, v) ∈ params ->
  k ∈ obj_keys (sig_filtered params) <-> sig_keep k v = true.
Proof.
  intros Hnd Hin. rewrite sig_filtered_keys by exact Hnd. split.
  - intros Hk. apply list_elem_of_fmap in Hk as ([k' v'] & -> & Hk).
    apply list_elem_of_filter in Hk as [Hkept Hin']. simpl in *.
    rewrite <- (obj_get_elem params k' v Hnd Hin).
    rewrite (obj_get_elem params k' v' Hnd Hin'). exact Hkept.
  - intros Hkeep. apply list_elem_of_fmap. exists (k, v). split; [reflexivity |].
    apply list_elem_of_filter. split; [exact Hkeep | exact Hin].
Qed.

(** C6. The digest does not depend on the order of the properties of the
    input object: two objects with the same properties, in any order, get
    the same signature, for every passphrase. *)
Theorem signature_order_independent
    (params params' : JsObject) (passphrase : option string) :
  NoDup (obj_keys params) -> params ≡ₚ params' ->
  generatePayFastSignature params passphrase = generatePayFastSignature params' passphrase.
Proof.
  intros Hnd Hperm.
  unfold generatePayFastSignature, sig_signatureString, sig_paramString.
  change (sig_pairs params) with (pairs_of (sig_filtered params)).
  change (sig_pairs params') with (pairs_of (sig_filtered params')).
  rewrite (pairs_of_perm (sig_filtered params) (sig_filtered params'));
    [reflexivity | apply sig_filtered_NoDup; exact Hnd | apply sig_filtered_perm; assumption].
Qed.

(** C9. For a property [k: v] of the input object: it is kept by the filter
    exactly when [v] is not the empty string, not null, not undefined, and
    [k] is not [signature]. In particular the values "0" and "false" are
    kept, and the pair [k=0] (or [k=false]) is one of the pairs joined into
    the string that is hashed. *)
Theorem zero_is_not_empty (params : JsObject) (k : string) (v : jsval) :
  NoDup (obj_keys params) -> (k, v) ∈ params ->
  (k ∈ obj_keys (sig_filtered params)
   <-> v <> JStr "" /\ v <> JNull /\ v <> JUndefined /\ k <> "signature")
  /\ (k <> "signature" ->
      (v = JStr "0" -> (k +:+ "=0") ∈ sig_pairs params)
      /\ (v = JStr "false" -> (k +:+ "=false") ∈ sig_pairs params))
  /\ (k <> "signature" -> v = JStr "0" \/ v = JStr "false" ->
      forall passphrase, exists before after,
        sig_signatureString params passphrase
        = before +:+ (k +:+ "=" +:+ String_ v) +:+ after).
Proof.
  intros Hnd Hin. split; [| split].
  - rewrite (sig_filtered_key_iff params k v Hnd Hin). apply sig_keep_true.
  - intros Hk. split; intros ->;
      apply (sig_pair_of_kept params k _ Hnd Hin);
      apply sig_keep_true; repeat split; congruence.
  - intros Hk Hv passphrase.
    assert ((k +:+ "=" +:+ String_ v) ∈ sig_pairs params) as Hpair.
    { destruct Hv as [-> | ->];
        apply (sig_pair_of_kept params k _ Hnd Hin);
        apply sig_keep_true; repeat split; congruence. }
    apply list_elem_of_split in Hpair as (l1 & l2 & Hsplit).
    unfold sig_signatureString, sig_paramString. rewrite Hsplit, concat_split.
    exists (concat_before "&" l1).
    destruct passphrase as [p |]; [destruct (_ && _) |]; eexists;
      rewrite ?append_assoc; reflexivity.
Qed.

(** *** The encoding of values is injective *)

Ltac each_char c :=
  destruct c as [[] [] [] [] [] [] [] []].

Lemma replace_encode_char (c : ascii) (t : string) :
  replace_pct20 (encode_char c +:+ t) = pf_char c +:+ replace_pct20 t.
Proof. each_char c; reflexivity. Qed.

Lemma pf_encode_cons (c : ascii) (s : string) :
  pf_encode (String c s) = pf_char c +:+ pf_encode s.
Proof. unfold pf_encode. simpl. apply replace_encode_char. Qed.

Lemma pf_decode_char (c : ascii) (t : string) :
  pf_decode (pf_char c +:+ t) = String c (pf_decode t).
Proof. each_char c; reflexivity. Qed.

Lemma pf_decode_encode (s : string) : pf_decode (pf_encode s) = s.
Proof.
  induction s as [| c s IH]; [reflexivity |].
  rewrite pf_encode_cons, pf_decode_char, IH. reflexivity.
Qed.

Lemma pf_encode_inj (s1 s2 : string) : pf_encode s1 = pf_encode s2 -> s1 = s2.
Proof.
  intros H. rewrite <- (pf_decode_encode s1), <- (pf_decode_encode s2), H. reflexivity.
Qed.

(** *** One value changed *)

Lemma obj_get_middle_other (E1 E2 : JsObject) (k k' : string) (x : jsval) :
  k' <> k -> obj_get (E1 ++ (k, x) :: E2)%list k' = obj_get (E1 ++ E2)%list k'.
Proof.
  intros Hne. induction E1 as [| [k1 v1] E1 IH]; simpl.
  - destruct (String.eqb_spec k k') as [-> | _]; [contradiction | reflexivity].
  - rewrite IH. reflexivity.
Qed.

Lemma obj_keys_middle (E1 E2 : JsObject) (k : string) (x : jsval) :
  obj_keys (E1 ++ (k, x) :: E2)%list = (obj_keys E1 ++ k :: obj_keys E2)%list.
Proof. unfold obj_keys. rewrite map_app. reflexivity. Qed.

(** The query string around the pair of one key, whatever its value. *)
Lemma paramString_middle (E1 E2 : JsObject) (k : string) :
  NoDup (obj_keys E1 ++ k :: obj_keys E2)%list ->
  exists before after, forall x,
    String.concat "&" (pairs_of (E1 ++ (k, JStr x) :: E2)%list)
    = before +:+ (k +:+ "=" +:+ pf_encode x) +:+ after.
Proof.
  intros Hnd.
  set (ks := merge_sort String.le (obj_keys E1 ++ k :: obj_keys E2)%list).
  assert (ks ≡ₚ (obj_keys E1 ++ k :: obj_keys E2)%list) as Hperm
    by apply merge_sort_Permutation.
  assert (k ∈ ks) as Hk.
  { rewrite Hperm. apply elem_of_app. right. apply list_elem_of_here. }
  apply list_elem_of_split in Hk as (ks1 & ks2 & Hks).
  assert (NoDup (ks1 ++ k :: ks2)%list) as Hnd' by (rewrite <- Hks, Hperm; exact Hnd).
  apply NoDup_app in Hnd' as (_ & Hk1 & Hk2). apply NoDup_cons in Hk2 as [Hk2 _].
  exists (concat_before "&" (map (sig_pair (E1 ++ E2)%list) ks1)),
         (concat_after "&" (map (sig_pair (E1 ++ E2)%list) ks2)).
  intros x. unfold pairs_of, sig_sortedKeys. rewrite obj_keys_middle. fold ks.
  rewrite Hks, map_app. simpl. rewrite concat_split.
  assert (forall l, k ∉ l ->
            map (sig_pair (E1 ++ (k, JStr x) :: E2)%list) l
            = map (sig_pair (E1 ++ E2)%list) l) as Hother.
  { intros l Hl. apply map_ext_in. intros k' Hk'. unfold sig_pair.
    rewrite obj_get_middle_other; [reflexivity |].
    intros ->. apply Hl. apply list_elem_of_In. exact Hk'. }
  assert (sig_pair (E1 ++ (k, JStr x) :: E2)%list k = k +:+ "=" +:+ pf_encode x) as ->.
  { unfold sig_pair. rewrite (obj_get_elem _ k (JStr x)); [reflexivity | | ].
    - rewrite obj_keys_middle. exact Hnd.
    - apply elem_of_app. right. apply list_elem_of_here. }
  rewrite !Hother; [reflexivity | exact Hk2 |].
  intros Hin. apply (Hk1 k Hin). apply list_elem_of_here.
Qed.

Lemma sig_filtered_middle (p1 p2 : JsObject) (k : string) (v : string) :
  NoDup (obj_keys (p1 ++ (k, JStr v) :: p2)%list) -> k <> "signature" -> v <> "" ->
  sig_filtered (p1 ++ (k, JStr v) :: p2)%list
  = ((sig_entry <$> filter sig_kept p1) ++ (k, JStr (trim v))
       :: (sig_entry <$> filter sig_kept p2))%list.
Proof.
  intros Hnd Hk Hv. rewrite sig_filtered_spec by exact Hnd.
  rewrite filter_app, (filter_cons_True sig_kept), fmap_app; [reflexivity |].
  unfold sig_kept. simpl. apply sig_keep_true. repeat split; congruence.
Qed.

(** Two objects that differ in the value of one kept property have the same
    string to hash exactly when the two values agree after [trim]. *)
Lemma signatureString_one_value
    (p1 p2 : JsObject) (k v v' : string) (passphrase : option string) :
  NoDup (obj_keys (p1 ++ (k, JStr v) :: p2)%list) ->
  k <> "signature" -> v <> "" -> v' <> "" ->
  sig_signatureString (p1 ++ (k, JStr v) :: p2)%list passphrase
  = sig_signatureString (p1 ++ (k, JStr v') :: p2)%list passphrase
  <-> trim v = trim v'.
Proof.
  intros Hnd Hk Hv Hv'.
  assert (NoDup (obj_keys (p1 ++ (k, JStr v') :: p2)%list)) as Hnd'.
  { rewrite obj_keys_middle. rewrite obj_keys_middle in Hnd. exact Hnd. }
  pose proof (sig_filtered_NoDup _ Hnd) as HndF.
  rewrite (sig_filtered_middle p1 p2 k v Hnd Hk Hv), obj_keys_middle in HndF.
  destruct (paramString_middle _ _ k HndF) as (before & after & Hmid).
  assert (forall u, NoDup (obj_keys (p1 ++ (k, JStr u) :: p2)%list) -> u <> "" ->
            sig_paramString (p1 ++ (k, JStr u) :: p2)%list
            = before +:+ (k +:+ "=" +:+ pf_encode (trim u)) +:+ after) as Hstr.
  { intros u Hu Hne. unfold sig_paramString.
    change (sig_pairs ?p) with (pairs_of (sig_filtered p)).
    rewrite (sig_filtered_middle p1 p2 k u Hu Hk Hne). apply Hmid. }
  unfold sig_signatureString. rewrite (Hstr v Hnd Hv), (Hstr v' Hnd' Hv').
  split.
  - intros H. apply pf_encode_inj.
    assert (before +:+ (k +:+ "=" +:+ pf_encode (trim v)) +:+ after
            = before +:+ (k +:+ "=" +:+ pf_encode (trim v')) +:+ after) as H'.
    { destruct passphrase as [p |]; [destruct (_ && _) |]; try exact H.
      apply append_inv_tail in H. exact H. }
    apply append_inv_head, append_inv_tail, append_inv_head, append_inv_head in H'.
    exact H'.
  - intros ->. reflexivity.
Qed.

(** *** The verification made by the ITN handler *)

Lemma obj_get_in (o : JsObject) (k : string) (v : jsval) :
  obj_get o k = v -> v <> JUndefined -> (k, v) ∈ o.
Proof.
  induction o as [| [k' v'] o IH]; simpl; intros Hget Hv; [congruence |].
  destruct (String.eqb_spec k' k) as [-> | _].
  - subst. apply list_elem_of_here.
  - apply list_elem_of_further. auto.
Qed.

Lemma obj_get_set_other (o : JsObject) (k k' : string) (v : jsval) :
  k' <> k -> obj_get (obj_set o k v) k' = obj_get o k'.
Proof.
  intros Hne. induction o as [| [k1 v1] o IH]; simpl.
  - destruct (String.eqb_spec k k') as [-> | _]; [contradiction | reflexivity].
  - destruct (String.eqb_spec k1 k) as [-> | _]; simpl.
    + destruct (String.eqb_spec k k') as [-> | _]; [contradiction | reflexivity].
    + rewrite IH. reflexivity.
Qed.

Lemma obj_get_set_same (o : JsObject) (k : string) (v : jsval) :
  obj_get (obj_set o k v) k = v.
Proof.
  induction o as [| [k1 v1] o IH]; simpl.
  - rewrite String.eqb_refl. reflexivity.
  - destruct (String.eqb_spec k1 k) as [-> | Hne]; simpl.
    + rewrite String.eqb_refl. reflexivity.
    + destruct (String.eqb_spec k1 k) as [-> | _]; [contradiction | exact IH].
Qed.

Lemma itn_kept_bool (k : string) (v : jsval) :
  negb (String.eqb k "signature") && negb (bool_decide (v = JStr "")) = true
  <-> itn_kept (k, v).
Proof.
  unfold itn_kept. simpl.
  rewrite andb_true_iff, !negb_true_iff, bool_decide_eq_false, String.eqb_neq. tauto.
Qed.

Lemma itn_verify_loop (data q acc : JsObject) :
  (forall kv, kv ∈ q -> obj_get data (fst kv) = snd kv) ->
  (forall kv, kv ∈ q -> is_string (snd kv) = true) ->
  NoDup (obj_keys acc ++ obj_keys q)%list ->
  foldl (itn_verify_step data) (Some acc) (obj_keys q)
  = Some (acc ++ filter itn_kept q)%list.
Proof.
  revert acc. induction q as [| [k v] q IH]; intros acc Hget Hstr Hnd; simpl.
  - rewrite app_nil_r. reflexivity.
  - assert (obj_get data k = v) as Hk by (apply (Hget (k, v)), list_elem_of_here).
    assert (is_string v = true) as Hv by (apply (Hstr (k, v)), list_elem_of_here).
    assert (forall kv, kv ∈ q -> obj_get data (fst kv) = snd kv) as Hget'.
    { intros kv Hkv. apply Hget. apply list_elem_of_further. exact Hkv. }
    assert (forall kv, kv ∈ q -> is_string (snd kv) = true) as Hstr'.
    { intros kv Hkv. apply Hstr. apply list_elem_of_further. exact Hkv. }
    simpl in Hnd. apply NoDup_app in Hnd as (Hacc & Hdisj & Hq).
    apply NoDup_cons in Hq as [Hkq Hq].
    assert (k ∉ obj_keys acc) as Hkacc.
    { intros Hin. apply (Hdisj k Hin). apply list_elem_of_here. }
    rewrite Hk.
    destruct (negb (String.eqb k "signature") && negb (bool_decide (v = JStr ""))) eqn:Hc.
    + apply itn_kept_bool in Hc.
      rewrite (filter_cons_True itn_kept) by exact Hc.
      destruct v as [| | | | | | s]; try discriminate Hv. simpl.
      rewrite obj_set_fresh by exact Hkacc.
      rewrite IH; [| exact Hget' | exact Hstr' |].
      * rewrite <- app_assoc. reflexivity.
      * unfold obj_keys. rewrite fmap_app. simpl. rewrite <- app_assoc. simpl.
        apply NoDup_app. split; [exact Hacc |]. split.
        -- intros x Hx Hx'. apply elem_of_cons in Hx' as [-> | Hx']; [contradiction |].
           apply (Hdisj x Hx). apply list_elem_of_further. exact Hx'.
        -- apply NoDup_cons. split; assumption.
    + rewrite (filter_cons_False itn_kept).
      * apply IH; [exact Hget' | exact Hstr' |].
        apply NoDup_app. split; [exact Hacc |]. split; [| exact Hq].
        intros x Hx Hx'. apply (Hdisj x Hx). apply list_elem_of_further. exact Hx'.
      * intros Hkept. apply itn_kept_bool in Hkept. congruence.
Qed.

Lemma sig_kept_itn_kept (kv : string * jsval) : sig_kept kv -> itn_kept kv.
Proof.
  unfold sig_kept, itn_kept. intros H. apply sig_keep_true in H. tauto.
Qed.

Lemma filter_sig_kept_itn_kept (o : JsObject) :
  filter sig_kept (filter itn_kept o) = filter sig_kept o.
Proof.
  induction o as [| kv o IH]; [reflexivity |].
  destruct (decide (sig_kept kv)) as [Hs | Hs].
  - rewrite (filter_cons_True itn_kept) by (apply sig_kept_itn_kept; exact Hs).
    rewrite !(filter_cons_True sig_kept) by exact Hs. rewrite IH. reflexivity.
  - rewrite (filter_cons_False sig_kept _ _ Hs).
    destruct (decide (itn_kept kv)) as [Hi | Hi].
    + rewrite (filter_cons_True itn_kept) by exact Hi.
      rewrite (filter_cons_False sig_kept _ _ Hs). exact IH.
    + rewrite (filter_cons_False itn_kept) by exact Hi. exact IH.
Qed.

(** The signature recomputed by the ITN handler over a payload that carries
    [params], with the merchant key the handler will write, and their
    signature. *)
Lemma itn_expected_of_signed (cfg : Config) (params : JsObject) :
  NoDup (obj_keys params) ->
  "signature" ∉ obj_keys params ->
  (forall kv, kv ∈ params -> is_string (snd kv) = true) ->
  obj_get params "merchant_key"
  = JStr (if itn_isSandbox cfg params then sandboxMerchantKey cfg else merchantKey cfg) ->
  itn_expectedSignature cfg (signed_payload cfg params)
  = Some (generatePayFastSignature params (itn_passphrase cfg params)).
Proof.
  intros Hnd Hsig Hstr Hkey.
  set (sig := generatePayFastSignature params (itn_passphrase cfg params)).
  assert (signed_payload cfg params = (params ++ [("signature", JStr sig)])%list) as Hdata.
  { unfold signed_payload. fold sig. apply obj_set_fresh. exact Hsig. }
  assert (NoDup (obj_keys (params ++ [("signature", JStr sig)])%list)) as Hnd_data.
  { unfold obj_keys. rewrite fmap_app. simpl. apply NoDup_app. split; [exact Hnd |].
    split; [| apply NoDup_singleton].
    intros x Hx Hx'. apply list_elem_of_singleton in Hx'. subst x. contradiction. }
  assert (itn_isSandbox cfg (signed_payload cfg params) = itn_isSandbox cfg params) as Hsandbox.
  { unfold itn_isSandbox, signed_payload. rewrite obj_get_set_other by discriminate.
    reflexivity. }
  assert (itn_passphrase cfg (signed_payload cfg params) = itn_passphrase cfg params) as Hpass.
  { unfold itn_passphrase. rewrite Hsandbox. reflexivity. }
  unfold itn_expectedSignature. rewrite Hpass, Hsandbox. rewrite Hdata.
  rewrite (itn_verify_loop _ _ []); [| | | exact Hnd_data].
  - simpl. rewrite filter_app, (filter_cons_False itn_kept);
      [| unfold itn_kept; simpl; tauto].
    change (filter itn_kept []) with (@nil (string * jsval)). rewrite app_nil_r.
    set (key := if itn_isSandbox cfg params then sandboxMerchantKey cfg else merchantKey cfg)
      in *.
    assert (("merchant_key", JStr key) ∈ params) as Hin
      by (apply obj_get_in; [exact Hkey | discriminate]).
    assert (NoDup (obj_keys (filter itn_kept params))) as HndV.
    { unfold obj_keys. eapply sublist_NoDup; [exact Hnd |].
      apply fmap_sublist, sublist_filter. }
    f_equal. unfold generatePayFastSignature, sig_signatureString, sig_paramString, sig_pairs.
    assert (sig_filtered (obj_set (filter itn_kept params) "merchant_key" (JStr key))
            = sig_filtered params) as ->; [| reflexivity].
    destruct (decide (key = "")) as [Hempty | Hfull].
    + assert ("merchant_key" ∉ obj_keys (filter itn_kept params)) as Hout.
      { intros Hk. apply list_elem_of_fmap in Hk as ([k' v'] & Hk' & Hkv). simpl in Hk'.
        subst k'. apply list_elem_of_filter in Hkv as [[_ Hne] Hkv]. simpl in Hne.
        rewrite <- (obj_get_elem params "merchant_key" v' Hnd Hkv) in Hne.
        rewrite Hkey, Hempty in Hne. contradiction. }
      rewrite obj_set_fresh by exact Hout.
      rewrite !sig_filtered_spec; [| exact Hnd |].
      * rewrite filter_app, (filter_cons_False sig_kept), filter_sig_kept_itn_kept.
        -- change (filter sig_kept []) with (@nil (string * jsval)).
           rewrite app_nil_r. reflexivity.
        -- unfold sig_kept. simpl. rewrite Hempty. intros H.
           apply sig_keep_true in H. tauto.
      * unfold obj_keys. rewrite fmap_app. simpl. apply NoDup_app.
        split; [exact HndV |]. split; [| apply NoDup_singleton].
        intros x Hx Hx'. apply list_elem_of_singleton in Hx'. subst x. contradiction.
    + assert (("merchant_key", JStr key) ∈ filter itn_kept params) as HinV.
      { apply list_elem_of_filter. split; [| exact Hin].
        split; simpl; [discriminate | congruence]. }
      rewrite <- (obj_get_elem _ _ _ HndV HinV) at 1.
      rewrite obj_set_same.
      * rewrite !sig_filtered_spec by assumption.
        rewrite filter_sig_kept_itn_kept. reflexivity.
      * apply list_elem_of_fmap. exists ("merchant_key", JStr key). auto.
  - intros kv Hkv. destruct kv as [k v]. simpl. apply obj_get_elem; assumption.
  - intros kv Hkv. apply elem_of_app in Hkv as [Hkv | Hkv]; [auto |].
    apply list_elem_of_singleton in Hkv. subst kv. reflexivity.
Qed.

(** C4, as the code has it. First: when a payload carries string parameters,
    among them the merchant key the handler is configured with for the
    environment the payload names, and the signature of those parameters
    under that environment's passphrase, the signature the ITN handler
    recomputes equals the one supplied. Second: when one kept value is
    changed (to another value that is not empty), the string that is hashed
    changes exactly when the value changes after trimming; a change that
    trimming removes leaves the digest as it was, and any other change gives
    a different string to hash. *)
Theorem signature_round_trip_and_changes :
  (forall (cfg : Config) (params : JsObject),
      NoDup (obj_keys params) ->
      "signature" ∉ obj_keys params ->
      (forall kv, kv ∈ params -> is_string (snd kv) = true) ->
      obj_get params "merchant_key"
      = JStr (if itn_isSandbox cfg params then sandboxMerchantKey cfg else merchantKey cfg) ->
      itn_signature_matches cfg (signed_payload cfg params) = Some true)
  /\ (forall (p1 p2 : JsObject) (k v v' : string) (passphrase : option string),
         NoDup (obj_keys (p1 ++ (k, JStr v) :: p2)%list) ->
         k <> "signature" -> v <> "" -> v' <> "" ->
         (sig_signatureString (p1 ++ (k, JStr v) :: p2)%list passphrase
          = sig_signatureString (p1 ++ (k, JStr v') :: p2)%list passphrase
          <-> trim v = trim v')
         /\ (trim v = trim v' ->
             generatePayFastSignature (p1 ++ (k, JStr v) :: p2)%list passphrase
             = generatePayFastSignature (p1 ++ (k, JStr v') :: p2)%list passphrase)).
Proof.
  split.
  - intros cfg params Hnd Hsig Hstr Hkey. unfold itn_signature_matches.
    rewrite (itn_expected_of_signed cfg params Hnd Hsig Hstr Hkey).
    unfold signed_payload. rewrite obj_get_set_same.
    rewrite bool_decide_eq_true_2 by reflexivity. reflexivity.
  - intros p1 p2 k v v' passphrase Hnd Hk Hv Hv'.
    pose proof (signatureString_one_value p1 p2 k v v' passphrase Hnd Hk Hv Hv') as Hiff.
    split; [exact Hiff |].
    intros Htrim. unfold generatePayFastSignature.
    rewrite (proj2 Hiff Htrim). reflexivity.
Qed.

(** C4 as stated fails, twice. The amount of the scenario with a space at
    its end is changed, in that one character, into the amount with a tab at
    its end; the ITN handler still accepts the signature of the unchanged
    parameters. And parameters without [merchant_key], signed with the
    passphrase of their environment, are not accepted by the ITN handler,
    which signs them together with its merchant key. *)
Lemma whitespace_change_keeps_signature :
  (String.length "165.00 " = String.length ("165.00" +:+ tab)
   /\ String.eqb "165.00 " ("165.00" +:+ tab) = false
   /\ itn_signature_matches PAYFAST_CONFIG
        (obj_set (example_params ("165.00" +:+ tab)) "signature"
           (JStr (generatePayFastSignature (example_params "165.00 ") None)))
      = Some true)
  /\ (itn_passphrase PAYFAST_CONFIG
        [("merchant_id", JStr "10045117"); ("m_payment_id", JStr "pay-1")] = None
      /\ itn_signature_matches PAYFAST_CONFIG
           (signed_payload PAYFAST_CONFIG
              [("merchant_id", JStr "10045117"); ("m_payment_id", JStr "pay-1")])
         = Some false).
Proof. vm_compute. repeat split; reflexivity. Qed.

(** The round trip for the scenario's parameters, and the amount changed
    from 165.00 to 165.01. *)
Lemma signature_round_trip_and_changes_witness :
  itn_signature_matches PAYFAST_CONFIG
    (signed_payload PAYFAST_CONFIG (example_params "165.00")) = Some true
  /\ (sig_signatureString (example_params "165.00") None
      = sig_signatureString (example_params "165.01") None
      <-> trim "165.00" = trim "165.01").
Proof.
  split.
  - apply (proj1 signature_round_trip_and_changes PAYFAST_CONFIG (example_params "165.00")).
    + apply (bool_decide_unpack _). vm_compute. exact I.
    + apply (bool_decide_unpack _). vm_compute. exact I.
    + intros kv Hkv. apply list_elem_of_In in Hkv. simpl in Hkv.
      repeat (destruct Hkv as [<- | Hkv]; [reflexivity |]). contradiction.
    + reflexivity.
  - refine (proj1 (proj2 signature_round_trip_and_changes
                     [ ("merchant_id", JStr "10045117"); ("merchant_key", JStr "dxv5rm6a520rb");
                       ("m_payment_id", JStr "pay-1"); ("payment_status", JStr "COMPLETE");
                       ("item_name", JStr "Flareon Ex") ] []
                     "amount_gross" "165.00" "165.01" None _ _ _ _)).
    + apply (bool_decide_unpack _). vm_compute. exact I.
    + discriminate.
    + discriminate.
    + discriminate.
Defined.

(** Two orders of the scenario's parameters. *)
Lemma signature_order_independent_witness :
  generatePayFastSignature
    [ ("item_name", JStr "Flareon Ex"); ("amount_gross", JStr "165.00");
      ("m_payment_id", JStr "pay-1") ] (Some "secret")
  = generatePayFastSignature
      [ ("amount_gross", JStr "165.00"); ("item_name", JStr "Flareon Ex");
        ("m_payment_id", JStr "pay-1") ] (Some "secret").
Proof.
  apply signature_order_independent.
  - apply (bool_decide_unpack _). vm_compute. exact I.
  - apply perm_swap.
Defined.

(** A quantity of 0 next to an empty note. *)
Lemma zero_is_not_empty_witness :
  ("qty" ∈ obj_keys (sig_filtered [("qty", JStr "0"); ("note", JStr "")])
   <-> JStr "0" <> JStr "" /\ JStr "0" <> JNull /\ JStr "0" <> JUndefined
       /\ "qty" <> "signature")
  /\ ("qty" <> "signature" ->
      (JStr "0" = JStr "0" -> "qty=0" ∈ sig_pairs [("qty", JStr "0"); ("note", JStr "")])
      /\ (JStr "0" = JStr "false" ->
          "qty=false" ∈ sig_pairs [("qty", JStr "0"); ("note", JStr "")]))
  /\ ("qty" <> "signature" -> JStr "0" = JStr "0" \/ JStr "0" = JStr "false" ->
      forall passphrase, exists before after,
        sig_signatureString [("qty", JStr "0"); ("note", JStr "")] passphrase
        = before +:+ "qty=0" +:+ after).
Proof.
  apply (zero_is_not_empty [("qty", JStr "0"); ("note", JStr "")] "qty" (JStr "0")).
  - apply (bool_decide_unpack _). vm_compute. exact I.
  - apply list_elem_of_here.
Defined.

(** * Further properties of the router *)

(** ** The signature codec *)

(** The encoding [encodeURIComponent(value).replace(/%20/g, '+')] of the
    codec is injective: two values have the same encoding only when they are
    the same value. *)
Theorem pf_encode_injective (s1 s2 : string) : pf_encode s1 = pf_encode s2 <-> s1 = s2.
Proof.
  split; [| intros ->; reflexivity].
  intros H. rewrite <- (pf_decode_encode s1), <- (pf_decode_encode s2), H. reflexivity.
Qed.

Lemma all_chars_app (P : ascii -> bool) (s1 s2 : string) :
  all_chars P (s1 +:+ s2) = all_chars P s1 && all_chars P s2.
Proof.
  induction s1 as [| c s1 IH]; [reflexivity |].
  change (P c && all_chars P (s1 +:+ s2) = P c && all_chars P s1 && all_chars P s2).
  rewrite IH, andb_assoc. reflexivity.
Qed.

Lemma pf_char_safe (c : ascii) :
  all_chars pf_safe_char (pf_char c) = true
  /\ all_chars (fun x => negb (mem_char x "&= ")) (pf_char c) = true.
Proof. each_char c; split; reflexivity. Qed.

(** An encoded value consists of unreserved characters, [%] and [+] only;
    so it holds no [&], no [=] and no space. (The keys are written as they
    are, so this says nothing about them.) *)
Theorem pf_encode_alphabet (s : string) :
  all_chars pf_safe_char (pf_encode s) = true
  /\ all_chars (fun c => negb (mem_char c "&= ")) (pf_encode s) = true.
Proof.
  induction s as [| c s [IH1 IH2]]; [split; reflexivity |].
  rewrite pf_encode_cons, !all_chars_app, IH1, IH2.
  destruct (pf_char_safe c) as [-> ->]. split; reflexivity.
Qed.

Lemma NoDup_keys_middle (p1 p2 : JsObject) (k : string) (v : jsval) :
  NoDup (obj_keys (p1 ++ (k, v) :: p2)%list) -> NoDup (obj_keys (p1 ++ p2)%list).
Proof.
  rewrite obj_keys_middle. unfold obj_keys at 3. rewrite map_app.
  intros H. apply NoDup_app in H as (H1 & H2 & H3). apply NoDup_cons in H3 as [_ H3].
  apply NoDup_app. split; [exact H1 |]. split; [| exact H3].
  intros x Hx Hx'. apply (H2 x Hx). apply list_elem_of_further. exact Hx'.
Qed.

(** A property that the filter drops (an empty string, null, undefined, or
    the property [signature]) has no influence on the signature: the object
    with it and the object without it are signed alike. *)
Theorem dropped_property_is_not_signed
    (p1 p2 : JsObject) (k : string) (v : jsval) (passphrase : option string) :
  NoDup (obj_keys (p1 ++ (k, v) :: p2)%list) ->
  sig_keep k v = false ->
  generatePayFastSignature (p1 ++ (k, v) :: p2)%list passphrase
  = generatePayFastSignature (p1 ++ p2)%list passphrase.
Proof.
  intros Hnd Hdrop.
  unfold generatePayFastSignature, sig_signatureString, sig_paramString, sig_pairs.
  assert (sig_filtered (p1 ++ (k, v) :: p2)%list = sig_filtered (p1 ++ p2)%list) as ->;
    [| reflexivity].
  rewrite !sig_filtered_spec; [| exact (NoDup_keys_middle _ _ _ _ Hnd) | exact Hnd].
  rewrite !filter_app, (filter_cons_False sig_kept); [reflexivity |].
  unfold sig_kept. simpl. congruence.
Qed.

Lemma dropped_property_is_not_signed_witness :
  generatePayFastSignature
    [("amount", JStr "165.00"); ("signature", JStr "0123abcd"); ("item_name", JStr "Flareon Ex")]
    (Some "secret")
  = generatePayFastSignature
      [("amount", JStr "165.00"); ("item_name", JStr "Flareon Ex")] (Some "secret").
Proof.
  apply (dropped_property_is_not_signed
           [("amount", JStr "165.00")] [("item_name", JStr "Flareon Ex")]
           "signature" (JStr "0123abcd") (Some "secret")).
  - apply (bool_decide_unpack _). vm_compute. exact I.
  - reflexivity.
Defined.

(** *** The shape of the digest *)

Lemma le_bytes_length (n : nat) (x : Z) : length (MD5.le_bytes n x) = n.
Proof. revert x. induction n as [| n IH]; intros x; simpl; [reflexivity |]. rewrite IH. reflexivity. Qed.

Lemma le_bytes_range (n : nat) (x b : Z) : b ∈ MD5.le_bytes n x -> 0 <= b < 256.
Proof.
  revert x. induction n as [| n IH]; intros x Hb; simpl in Hb; [inversion Hb |].
  apply elem_of_cons in Hb as [-> | Hb]; [| eauto].
  change 255 with (Z.ones 8). rewrite Z.land_ones by lia.
  apply Z.mod_pos_bound. reflexivity.
Qed.

Lemma hexdigit_lower (n : Z) : 0 <= n < 16 -> is_lower_hex (MD5.hexdigit n) = true.
Proof.
  intros H.
  assert (forallb (fun k => is_lower_hex (MD5.hexdigit k)) (seqZ 0 16) = true) as Hall
    by reflexivity.
  rewrite forallb_forall in Hall. apply Hall.
  apply list_elem_of_In, elem_of_seqZ. lia.
Qed.

Lemma hexbyte_shape (b : Z) :
  0 <= b < 256 ->
  String.length (MD5.hexbyte b) = 2%nat /\ all_chars is_lower_hex (MD5.hexbyte b) = true.
Proof.
  intros Hb. split; [reflexivity |].
  unfold MD5.hexbyte. simpl. rewrite !hexdigit_lower; [reflexivity | |].
  - change 15 with (Z.ones 4). rewrite Z.land_ones by lia.
    apply Z.mod_pos_bound. reflexivity.
  - rewrite Z.shiftr_div_pow2 by lia. change (2 ^ 4) with 16.
    split; [apply Z.div_pos; lia | apply Z.div_lt_upper_bound; lia].
Qed.

Lemma concat_hex_shape (l : list Z) :
  (forall b, b ∈ l -> 0 <= b < 256) ->
  String.length (String.concat "" (map MD5.hexbyte l)) = (2 * length l)%nat
  /\ all_chars is_lower_hex (String.concat "" (map MD5.hexbyte l)) = true.
Proof.
  induction l as [| b l IH]; intros Hl; [split; reflexivity |].
  destruct (hexbyte_shape b (Hl b (list_elem_of_here _ _))) as [Hlen Hhex].
  destruct IH as [IHlen IHhex].
  { intros x Hx. apply Hl. apply list_elem_of_further. exact Hx. }
  destruct l as [| b' l]; [simpl; split; [exact Hlen | exact Hhex] |].
  change (String.concat "" (map MD5.hexbyte (b :: b' :: l)))
    with (MD5.hexbyte b +:+ "" +:+ String.concat "" (map MD5.hexbyte (b' :: l))).
  change ("" +:+ ?s) with s.
  rewrite length_append, all_chars_app, Hlen, Hhex, IHlen, IHhex.
  split; [simpl; lia | reflexivity].
Qed.

(** A signature is always 32 lower-case hexadecimal digits, whatever the
    parameters and the passphrase. *)
Theorem signature_is_32_hex_digits (params : JsObject) (passphrase : option string) :
  String.length (generatePayFastSignature params passphrase) = 32%nat
  /\ all_chars is_lower_hex (generatePayFastSignature params passphrase) = true.
Proof.
  unfold generatePayFastSignature, md5, MD5.digest.
  generalize (utf8 (sig_signatureString params passphrase)). intros bs. cbv zeta.
  destruct (MD5.blocks _ _ _) as [a b c d].
  destruct (concat_hex_shape
              (MD5.le_bytes 4 a ++ MD5.le_bytes 4 b ++ MD5.le_bytes 4 c ++ MD5.le_bytes 4 d))
    as [Hlen Hhex].
  - intros x Hx. repeat (apply elem_of_app in Hx as [Hx | Hx]);
      eapply le_bytes_range; exact Hx.
  - split; [| exact Hhex]. rewrite Hlen, !length_app, !le_bytes_length. reflexivity.
Qed.


(** ** What no request undoes *)

Lemma Forall2_map_self {A} (P : A -> A -> Prop) (f : A -> A) (l : list A) :
  (forall x, P x (f x)) -> Forall2 P l (map f l).
Proof. intros H. induction l; simpl; constructor; auto. Qed.

Lemma listing_history_refl l : listing_history l l.
Proof. left. reflexivity. Qed.

Lemma listing_history_trans l1 l2 l3 :
  listing_history l1 l2 -> listing_history l2 l3 -> listing_history l1 l3.
Proof.
  intros [-> | [t ->]] [-> | [t' ->]]; [left; reflexivity | right | right | right];
    eexists; reflexivity.
Qed.

Lemma store_history_refl s : store_history s s.
Proof.
  repeat split. exists 0. split; [lia |].
  destruct (s_totalSales s); simpl; [f_equal; lia | reflexivity].
Qed.

Lemma store_history_trans s1 s2 s3 :
  store_history s1 s2 -> store_history s2 s3 -> store_history s1 s3.
Proof.
  intros (Ha & Hb & Hc & k1 & Hk1 & Hs1) (Ha' & Hb' & Hc' & k2 & Hk2 & Hs2).
  repeat split; try congruence.
  exists (k1 + k2). split; [lia |]. rewrite Hs2, Hs1.
  destruct (s_totalSales s1); simpl; [f_equal; lia | reflexivity].
Qed.

Lemma db_history_refl d : db_history d d.
Proof.
  repeat split.
  - apply Forall_Forall2_diag, Forall_forall. intros. apply listing_history_refl.
  - apply Forall_Forall2_diag, Forall_forall. intros. apply store_history_refl.
  - exists []. rewrite app_nil_r. reflexivity.
Qed.

Lemma db_history_trans d1 d2 d3 : db_history d1 d2 -> db_history d2 d3 -> db_history d1 d3.
Proof.
  intros (Hu & Hl & Hs & new1 & Ho) (Hu' & Hl' & Hs' & new2 & Ho').
  repeat split.
  - congruence.
  - eapply Forall2_trans; [| exact Hl | exact Hl']. apply listing_history_trans.
  - eapply Forall2_trans; [| exact Hs | exact Hs']. apply store_history_trans.
  - exists (new1 ++ new2)%list. rewrite Ho', Ho, app_assoc. reflexivity.
Qed.

(** *** The queries *)

Ltac same_db := intros d a d' H; inversion H; subst; apply db_history_refl.

Lemma keeps_select_listing_by_id id : query_keeps (select_listing_by_id id).
Proof.
  intros d a d' H. unfold select_listing_by_id in H.
  destruct (sql_int id) as [[n |] |]; inversion H; subst; apply db_history_refl.
Qed.

Lemma keeps_select_active_listing name : query_keeps (select_active_listing_by_name name).
Proof.
  intros d a d' H. unfold select_active_listing_by_name in H.
  destruct (sql_text name); inversion H; subst; apply db_history_refl.
Qed.

Lemma keeps_select_user_by_id id : query_keeps (select_user_by_id id).
Proof. same_db. Qed.

Lemma keeps_select_user_by_email email : query_keeps (select_user_by_email email).
Proof.
  intros d a d' H. unfold select_user_by_email in H.
  destruct (sql_text email); inversion H; subst; apply db_history_refl.
Qed.

Lemma keeps_select_store_by_userId uid : query_keeps (select_store_by_userId uid).
Proof. same_db. Qed.

Lemma keeps_select_store_by_id id : query_keeps (select_store_by_id id).
Proof. same_db. Qed.

Lemma keeps_select_collection_exact uid name : query_keeps (select_collection_exact uid name).
Proof. same_db. Qed.

Lemma keeps_select_collection_ci env uid name :
  query_keeps (select_collection_ci env uid name).
Proof.
  intros d a d' H. unfold select_collection_ci in H.
  destruct (sql_text name); inversion H; subst; apply db_history_refl.
Qed.

Ltac kept_tables :=
  repeat split; simpl;
    [ apply Forall_Forall2_diag, Forall_forall; intros; apply listing_history_refl
    | apply Forall_Forall2_diag, Forall_forall; intros; apply store_history_refl
    | exists []; rewrite app_nil_r; reflexivity ].

Lemma keeps_insert_collection env row : query_keeps (insert_collection env row).
Proof.
  intros d a d' H. unfold insert_collection in H.
  destruct (_ || _); [discriminate |].
  destruct (sql_decimal env _) as [price |]; inversion H; subst. kept_tables.
Qed.

Lemma keeps_delete_collection id : query_keeps (delete_collection id).
Proof. intros d a d' H. inversion H; subst. kept_tables. Qed.

Lemma keeps_update_listing_inactive t id : query_keeps (update_listing_inactive t id).
Proof.
  intros d a d' H. unfold update_listing_inactive in H.
  destruct (sql_int id) as [[n |] |]; inversion H; subst; try apply db_history_refl.
  repeat split; simpl.
  - apply Forall2_map_self. intros l.
    destruct (l_id l =? n); [right; exists t | left]; reflexivity.
  - apply Forall_Forall2_diag, Forall_forall. intros. apply store_history_refl.
  - exists []. rewrite app_nil_r. reflexivity.
Qed.

Lemma keeps_insert_order env row : query_keeps (insert_order env row).
Proof.
  intros d a d' H. unfold insert_order in H.
  destruct (_ || _); [discriminate |].
  destruct (pg_decimal_10_2 env _) as [price |]; inversion H; subst. repeat split; simpl.
  - apply Forall_Forall2_diag, Forall_forall. intros. apply listing_history_refl.
  - apply Forall_Forall2_diag, Forall_forall. intros. apply store_history_refl.
  - eexists. reflexivity.
Qed.

Lemma keeps_increment_totalSales storeId t : query_keeps (increment_totalSales storeId t).
Proof.
  intros d a d' H. unfold increment_totalSales in H.
  destruct (forallb _ _); inversion H; subst. repeat split; simpl.
  - apply Forall_Forall2_diag, Forall_forall. intros. apply listing_history_refl.
  - apply Forall2_map_self. intros s.
    destruct (s_id s =? storeId); [| apply store_history_refl].
    repeat split. exists 1. split; [lia | reflexivity].
  - exists []. rewrite app_nil_r. reflexivity.
Qed.

(** *** Handler code *)

Lemma moves_same {R A} (m : M R A) : (forall w, db (snd (m w)) = db w) -> db_moves m.
Proof. intros H w. rewrite H. apply db_history_refl. Qed.

Lemma moves_ret {R A} (a : A) : db_moves (ret (R := R) a).
Proof. apply moves_same. reflexivity. Qed.

Lemma moves_skip {R} : db_moves (skip (R := R)).
Proof. apply moves_same. reflexivity. Qed.

Lemma moves_throw {R A} : db_moves (throw (R := R) (A := A)).
Proof. apply moves_same. reflexivity. Qed.

Lemma moves_return {R A} (r : R) : db_moves (return_ (A := A) r).
Proof. apply moves_same. reflexivity. Qed.

Lemma moves_store_get {R} k : db_moves (store_get (R := R) k).
Proof. apply moves_same. reflexivity. Qed.

Lemma moves_store_set {R} k v : db_moves (store_set (R := R) k v).
Proof. apply moves_same. reflexivity. Qed.

Lemma moves_lift_option {R A} (o : option A) : db_moves (lift_option (R := R) o).
Proof. destruct o; apply moves_same; reflexivity. Qed.

Lemma moves_check_url {R} url : db_moves (check_url (R := R) url).
Proof.
  unfold check_url. destruct (truthy url); [| apply moves_ret].
  destruct url; try apply moves_throw. destruct (_ && _); apply moves_ret.
Qed.

Lemma moves_bind {R A B} (m : M R A) (k : A -> M R B) :
  db_moves m -> (forall a, db_moves (k a)) -> db_moves (bind m k).
Proof.
  intros Hm Hk w. unfold bind. specialize (Hm w).
  destruct (m w) as [[a | r |] w']; simpl in *; try exact Hm.
  eapply db_history_trans; [exact Hm | apply Hk].
Qed.

Lemma moves_try_catch {R A} (body h : M R A) :
  db_moves body -> db_moves h -> db_moves (try_catch body h).
Proof.
  intros Hb Hh w. unfold try_catch. specialize (Hb w).
  destruct (body w) as [[a | r |] w']; simpl in *; try exact Hb.
  eapply db_history_trans; [exact Hb | apply Hh].
Qed.

Lemma moves_call {R A} (body : M A A) : db_moves body -> db_moves (call (R := R) body).
Proof.
  intros Hb w. unfold call. specialize (Hb w).
  destruct (body w) as [[a | r |] w']; exact Hb.
Qed.

Lemma moves_dbcall {R A} (q : Database -> option (A * Database)) :
  query_keeps q -> db_moves (dbcall (R := R) q).
Proof.
  intros Hq w. unfold dbcall.
  destruct (faults w) as [| [] fs]; simpl; try apply db_history_refl;
    destruct (q (db w)) as [[a d] |] eqn:E; simpl;
    try apply db_history_refl; eapply Hq; exact E.
Qed.

Create HintDb history.
#[local] Hint Resolve moves_ret moves_skip moves_throw moves_return moves_store_get
  moves_store_set moves_lift_option moves_check_url : history.
#[local] Hint Resolve keeps_select_listing_by_id keeps_select_active_listing
  keeps_select_user_by_id keeps_select_user_by_email keeps_select_store_by_userId
  keeps_select_store_by_id keeps_select_collection_exact keeps_select_collection_ci
  keeps_insert_collection keeps_delete_collection keeps_update_listing_inactive
  keeps_insert_order keeps_increment_totalSales : history.

Ltac history :=
  repeat first
    [ solve [ auto with history ]
    | apply moves_dbcall; solve [ auto with history ]
    | apply moves_bind; [| intros ? ]
    | apply moves_try_catch
    | apply moves_call
    | match goal with
      | |- db_moves (match ?x with _ => _ end) => destruct x
      | |- db_moves (if ?b then _ else _) => destruct b
      end ].

Lemma moves_find_sellerCard {R} env uid listing itemName :
  db_moves (find_sellerCard (R := R) env uid listing itemName).
Proof. unfold find_sellerCard. history. Qed.

Lemma moves_transfer_steps env l b s i a : db_moves (transfer_steps env l b s i a).
Proof.
  unfold transfer_steps. cbv zeta.
  pose proof (@moves_find_sellerCard unit). history.
Qed.

Lemma moves_transfer {R} env l b s i a :
  db_moves (transferCardOwnership (R := R) env l b s i a).
Proof.
  unfold transferCardOwnership. apply moves_call, moves_try_catch;
    [apply moves_transfer_steps | apply moves_skip].
Qed.

#[local] Hint Resolve moves_transfer : history.

Lemma moves_return_transfer {R} env existing :
  db_moves (return_transfer (R := R) env existing).
Proof. unfold return_transfer. history. Qed.

Lemma moves_itn_fallback env data : db_moves (itn_fallback env data).
Proof. unfold itn_fallback. history. Qed.

#[local] Hint Resolve moves_return_transfer moves_itn_fallback : history.

Lemma moves_create_payment_body env req : db_moves (create_payment_body env req).
Proof. unfold create_payment_body. cbv zeta. history. Qed.

Lemma moves_return_body env req : db_moves (return_body env req).
Proof. unfold return_body. cbv zeta. history. Qed.

Lemma moves_manual_transfer_body env req : db_moves (manual_transfer_body env req).
Proof. unfold manual_transfer_body. cbv zeta. history. Qed.

Lemma moves_status_body req : db_moves (status_body req).
Proof. unfold status_body. cbv zeta. history. Qed.

Lemma moves_itn_body env req : db_moves (itn_body env req).
Proof. unfold itn_body, itn_complete, itn_failed. cbv zeta. history. Qed.

Lemma serve_history (w : World) (c : Call) : db_history (db w) (db (serve w c)).
Proof.
  destruct c as [r req env fs]. unfold serve, route. simpl.
  change (db w) with (db (with_faults fs w)).
  destruct r; unfold create_payment, payment_return, manual_transfer, payment_status, itn;
    rewrite handler_world.
  - apply moves_create_payment_body.
  - apply moves_return_body.
  - apply moves_manual_transfer_body.
  - apply moves_status_body.
  - apply moves_itn_body.
Qed.

Lemma serve_all_history (w : World) (cs : list Call) :
  db_history (db w) (db (serve_all w cs)).
Proof.
  unfold serve_all. revert w. induction cs as [| c cs IH]; intros w; simpl.
  - apply db_history_refl.
  - eapply db_history_trans; [apply serve_history | apply IH].
Qed.

(** Orders are only ever added: after any sequence of requests, with any
    database failures, the orders that existed are still there, unchanged
    and in their place, followed by the new ones. *)
Theorem orders_are_append_only (w : World) (cs : list Call) :
  exists new, orders (db (serve_all w cs)) = (orders (db w) ++ new)%list.
Proof. apply (serve_all_history w cs). Qed.

(** Listings are never added, removed or reactivated: after any sequence of
    requests every listing is what it was, or what it was with [isActive]
    false and [updated_at] the time of an update, so its id, store, card,
    price and description never change; and a listing that is inactive stays
    inactive (its [updated_at] may be rewritten). *)
Theorem listings_are_only_deactivated (w : World) (cs : list Call) :
  Forall2 listing_history (storeListings (db w)) (storeListings (db (serve_all w cs)))
  /\ forall i l, storeListings (db w) !! i = Some l -> l_isActive l = Some false ->
                 exists l', storeListings (db (serve_all w cs)) !! i = Some l'
                            /\ l_isActive l' = Some false.
Proof.
  destruct (serve_all_history w cs) as (_ & Hl & _). split; [exact Hl |].
  intros i l Hi Hinactive.
  destruct (Forall2_lookup_l _ _ _ i l Hl Hi) as (l' & Hi' & [-> | [t ->]]);
    eexists; (split; [exact Hi' |]); [exact Hinactive | reflexivity].
Qed.

(** No request changes the users table, and none adds, removes or renames a
    store or lowers its count of sales. *)
Theorem users_and_stores_are_kept (w : World) (cs : list Call) :
  users (db (serve_all w cs)) = users (db w)
  /\ Forall2 store_history (stores (db w)) (stores (db (serve_all w cs))).
Proof.
  destruct (serve_all_history w cs) as (Hu & _ & Hs & _). split; assumption.
Qed.

(** The scenario's listing, sold, after a second notification and a
    return: inactive still, updated again by the second transfer. *)
Lemma listings_are_only_deactivated_witness :
  exists l', storeListings (db (serve_all world_paid
                                  [example_itn "COMPLETE" 1700000120000 "z9y8x7w6v";
                                   example_return "success" 1700000180000 "q1w2e3r4t"]))
             !! 0%nat = Some l'
             /\ l_isActive l' = Some false.
Proof.
  apply (proj2 (listings_are_only_deactivated world_paid
                  [example_itn "COMPLETE" 1700000120000 "z9y8x7w6v";
                   example_return "success" 1700000180000 "q1w2e3r4t"])
           0%nat
           {| l_id := 7; l_storeId := 3; l_cardName := "Flareon Ex"; l_cardImage := None;
              l_price := "165.00"; l_description := None; l_isActive := Some false;
              l_updatedAt := 1700000060000 |}).
  - vm_compute. reflexivity.
  - reflexivity.
Defined.


(** ** The ownership transfer *)

(** [transferCardOwnership] is contained: whatever its arguments, the
    database and the failures of its queries, it returns normally (nothing
    is thrown at the caller), it leaves the payment status store alone, and
    what it does to the database keeps users, only deactivates listings, only
    adds to the sales of stores and only adds orders. *)
Theorem transfer_is_contained
    (env : Env) (listingId buyerId sellerId itemName amount : jsval) (w : World) :
  fst (transferCardOwnership (R := Response) env listingId buyerId sellerId itemName amount w)
  = Normal tt
  /\ paymentStatusStore
       (snd (transferCardOwnership (R := Response) env listingId buyerId sellerId itemName
               amount w))
     = paymentStatusStore w
  /\ db_history (db w)
       (db (snd (transferCardOwnership (R := Response) env listingId buyerId sellerId itemName
                   amount w))).
Proof.
  split; [| split; [apply fixed_transfer | apply moves_transfer]].
  unfold transferCardOwnership, call, try_catch, skip, ret.
  destruct (transfer_steps env listingId buyerId sellerId itemName amount w)
    as [[[] | [] |] w']; reflexivity.
Qed.

(** *** Running the queries *)

Lemma db_with_faults (fs : list bool) (w : World) : db (with_faults fs w) = db w.
Proof. reflexivity. Qed.

Lemma with_faults_same (w : World) : with_faults (faults w) w = w.
Proof. destruct w. reflexivity. Qed.

(** A query on a world whose queries do not fail. *)
Lemma dbcall_ok {R A} (q : Database -> option (A * Database)) (w : World) a d :
  faults w = [] -> q (db w) = Some (a, d) -> dbcall (R := R) q w = (Normal a, with_db d w).
Proof.
  intros Hf Hq. unfold dbcall, with_db. rewrite Hf, Hq. reflexivity.
Qed.

(** A query that only reads: it throws or gives its row, and the world
    differs by the fault schedule only. *)
Lemma dbcall_select {R A} (q : Database -> option (option A * Database)) (w : World) :
  (forall d, q d = None \/ q d = Some (first_row (q d), d)) ->
  exists fs,
    dbcall (R := R) q w = (Throw, with_faults fs w)
    \/ dbcall (R := R) q w = (Normal (first_row (q (db w))), with_faults fs w).
Proof.
  intros Hq. unfold dbcall. exists (match faults w with [] => [] | _ :: fs => fs end).
  destruct (faults w) as [| [] fs]; simpl; auto;
    destruct (Hq (db w)) as [E | E]; rewrite E; simpl; auto.
Qed.

Lemma reads_listing_by_id id d :
  select_listing_by_id id d = None
  \/ select_listing_by_id id d = Some (first_row (select_listing_by_id id d), d).
Proof. unfold select_listing_by_id. destruct (sql_int id) as [[n |] |]; simpl; auto. Qed.

Lemma reads_user_by_id id d :
  select_user_by_id id d = None
  \/ select_user_by_id id d = Some (first_row (select_user_by_id id d), d).
Proof. right. reflexivity. Qed.

Lemma reads_store_by_userId id d :
  select_store_by_userId id d = None
  \/ select_store_by_userId id d = Some (first_row (select_store_by_userId id d), d).
Proof. right. reflexivity. Qed.

(** When the buyer, the seller or the seller's store does not exist, the
    transfer stops before its first write: the database is left as it was,
    whichever queries fail. *)
Theorem transfer_aborts_without_party
    (env : Env) (listingId buyerId sellerId itemName amount : jsval) (w : World) :
  first_row (select_user_by_id (String_ buyerId) (db w)) = None
  \/ first_row (select_user_by_id (String_ sellerId) (db w)) = None
  \/ first_row (select_store_by_userId (String_ sellerId) (db w)) = None ->
  db (snd (transferCardOwnership (R := Response) env listingId buyerId sellerId itemName
             amount w))
  = db w.
Proof.
  intros Hmissing.
  assert (String_ buyerId = if is_string buyerId then String_ buyerId else String_ buyerId)
    as Hb by (destruct (is_string buyerId); reflexivity).
  assert (String_ sellerId = if is_string sellerId then String_ sellerId else String_ sellerId)
    as Hs by (destruct (is_string sellerId); reflexivity).
  unfold transferCardOwnership, call, try_catch, transfer_steps. cbv zeta.
  rewrite <- Hb, <- Hs. unfold bind at 1.
  destruct (dbcall_select (R := unit) (select_listing_by_id listingId) w
              (reads_listing_by_id listingId)) as (fs1 & [-> | ->]); [reflexivity |].
  destruct (first_row (select_listing_by_id listingId (db w))) as [listing |];
    [| reflexivity].
  unfold bind at 1.
  destruct (dbcall_select (R := unit) (select_user_by_id (String_ buyerId))
              (with_faults fs1 w) (reads_user_by_id _)) as (fs2 & [-> | ->]); [reflexivity |].
  rewrite ?db_with_faults. destruct (first_row (select_user_by_id (String_ buyerId) (db w)))
    as [buyer |] eqn:Hbuyer; [| reflexivity].
  unfold bind at 1.
  destruct (dbcall_select (R := unit) (select_user_by_id (String_ sellerId))
              (with_faults fs2 (with_faults fs1 w)) (reads_user_by_id _))
    as (fs3 & [-> | ->]); [reflexivity |].
  rewrite ?db_with_faults. destruct (first_row (select_user_by_id (String_ sellerId) (db w)))
    as [seller |] eqn:Hseller; [| reflexivity].
  unfold bind at 1.
  destruct (dbcall_select (R := unit) (select_store_by_userId (String_ sellerId))
              (with_faults fs3 (with_faults fs2 (with_faults fs1 w)))
              (reads_store_by_userId _)) as (fs4 & [-> | ->]); [reflexivity |].
  rewrite ?db_with_faults. destruct (first_row (select_store_by_userId (String_ sellerId) (db w)))
    as [sellerStore |] eqn:Hstore; [| reflexivity].
  exfalso. destruct Hmissing as [H | [H | H]]; discriminate H.
Qed.

Lemma sql_int_of_listing (v : jsval) (d : Database) (listing : Listing) :
  first_row (select_listing_by_id v d) = Some listing ->
  exists n, sql_int v = Some (Some n)
            /\ find (fun l => l_id l =? n) (storeListings d) = Some listing.
Proof.
  unfold select_listing_by_id. destruct (sql_int v) as [[n |] |]; simpl; try discriminate.
  eauto.
Qed.

Lemma sql_int_num (n m : Z) : sql_int (JNum n) = Some (Some m) -> m = n.
Proof. unfold sql_int. destruct (_ && _); congruence. Qed.

#[local] Arguments sql_int : simpl never.



(** A buyer id that no user has. *)
Lemma transfer_aborts_without_party_witness :
  db (snd (transferCardOwnership (R := Response)
             (example_config_env 1700000060000 "a1b2c3d4e") (JNum 7)
             (JStr "nobody") (JStr "seller-1") (JStr "Flareon Ex") (JStr "165.00")
             (initial_world example_db)))
  = example_db.
Proof.
  exact (transfer_aborts_without_party (example_config_env 1700000060000 "a1b2c3d4e")
           (JNum 7) (JStr "nobody") (JStr "seller-1") (JStr "Flareon Ex") (JStr "165.00")
           (initial_world example_db) (or_introl eq_refl)).
Defined.


(** ** POST /create-payment *)

Lemma check_url_usable {R} (url : jsval) :
  url_usable url -> exists url', check_url (R := R) url = ret url'.
Proof.
  intros [H | H]; unfold check_url.
  - rewrite H. eauto.
  - destruct url; try discriminate H. destruct (truthy _); [| eauto].
    destruct (_ && _); eauto.
Qed.

Lemma check_url_unusable {R} (url : jsval) :
  truthy url = true -> is_string url = false -> check_url (R := R) url = throw.
Proof.
  intros Ht Hs. unfold check_url. rewrite Ht. destruct url; try reflexivity. discriminate Hs.
Qed.

Lemma check_url_cases {R} (url : jsval) :
  check_url (R := R) url = throw \/ exists url', check_url (R := R) url = ret url'.
Proof.
  unfold check_url. destruct (truthy url); [| eauto].
  destruct url; eauto. destruct (_ && _); eauto.
Qed.

Lemma sig_filtered_without_signature (params : JsObject) (v : jsval) :
  NoDup (obj_keys params) -> "signature" ∉ obj_keys params ->
  sig_filtered (obj_set params "signature" v) = sig_filtered params.
Proof.
  intros Hnd Hout. rewrite obj_set_fresh by exact Hout.
  rewrite !sig_filtered_spec; [| exact Hnd |].
  - rewrite filter_app, (filter_cons_False sig_kept).
    + change (filter sig_kept []) with (@nil (string * jsval)). rewrite app_nil_r. reflexivity.
    + unfold sig_kept. simpl. intros H. apply sig_keep_true in H. tauto.
  - unfold obj_keys. rewrite fmap_app. simpl. apply NoDup_app.
    split; [exact Hnd |]. split; [| apply NoDup_singleton].
    intros x Hx Hx'. apply list_elem_of_singleton in Hx'. subst x. contradiction.
Qed.

Lemma sign_without_signature (params : JsObject) (v : jsval) (passphrase : option string) :
  NoDup (obj_keys params) -> "signature" ∉ obj_keys params ->
  generatePayFastSignature (obj_set params "signature" v) passphrase
  = generatePayFastSignature params passphrase.
Proof.
  intros Hnd Hout.
  unfold generatePayFastSignature, sig_signatureString, sig_paramString, sig_pairs.
  rewrite (sig_filtered_without_signature params v Hnd Hout). reflexivity.
Qed.

(** A create-payment request with an amount and an item name, and whose
    return and cancel URLs are absent or strings, is answered with status
    200; the parameters it returns carry the signature that
    [generatePayFastSignature] computes for them; and the store gets, under
    the payment id, a pending record with the parsed ids, while the
    database is not touched. *)
Theorem create_payment_stores_pending
    (env : Env) (req : Request) (body : JsObject) (w : World) :
  req_body req = Some body ->
  truthy (obj_get body "amount") = true ->
  truthy (obj_get body "itemName") = true ->
  url_usable (obj_get body "returnUrl") ->
  url_usable (obj_get body "cancelUrl") ->
  exists paymentUrl paymentParams,
    create_payment env req w
    = ({| res_status := 200;
          res_body := BPaymentCreated paymentUrl paymentParams (create_paymentId env body) |},
       with_record (create_paymentId env body) (create_record env body) w)
    /\ obj_get paymentParams "signature"
       = JStr (generatePayFastSignature paymentParams (create_passphrase (config env)))
    /\ obj_get paymentParams "m_payment_id" = create_paymentId env body.
Proof.
  intros Hbody Hamount Hitem Hreturn Hcancel.
  unfold create_payment, handler, create_payment_body.
  rewrite Hbody. unfold lift_option. rewrite bind_ret_l. cbv zeta.
  rewrite Hamount, Hitem. change (negb true || negb true) with false. cbv iota.
  destruct (check_url_usable (R := Response) _ Hreturn) as [url1 ->]. rewrite bind_ret_l.
  destruct (check_url_usable (R := Response) _ Hcancel) as [url2 ->]. rewrite bind_ret_l.
  unfold bind, store_set, ret.
  eexists _, _. split; [reflexivity |]. split.
  - rewrite obj_get_set_same. f_equal. symmetry.
    apply sign_without_signature.
    + cbn [obj_keys map fst]. apply (bool_decide_unpack _). vm_compute. exact I.
    + cbn [obj_keys map fst]. apply (bool_decide_unpack _). vm_compute. exact I.
  - rewrite obj_get_set_other by discriminate. reflexivity.
Qed.

Lemma create_payment_stores_pending_witness :
  exists paymentUrl paymentParams,
    create_payment (call_env example_create) (call_req example_create)
      (initial_world example_db)
    = ({| res_status := 200;
          res_body := BPaymentCreated paymentUrl paymentParams (JStr "pay-1") |},
       with_record (JStr "pay-1")
         {| status := pending; mPaymentId := JStr "pay-1"; pfPaymentId := JUndefined;
            amount := JUndefined; timestamp := 1700000000000; listingId := JNum 7;
            buyerId := JStr "buyer-1"; sellerId := JStr "seller-1" |}
         (initial_world example_db))
    /\ obj_get paymentParams "signature"
       = JStr (generatePayFastSignature paymentParams None)
    /\ obj_get paymentParams "m_payment_id" = JStr "pay-1".
Proof.
  exact (create_payment_stores_pending (call_env example_create) (call_req example_create)
           [ ("amount", JStr "165.00"); ("itemName", JStr "Flareon Ex");
             ("mPaymentId", JStr "pay-1"); ("listingId", JNum 7);
             ("buyerId", JStr "buyer-1"); ("sellerId", JStr "seller-1") ]
           (initial_world example_db) eq_refl eq_refl eq_refl
           (or_introl eq_refl) (or_introl eq_refl)).
Defined.

(** A return or cancel URL that is truthy and not a string (a number, say)
    makes [startsWith] throw: the request is answered with status 500 and
    nothing is stored. *)
Theorem create_payment_fails_on_url_that_is_no_string
    (env : Env) (req : Request) (body : JsObject) (w : World) :
  req_body req = Some body ->
  truthy (obj_get body "amount") = true ->
  truthy (obj_get body "itemName") = true ->
  (truthy (obj_get body "returnUrl") = true /\ is_string (obj_get body "returnUrl") = false)
  \/ (truthy (obj_get body "cancelUrl") = true /\ is_string (obj_get body "cancelUrl") = false) ->
  create_payment env req w
  = ({| res_status := 500; res_body := BError "Failed to create payment" |}, w).
Proof.
  intros Hbody Hamount Hitem Hbad.
  unfold create_payment, handler, create_payment_body.
  rewrite Hbody. unfold lift_option. rewrite bind_ret_l. cbv zeta.
  rewrite Hamount, Hitem. change (negb true || negb true) with false. cbv iota.
  destruct Hbad as [[Ht Hs] | [Ht Hs]].
  - rewrite (check_url_unusable (R := Response) _ Ht Hs). reflexivity.
  - destruct (check_url_cases (R := Response) (obj_get body "returnUrl")) as [-> | [url1 ->]];
      [reflexivity |].
    rewrite bind_ret_l. rewrite (check_url_unusable (R := Response) _ Ht Hs). reflexivity.
Qed.

Lemma create_payment_fails_on_url_that_is_no_string_witness :
  create_payment (example_config_env 1700000000000 "k3j9x2m1q")
    (example_request
       (Some [("amount", JStr "165.00"); ("itemName", JStr "Flareon Ex");
              ("returnUrl", JNum 5)]) [])
    (initial_world example_db)
  = ({| res_status := 500; res_body := BError "Failed to create payment" |},
     initial_world example_db).
Proof.
  exact (create_payment_fails_on_url_that_is_no_string
           (example_config_env 1700000000000 "k3j9x2m1q")
           (example_request
              (Some [("amount", JStr "165.00"); ("itemName", JStr "Flareon Ex");
                     ("returnUrl", JNum 5)]) [])
           [("amount", JStr "165.00"); ("itemName", JStr "Flareon Ex"); ("returnUrl", JNum 5)]
           (initial_world example_db) eq_refl eq_refl eq_refl
           (or_introl (conj eq_refl eq_refl))).
Defined.

(** What a 200 answer of create-payment tells about the world. *)
Lemma create_payment_created (env : Env) (req : Request) (w w' : World)
    (paymentUrl : string) (paymentParams : JsObject) (pid : jsval) :
  create_payment env req w
  = ({| res_status := 200; res_body := BPaymentCreated paymentUrl paymentParams pid |}, w') ->
  exists body, req_body req = Some body
               /\ pid = create_paymentId env body
               /\ w' = with_record pid (create_record env body) w.
Proof.
  unfold create_payment, handler, create_payment_body.
  destruct (req_body req) as [body |]; [| intros H; inversion H].
  unfold lift_option. rewrite bind_ret_l. cbv zeta.
  destruct (negb _ || negb _); [intros H; inversion H |].
  destruct (check_url_cases (R := Response) (obj_get body "returnUrl")) as [-> | [url1 ->]];
    [intros H; inversion H |].
  rewrite bind_ret_l.
  destruct (check_url_cases (R := Response) (obj_get body "cancelUrl")) as [-> | [url2 ->]];
    [intros H; inversion H |].
  rewrite bind_ret_l. unfold bind, store_set, ret. intros H.
  exists body. split; [reflexivity |].
  injection H as _ _ Hpid Hw. subst pid w'. split; reflexivity.
Qed.

(** ** GET /status/:paymentId *)

(** A payment that create-payment has answered with status 200 and a
    string id can be queried: the status query for that id answers 200 with
    status pending and no gateway id or amount yet, and changes nothing. *)
Theorem status_after_create
    (env : Env) (req req' : Request) (w w' : World)
    (paymentUrl : string) (paymentParams : JsObject) (pid : string) :
  create_payment env req w
  = ({| res_status := 200; res_body := BPaymentCreated paymentUrl paymentParams (JStr pid) |},
     w') ->
  obj_get (req_params req') "paymentId" = JStr pid ->
  payment_status req' w'
  = ({| res_status := 200; res_body := BStatus pending (JStr pid) JUndefined JUndefined |}, w').
Proof.
  intros Hcreate Hparam.
  apply create_payment_created in Hcreate as (body & _ & Hpid & ->).
  unfold payment_status, handler, status_body, bind, store_get. rewrite Hparam.
  unfold with_record. simpl. rewrite lookup_insert_eq. simpl. rewrite <- Hpid. reflexivity.
Qed.

Lemma status_after_create_witness :
  payment_status
    {| req_body := None; req_query := []; req_params := [("paymentId", JStr "pay-1")];
       req_protocol := "http"; req_host := Some "localhost:3050" |}
    world_created
  = ({| res_status := 200;
        res_body := BStatus pending (JStr "pay-1") JUndefined JUndefined |},
     world_created).
Proof.
  apply (status_after_create (call_env example_create) (call_req example_create) _
           (initial_world example_db) world_created
           (match res_body (fst (create_payment (call_env example_create)
                                   (call_req example_create) (initial_world example_db))) with
            | BPaymentCreated paymentUrl _ _ => paymentUrl
            | _ => ""
            end)
           (match res_body (fst (create_payment (call_env example_create)
                                   (call_req example_create) (initial_world example_db))) with
            | BPaymentCreated _ paymentParams _ => paymentParams
            | _ => []
            end)
           "pay-1").
  - vm_compute. reflexivity.
  - reflexivity.
Defined.

(** ** GET /return *)

Lemma settles_try_catch_skip {R} (body : M R unit) :
  ends (fun _ => True) (fun _ => False) body -> settles (try_catch body skip).
Proof.
  intros Hb w. unfold try_catch. specialize (Hb w).
  destruct (body w) as [[[] | r |] w']; simpl in Hb; [eauto | contradiction |].
  unfold skip, ret. eauto.
Qed.

Lemma settles_return_transfer {R} env existing :
  settles (return_transfer (R := R) env existing).
Proof.
  unfold return_transfer.
  destruct (_ && _); [| destruct (truthy _)].
  - apply settles_try_catch_skip.
    eapply ends_bind; [apply ends_dbcall |].
    intros [listing |] _; [apply ends_transfer | apply ends_ret; exact I].
  - apply settles_try_catch_skip.
    eapply ends_weaken; [| apply ends_dbcall]. auto.
  - intros w. unfold skip, ret. eauto.
Qed.

Lemma settles_return_update env req :
  settles
    (R := Response)
    (if return_updates req
     then
       existingPayment <- store_get (obj_get (req_query req) "m_payment_id") ;;
       match existingPayment with
       | Some existingPayment =>
           if bool_decide (status existingPayment = pending) then
             store_set (obj_get (req_query req) "m_payment_id") (promote env existingPayment) ;;;
             return_transfer env existingPayment
           else skip
       | None =>
           store_set (obj_get (req_query req) "m_payment_id")
             (bare_complete env (obj_get (req_query req) "m_payment_id"))
       end
     else skip).
Proof.
  destruct (return_updates req); [| intros w; unfold skip, ret; eauto].
  intros w. unfold bind at 1, store_get.
  destruct (paymentStatusStore w !! _) as [existing |].
  - destruct (bool_decide _); [| unfold skip, ret; eauto].
    unfold bind, store_set. apply settles_return_transfer.
  - unfold store_set. eauto.
Qed.

(** GET /return never answers with an error of its own making: the answer
    is decided by [status] alone (the success page, the cancel page, or 400
    for anything else), whatever is stored and whichever queries of the
    transfer fail. *)
Theorem return_answers_by_status (env : Env) (req : Request) (w : World) :
  fst (payment_return env req w) = return_response (obj_get (req_query req) "status").
Proof.
  unfold payment_return, handler, return_body. cbv zeta.
  change (bool_decide (obj_get (req_query req) "status" = JStr "success")
          && truthy (obj_get (req_query req) "m_payment_id")
          && is_string (obj_get (req_query req) "m_payment_id"))
    with (return_updates req).
  destruct (settles_return_update env req w) as (a & w' & E).
  unfold bare_complete in E. unfold bind at 1. rewrite E.
  unfold return_response. repeat destruct (bool_decide _); reflexivity.
Qed.

(** Unless [status] is success and [m_payment_id] is a non-empty string,
    GET /return changes nothing at all. *)
Theorem return_without_success_changes_nothing (env : Env) (req : Request) (w : World) :
  return_updates req = false ->
  payment_return env req w = (return_response (obj_get (req_query req) "status"), w).
Proof.
  intros H. unfold payment_return, handler, return_body. cbv zeta.
  change (bool_decide (obj_get (req_query req) "status" = JStr "success")
          && truthy (obj_get (req_query req) "m_payment_id")
          && is_string (obj_get (req_query req) "m_payment_id"))
    with (return_updates req).
  rewrite H. unfold return_response, bind, skip, ret.
  repeat destruct (bool_decide _); reflexivity.
Qed.

Lemma return_updates_success (req : Request) :
  return_updates req = true -> obj_get (req_query req) "status" = JStr "success".
Proof.
  unfold return_updates. intros H.
  apply andb_true_iff in H as [H _]. apply andb_true_iff in H as [H _].
  apply bool_decide_eq_true in H. exact H.
Qed.

(** A successful return for a payment whose record is no longer pending
    (complete or failed, for instance after the notification) is a no-op:
    the success page is sent and nothing changes. *)
Theorem return_on_settled_payment_is_noop
    (env : Env) (req : Request) (w : World) (existing : PaymentRecord) :
  return_updates req = true ->
  paymentStatusStore w !! obj_get (req_query req) "m_payment_id" = Some existing ->
  status existing <> pending ->
  payment_return env req w = ({| res_status := 200; res_body := BSuccessPage |}, w).
Proof.
  intros Hup Hget Hsettled.
  pose proof (return_updates_success req Hup) as Hs.
  unfold payment_return, handler, return_body. cbv zeta.
  change (bool_decide (obj_get (req_query req) "status" = JStr "success")
          && truthy (obj_get (req_query req) "m_payment_id")
          && is_string (obj_get (req_query req) "m_payment_id"))
    with (return_updates req).
  rewrite Hup. unfold bind, store_get. rewrite Hget.
  rewrite bool_decide_eq_false_2 by exact Hsettled.
  rewrite Hs. reflexivity.
Qed.

(** A successful return for an id the store does not know creates a record
    with status complete and no ids; no transfer runs, the database is not
    touched. *)
Theorem return_for_unknown_payment_creates_record
    (env : Env) (req : Request) (w : World) :
  return_updates req = true ->
  paymentStatusStore w !! obj_get (req_query req) "m_payment_id" = None ->
  payment_return env req w
  = ({| res_status := 200; res_body := BSuccessPage |},
     with_record (obj_get (req_query req) "m_payment_id")
       (bare_complete env (obj_get (req_query req) "m_payment_id")) w).
Proof.
  intros Hup Hget.
  pose proof (return_updates_success req Hup) as Hs.
  unfold payment_return, handler, return_body. cbv zeta.
  change (bool_decide (obj_get (req_query req) "status" = JStr "success")
          && truthy (obj_get (req_query req) "m_payment_id")
          && is_string (obj_get (req_query req) "m_payment_id"))
    with (return_updates req).
  rewrite Hup. unfold bind, store_get. rewrite Hget.
  rewrite Hs. reflexivity.
Qed.

(** A successful return for a pending payment that lacks one of the three
    ids promotes the record to complete but moves nothing: no order, no
    change of any collection, of any store or of any user; at most the
    listing is deactivated. *)
Theorem return_without_all_ids_moves_nothing
    (env : Env) (req : Request) (w : World) (existing : PaymentRecord) :
  return_updates req = true ->
  paymentStatusStore w !! obj_get (req_query req) "m_payment_id" = Some existing ->
  status existing = pending ->
  truthy (listingId existing) && truthy (buyerId existing) && truthy (sellerId existing)
  = false ->
  paymentStatusStore (snd (payment_return env req w))
  = <[obj_get (req_query req) "m_payment_id" := promote env existing]> (paymentStatusStore w)
  /\ orders (db (snd (payment_return env req w))) = orders (db w)
  /\ collections (db (snd (payment_return env req w))) = collections (db w)
  /\ stores (db (snd (payment_return env req w))) = stores (db w)
  /\ users (db (snd (payment_return env req w))) = users (db w).
Proof.
  intros Hup Hget Hpending Hids.
  pose proof (return_updates_success req Hup) as Hs.
  assert (snd (payment_return env req w)
          = snd ((if truthy (listingId existing)
                  then try_catch (R := Response)
                         (dbcall (update_listing_inactive (now env) (listingId existing))) skip
                  else skip)
                   (with_record (obj_get (req_query req) "m_payment_id")
                      (promote env existing) w))) as ->.
  { unfold payment_return. rewrite handler_world. unfold return_body. cbv zeta.
    change (bool_decide (obj_get (req_query req) "status" = JStr "success")
            && truthy (obj_get (req_query req) "m_payment_id")
            && is_string (obj_get (req_query req) "m_payment_id"))
      with (return_updates req).
    rewrite Hup, Hs. unfold bind at 1. unfold bind at 1. unfold store_get at 1.
    rewrite Hget. rewrite bool_decide_eq_true_2 by exact Hpending.
    unfold bind at 1. unfold store_set at 1. unfold return_transfer. rewrite Hids.
    unfold with_record.
    match goal with |- snd (let (o, w') := ?m in _) = _ =>
      destruct m as [[[] | r |] w'] end; reflexivity. }
  destruct (truthy (listingId existing)); [| repeat split; reflexivity].
  unfold try_catch, dbcall, update_listing_inactive, with_record. simpl.
  destruct (faults w) as [| [] fs]; simpl;
    destruct (sql_int (listingId existing)) as [[n |] |]; simpl; repeat split; reflexivity.
Qed.

(** The buyer cancels at the gateway: nothing is touched. *)
Lemma return_without_success_changes_nothing_witness :
  payment_return (example_config_env 1700000030000 "m4n5b6v7c")
    (call_req (example_return "cancel" 1700000030000 "m4n5b6v7c")) world_created
  = ({| res_status := 200; res_body := BCancelPage |}, world_created).
Proof.
  apply (return_without_success_changes_nothing
           (example_config_env 1700000030000 "m4n5b6v7c")
           (call_req (example_return "cancel" 1700000030000 "m4n5b6v7c")) world_created).
  reflexivity.
Defined.

(** The buyer comes back after the notification has completed the payment. *)
Lemma return_on_settled_payment_is_noop_witness :
  payment_return (example_config_env 1700000090000 "m4n5b6v7c")
    (call_req (example_return "success" 1700000090000 "m4n5b6v7c")) world_paid
  = ({| res_status := 200; res_body := BSuccessPage |}, world_paid).
Proof.
  apply (return_on_settled_payment_is_noop
           (example_config_env 1700000090000 "m4n5b6v7c")
           (call_req (example_return "success" 1700000090000 "m4n5b6v7c")) world_paid
           {| status := complete; mPaymentId := JStr "pay-1"; pfPaymentId := JStr "1089250";
              amount := JStr "165.00"; timestamp := 1700000060000;
              listingId := JNum 7; buyerId := JStr "buyer-1"; sellerId := JStr "seller-1" |}).
  - reflexivity.
  - vm_compute. reflexivity.
  - discriminate.
Defined.

(** A return for a payment that was never created. *)
Lemma return_for_unknown_payment_creates_record_witness :
  payment_return (example_config_env 1700000030000 "m4n5b6v7c")
    (call_req (example_return "success" 1700000030000 "m4n5b6v7c")) (initial_world example_db)
  = ({| res_status := 200; res_body := BSuccessPage |},
     with_record (JStr "pay-1")
       (bare_complete (example_config_env 1700000030000 "m4n5b6v7c") (JStr "pay-1"))
       (initial_world example_db)).
Proof.
  apply (return_for_unknown_payment_creates_record
           (example_config_env 1700000030000 "m4n5b6v7c")
           (call_req (example_return "success" 1700000030000 "m4n5b6v7c"))
           (initial_world example_db)).
  - reflexivity.
  - reflexivity.
Defined.

(** A pending payment that was created without a seller id. *)
Lemma return_without_all_ids_moves_nothing_witness :
  orders (db (snd (payment_return (example_config_env 1700000030000 "m4n5b6v7c")
                     (call_req (example_return "success" 1700000030000 "m4n5b6v7c"))
                     (with_record (JStr "pay-1")
                        {| status := pending; mPaymentId := JStr "pay-1";
                           pfPaymentId := JUndefined; amount := JStr "165.00";
                           timestamp := 1700000000000; listingId := JNum 7;
                           buyerId := JStr "buyer-1"; sellerId := JUndefined |}
                        (initial_world example_db)))))
  = [].
Proof.
  destruct (return_without_all_ids_moves_nothing
              (example_config_env 1700000030000 "m4n5b6v7c")
              (call_req (example_return "success" 1700000030000 "m4n5b6v7c"))
              (with_record (JStr "pay-1")
                 {| status := pending; mPaymentId := JStr "pay-1";
                    pfPaymentId := JUndefined; amount := JStr "165.00";
                    timestamp := 1700000000000; listingId := JNum 7;
                    buyerId := JStr "buyer-1"; sellerId := JUndefined |}
                 (initial_world example_db))
              {| status := pending; mPaymentId := JStr "pay-1";
                 pfPaymentId := JUndefined; amount := JStr "165.00";
                 timestamp := 1700000000000; listingId := JNum 7;
                 buyerId := JStr "buyer-1"; sellerId := JUndefined |})
    as (_ & Horders & _).
  - reflexivity.
  - vm_compute. reflexivity.
  - reflexivity.
  - reflexivity.
  - rewrite Horders. reflexivity.
Defined.


(** ** POST /itn *)

Lemma bind_lift_some {R A B} (a : A) (k : A -> M R B) (w : World) :
  (x <- lift_option (Some a) ;; k x) w = k a w.
Proof. reflexivity. Qed.

Lemma bind_lift_none {R A B} (k : A -> M R B) (w : World) :
  (x <- lift_option None ;; k x) w = (Throw, w).
Proof. reflexivity. Qed.

Lemma obj_keys_set (o : JsObject) (k : string) (v v' : jsval) :
  obj_keys (obj_set o k v) = obj_keys (obj_set o k v').
Proof.
  unfold obj_keys. induction o as [| [k1 v1] o IH]; simpl; [reflexivity |].
  destruct (String.eqb k1 k); simpl; [reflexivity | rewrite IH; reflexivity].
Qed.

Lemma itn_verify_agree (d1 d2 : JsObject) (keys : list string) (acc : option JsObject) :
  (forall k, k <> "signature" -> obj_get d1 k = obj_get d2 k) ->
  foldl (itn_verify_step d1) acc keys = foldl (itn_verify_step d2) acc keys.
Proof.
  intros Hag. revert acc. induction keys as [| k keys IH]; intros acc; simpl; [reflexivity |].
  rewrite IH. f_equal. unfold itn_verify_step. destruct acc as [verifyParams |]; [| reflexivity].
  destruct (String.eqb_spec k "signature") as [-> | Hne]; simpl; [reflexivity |].
  rewrite (Hag k Hne). reflexivity.
Qed.

Lemma itn_expected_agree (cfg : Config) (d1 d2 : JsObject) :
  obj_keys d1 = obj_keys d2 ->
  (forall k, k <> "signature" -> obj_get d1 k = obj_get d2 k) ->
  itn_expectedSignature cfg d1 = itn_expectedSignature cfg d2.
Proof.
  intros Hk Hag. unfold itn_expectedSignature, itn_passphrase, itn_isSandbox.
  rewrite Hk, (itn_verify_agree d1 d2 _ _ Hag), (Hag "merchant_id") by discriminate.
  reflexivity.
Qed.

Lemma itn_body_agree (env : Env) (req1 req2 : Request) (d1 d2 : JsObject) (w : World) :
  req_body req1 = Some d1 -> req_body req2 = Some d2 ->
  obj_keys d1 = obj_keys d2 ->
  (forall k, k <> "signature" -> obj_get d1 k = obj_get d2 k) ->
  itn_body env req1 w = itn_body env req2 w.
Proof.
  intros H1 H2 Hk Hag. unfold itn_body. rewrite H1, H2, !bind_lift_some.
  unfold itn_signature_matches. rewrite (itn_expected_agree (config env) d1 d2 Hk Hag).
  destruct (itn_expectedSignature (config env) d2) as [e |];
    [| rewrite !bind_lift_none; reflexivity].
  rewrite !bind_lift_some. unfold itn_complete, itn_failed, itn_fallback.
  rewrite !(Hag "payment_status"), !(Hag "m_payment_id"), !(Hag "pf_payment_id"),
    !(Hag "amount_gross"), !(Hag "item_name"), !(Hag "email_address") by discriminate.
  reflexivity.
Qed.

(** The signature a notification carries decides nothing: two notifications
    that differ only in the value of [signature] get the same answer and
    leave the same store and database. *)
Theorem itn_ignores_signature
    (env : Env) (req1 req2 : Request) (data : JsObject) (s1 s2 : jsval) (w : World) :
  req_body req1 = Some (obj_set data "signature" s1) ->
  req_body req2 = Some (obj_set data "signature" s2) ->
  itn env req1 w = itn env req2 w.
Proof.
  intros H1 H2. unfold itn, handler.
  rewrite (itn_body_agree env req1 req2 _ _ w H1 H2 (obj_keys_set data _ s1 s2)).
  - reflexivity.
  - intros k Hne. rewrite !obj_get_set_other by exact Hne. reflexivity.
Qed.

(** A notification that reports neither COMPLETE nor FAILED (PENDING, say,
    or one without a body) is acknowledged and changes nothing at all. *)
Theorem itn_acts_only_on_complete_and_failed (env : Env) (req : Request) (w : World) :
  itn_reports req "COMPLETE" = false ->
  itn_reports req "FAILED" = false ->
  itn env req w = (OK200, w).
Proof.
  unfold itn_reports, itn, handler, itn_body. intros Hc Hf.
  destruct (req_body req) as [data |]; [| reflexivity].
  rewrite bind_lift_some.
  destruct (itn_signature_matches (config env) data) as [b |]; [| reflexivity].
  rewrite bind_lift_some, Hc, Hf. reflexivity.
Qed.

Lemma itn_verify_none (data : JsObject) (keys : list string) :
  foldl (itn_verify_step data) None keys = None.
Proof. induction keys as [| k keys IH]; simpl; auto. Qed.

Lemma itn_verify_null (data : JsObject) (keys : list string) (k : string)
    (acc : option JsObject) :
  k ∈ keys -> k <> "signature" -> obj_get data k = JNull ->
  foldl (itn_verify_step data) acc keys = None.
Proof.
  intros Hin Hne Hnull. revert acc.
  induction keys as [| k' keys IH]; intros acc; [inversion Hin |].
  simpl. apply elem_of_cons in Hin as [<- | Hin]; [| apply IH; exact Hin].
  destruct acc as [verifyParams |]; simpl; [| apply itn_verify_none].
  apply String.eqb_neq in Hne. rewrite Hne, Hnull. simpl. apply itn_verify_none.
Qed.

(** A notification that carries [null] for any field but [signature] is
    dropped, COMPLETE or not: building the parameters to sign throws, the
    handler answers 200 and neither the store nor the database changes. *)
Theorem itn_with_null_field_is_dropped
    (env : Env) (req : Request) (data : JsObject) (k : string) (w : World) :
  req_body req = Some data ->
  k ∈ obj_keys data -> k <> "signature" -> obj_get data k = JNull ->
  itn env req w = (OK200, w).
Proof.
  intros Hbody Hin Hne Hnull. unfold itn, handler, itn_body.
  rewrite Hbody, bind_lift_some. unfold itn_signature_matches, itn_expectedSignature.
  rewrite (itn_verify_null data _ k _ Hin Hne Hnull). reflexivity.
Qed.

(** Only a COMPLETE notification can change the database: for every other
    notification the five tables are left as they were. *)
Theorem itn_changes_database_only_on_complete (env : Env) (req : Request) (w : World) :
  itn_reports req "COMPLETE" = false ->
  db (snd (itn env req w)) = db w.
Proof.
  unfold itn_reports, itn. rewrite handler_world. unfold itn_body. intros Hc.
  destruct (req_body req) as [data |]; [| reflexivity].
  rewrite bind_lift_some.
  destruct (itn_signature_matches (config env) data) as [b |]; [| reflexivity].
  rewrite bind_lift_some, Hc. unfold itn_failed.
  destruct (bool_decide (obj_get data "payment_status" = JStr "FAILED")); reflexivity.
Qed.



(** The scenario's notification with its signature replaced by another one. *)
Lemma itn_ignores_signature_witness :
  itn (example_config_env 1700000060000 "a1b2c3d4e")
    (example_request (Some (example_itn_payload "COMPLETE")) []) world_created
  = itn (example_config_env 1700000060000 "a1b2c3d4e")
      (example_request
         (Some (obj_set (example_itn_payload "COMPLETE") "signature" (JStr "forged"))) [])
      world_created.
Proof.
  apply (itn_ignores_signature (example_config_env 1700000060000 "a1b2c3d4e")
           (example_request (Some (example_itn_payload "COMPLETE")) [])
           (example_request
              (Some (obj_set (example_itn_payload "COMPLETE") "signature" (JStr "forged"))) [])
           (example_itn_payload "COMPLETE")
           (JStr "0123456789abcdef0123456789abcdef") (JStr "forged") world_created).
  - reflexivity.
  - reflexivity.
Defined.

(** The gateway reports PENDING. *)
Lemma itn_acts_only_on_complete_and_failed_witness :
  itn (example_config_env 1700000060000 "a1b2c3d4e")
    (example_request (Some (example_itn_payload "PENDING")) []) world_created
  = (OK200, world_created).
Proof.
  apply (itn_acts_only_on_complete_and_failed (example_config_env 1700000060000 "a1b2c3d4e")
           (example_request (Some (example_itn_payload "PENDING")) []) world_created).
  - reflexivity.
  - reflexivity.
Defined.

(** The scenario's COMPLETE notification with [custom_str1: null] added. *)
Lemma itn_with_null_field_is_dropped_witness :
  itn (example_config_env 1700000060000 "a1b2c3d4e")
    (example_request (Some (("custom_str1", JNull) :: example_itn_payload "COMPLETE")) [])
    world_created
  = (OK200, world_created).
Proof.
  apply (itn_with_null_field_is_dropped (example_config_env 1700000060000 "a1b2c3d4e")
           (example_request (Some (("custom_str1", JNull) :: example_itn_payload "COMPLETE")) [])
           (("custom_str1", JNull) :: example_itn_payload "COMPLETE") "custom_str1"
           world_created).
  - reflexivity.
  - apply list_elem_of_here.
  - discriminate.
  - reflexivity.
Defined.

(** A FAILED notification for the scenario's payment. *)
Lemma itn_changes_database_only_on_complete_witness :
  db (snd (itn (example_config_env 1700000060000 "a1b2c3d4e")
             (example_request (Some (example_itn_payload "FAILED")) []) world_created))
  = db world_created.
Proof.
  apply (itn_changes_database_only_on_complete (example_config_env 1700000060000 "a1b2c3d4e")
           (example_request (Some (example_itn_payload "FAILED")) []) world_created).
  reflexivity.
Defined.


Lemma find_by_key {A} (key : A -> Z) (f : A -> bool) (l : list A) (x : A) :
  NoDup (map key l) -> find f l = Some x -> find (fun y => key y =? key x) l = Some x.
Proof.
  induction l as [| y l IH]; simpl; intros Hnd Hf; [discriminate |].
  apply NoDup_cons in Hnd as [Hy Hnd].
  destruct (f y).
  - injection Hf as ->. rewrite Z.eqb_refl. reflexivity.
  - destruct (Z.eqb_spec (key y) (key x)) as [E | _]; [| auto].
    exfalso. apply Hy. rewrite E. apply list_elem_of_fmap. exists x. split; [reflexivity |].
    apply list_elem_of_In. apply (find_some _ _ Hf).
Qed.

Lemma find_again {A} (f g : A -> bool) (l : list A) (x : A) :
  find f l = Some x -> g x = true -> exists y, find g l = Some y.
Proof.
  intros Hf Hg. apply find_some in Hf as [Hin _].
  destruct (find g l) as [y |] eqn:E; [eauto |].
  rewrite (find_none _ _ E x Hin) in Hg. discriminate.
Qed.

Lemma transfer_adds_order {R}
    (env : Env) (n : Z) (buyerId sellerId itemName amount : jsval) (w : World)
    (listing : Listing) (buyer seller : User) (sellerStore : StoreRow)
    (purchasePrice : option string) (price : string) :
  faults w = [] ->
  first_row (select_listing_by_id (JNum n) (db w)) = Some listing ->
  first_row (select_user_by_id (String_ buyerId) (db w)) = Some buyer ->
  first_row (select_user_by_id (String_ sellerId) (db w)) = Some seller ->
  first_row (select_store_by_userId (String_ sellerId) (db w)) = Some sellerStore ->
  transfer_accepted env amount listing (db w) purchasePrice price ->
  let d' :=
    db (snd (transferCardOwnership (R := R) env (JNum n) buyerId sellerId itemName amount w)) in
  orders d'
  = (orders (db w)
     ++ [with_price price
           (new_order env (String_ buyerId) amount listing (orders_seq (db w)))])%list
  /\ storeListings d'
     = map (fun l => if l_id l =? n then deactivate (now env) l else l) (storeListings (db w)).
Proof.
  intros Hf Hl Hb Hs Hst (Hcseq & Hcid & Hoseq & Hoid & Hpp & Hp & Hnum & Hfit) d'.
  subst d'.
  assert (String_ buyerId = if is_string buyerId then String_ buyerId else String_ buyerId)
    as Eb by (destruct (is_string buyerId); reflexivity).
  assert (String_ sellerId = if is_string sellerId then String_ sellerId else String_ sellerId)
    as Es by (destruct (is_string sellerId); reflexivity).
  destruct (sql_int_of_listing _ _ _ Hl) as (m & Hn & Hfind).
  pose proof (sql_int_num _ _ Hn) as ->.
  apply Z.ltb_ge in Hcseq, Hoseq.
  destruct w as [st d fs]. simpl in Hf. subst fs.
  simpl in Hb, Hs, Hst, Hcseq, Hoseq, Hfit, Hnum, Hfind, Hpp, Hp, Hcid, Hoid.
  unfold transferCardOwnership, call, try_catch, transfer_steps. cbv zeta.
  rewrite <- Eb, <- Es. clear Eb Es.
  unfold find_sellerCard, bind, dbcall, select_listing_by_id. simpl.
  rewrite Hn, Hfind. simpl. rewrite Hb. simpl. rewrite Hs. simpl. rewrite Hst. simpl.
  repeat match goal with
         | |- context [match find ?f ?l with _ => _ end] =>
             destruct (find f l) eqn:?; simpl
         | |- context [select_collection_ci _ _ itemName _] =>
             unfold select_collection_ci; destruct (sql_text itemName); simpl
         end.
  all: unfold insert_collection, card_id_taken in *; simpl; rewrite Hcseq, Hcid, Hpp; simpl.
  all: unfold update_listing_inactive; simpl; rewrite Hn; simpl.
  all: unfold insert_order, order_id_taken, order_number_taken in *; simpl.
  all: rewrite Hoseq, Hoid, Hnum, Hp; simpl.
  all: unfold increment_totalSales; simpl; rewrite Hfit; simpl.
  all: split; reflexivity.
Qed.

Lemma dbcall_found {R A} (q : Database -> option (option A * Database)) (w : World) (x : A) :
  faults w = [] ->
  (q (db w) = None \/ q (db w) = Some (first_row (q (db w)), db w)) ->
  first_row (q (db w)) = Some x ->
  dbcall (R := R) q w = (Normal (Some x), w).
Proof.
  intros Hf [Hq | Hq] Hx.
  - rewrite Hq in Hx. discriminate.
  - rewrite Hx in Hq. rewrite (dbcall_ok q w _ _ Hf Hq). destruct w. reflexivity.
Qed.

Lemma reads_active_listing name d :
  select_active_listing_by_name name d = None
  \/ select_active_listing_by_name name d
     = Some (first_row (select_active_listing_by_name name d), d).
Proof. unfold select_active_listing_by_name. destruct (sql_text name); simpl; auto. Qed.

Lemma reads_user_by_email email d :
  select_user_by_email email d = None
  \/ select_user_by_email email d = Some (first_row (select_user_by_email email d), d).
Proof. unfold select_user_by_email. destruct (sql_text email); simpl; auto. Qed.

Lemma reads_store_by_id id d :
  select_store_by_id id d = None
  \/ select_store_by_id id d = Some (first_row (select_store_by_id id d), d).
Proof. right. reflexivity. Qed.

Lemma snd_then_ret {R A B} (m : M R A) (b : B) (w : World) :
  snd ((m ;;; ret b) w) = snd (m w).
Proof. unfold bind, ret. destruct (m w) as [[a | r |] w']; reflexivity. Qed.

(** A COMPLETE notification is enough to move a card. For a payment id the
    store has never seen, when no query fails, the notification names an
    active listing, the e-mail address is that of a user, the owner of the
    listing's store exists and the database takes the rows (the amount is one
    the decimal columns accept), an order for that user is added and the
    listing is deactivated: nothing checks that the payment was ever
    created, and the signature is not looked at. *)
Theorem notification_alone_transfers
    (env : Env) (req : Request) (data : JsObject) (expected : string) (w : World)
    (listing : Listing) (sellerStore : StoreRow) (buyer seller : User)
    (purchasePrice : option string) (price : string) :
  req_body req = Some data ->
  obj_get data "payment_status" = JStr "COMPLETE" ->
  itn_expectedSignature (config env) data = Some expected ->
  paymentStatusStore w !! obj_get data "m_payment_id" = None ->
  faults w = [] ->
  listings_keyed (db w) ->
  first_row (select_active_listing_by_name (obj_get data "item_name") (db w)) = Some listing ->
  first_row (select_store_by_id (l_storeId listing) (db w)) = Some sellerStore ->
  first_row (select_user_by_email (obj_get data "email_address") (db w)) = Some buyer ->
  first_row (select_user_by_id (s_userId sellerStore) (db w)) = Some seller ->
  transfer_accepted env (obj_get data "amount_gross") listing (db w) purchasePrice price ->
  orders (db (snd (itn env req w)))
  = (orders (db w)
     ++ [with_price price
           (new_order env (u_id buyer) (obj_get data "amount_gross") listing
              (orders_seq (db w)))])%list
  /\ storeListings (db (snd (itn env req w)))
     = map (fun l => if l_id l =? l_id listing then deactivate (now env) l else l)
         (storeListings (db w)).
Proof.
  intros Hbody Hc He Hnone Hf [Hkeys Hrange] Hl Hst Hb Hs Hacc.
  set (w1 := with_record (obj_get data "m_payment_id") (itn_record env data None) w).
  assert (snd (itn env req w)
          = snd (transferCardOwnership (R := Response) env (JNum (l_id listing))
                   (JStr (u_id buyer)) (JStr (s_userId sellerStore))
                   (obj_get data "item_name") (obj_get data "amount_gross") w1)) as ->.
  { unfold itn. rewrite handler_world. unfold itn_body.
    rewrite Hbody, bind_lift_some. unfold itn_signature_matches.
    rewrite He, bind_lift_some, Hc. rewrite bool_decide_eq_true_2 by reflexivity.
    rewrite snd_then_ret. unfold itn_complete. cbv zeta.
    unfold bind at 1, store_get at 1. rewrite Hnone. simpl default. simpl truthy. simpl andb.
    match goal with
    | |- context [(store_set ?k ?v ;;; ?m) w] =>
        change ((store_set k v ;;; m) w) with (m w1)
    end.
    unfold itn_fallback.
    unfold bind at 1.
    rewrite (dbcall_found _ w1 listing Hf (reads_active_listing _ _) Hl).
    unfold bind at 1.
    rewrite (dbcall_found _ w1 sellerStore Hf (reads_store_by_id _ _) Hst).
    unfold bind at 1.
    rewrite (dbcall_found _ w1 buyer Hf (reads_user_by_email _ _) Hb).
    reflexivity. }
  assert (listing ∈ storeListings (db w)) as Hin.
  { revert Hl. unfold select_active_listing_by_name.
    destruct (sql_text (obj_get data "item_name")); simpl; [| discriminate].
    intros Hl. apply list_elem_of_In. apply (find_some _ _ Hl). }
  assert (first_row (select_listing_by_id (JNum (l_id listing)) (db w1)) = Some listing)
    as Hl'.
  { rewrite Forall_forall in Hrange. specialize (Hrange listing Hin).
    unfold select_listing_by_id, sql_int.
    replace ((- int4_max - 1 <=? l_id listing) && (l_id listing <=? int4_max)) with true
      by (symmetry; apply andb_true_iff; split; apply Z.leb_le; lia).
    simpl. revert Hl. unfold select_active_listing_by_name.
    destruct (sql_text (obj_get data "item_name")); simpl; [| discriminate].
    apply find_by_key. exact Hkeys. }
  assert (exists buyer', first_row (select_user_by_id (u_id buyer) (db w1)) = Some buyer')
    as [buyer' Hb'].
  { simpl. revert Hb. unfold select_user_by_email.
    destruct (sql_text (obj_get data "email_address")); simpl; [| discriminate].
    intros Hb. apply (find_again _ _ _ _ Hb). apply String.eqb_refl. }
  assert (exists sellerStore',
            first_row (select_store_by_userId (s_userId sellerStore) (db w1))
            = Some sellerStore') as [sellerStore' Hst'].
  { simpl in *. apply (find_again _ _ _ _ Hst). apply String.eqb_refl. }
  exact (transfer_adds_order env (l_id listing) (JStr (u_id buyer))
           (JStr (s_userId sellerStore)) _ _ w1 listing buyer' seller sellerStore'
           purchasePrice price Hf Hl' Hb' Hs Hst' Hacc).
Qed.

(** The scenario's notification arrives although no payment was created. *)
Lemma notification_alone_transfers_witness :
  orders (db (snd (itn (example_config_env 1700000060000 "a1b2c3d4e")
                     (example_request (Some (example_itn_payload "COMPLETE")) [])
                     (initial_world example_db))))
  = [ {| o_id := 1; o_storeId := 3; o_buyerId := "buyer-1"; o_itemName := "Flareon Ex";
         o_itemImage := None; o_price := "165.00"; o_quantity := 1; o_status := "completed";
         o_orderNumber := "ORD-1700000060000-a1b2c3d4e" |} ].
Proof.
  destruct (notification_alone_transfers
              (example_config_env 1700000060000 "a1b2c3d4e")
              (example_request (Some (example_itn_payload "COMPLETE")) [])
              (example_itn_payload "COMPLETE")
              (default "" (itn_expectedSignature PAYFAST_CONFIG (example_itn_payload "COMPLETE")))
              (initial_world example_db)
              {| l_id := 7; l_storeId := 3; l_cardName := "Flareon Ex"; l_cardImage := None;
                 l_price := "165.00"; l_description := None; l_isActive := Some true;
                 l_updatedAt := 0 |}
              {| s_id := 3; s_userId := "seller-1"; s_storeName := Some "Card Shop";
                 s_totalSales := Some 0; s_updatedAt := 0 |}
              {| u_id := "buyer-1"; u_email := "buyer@example.com"; u_name := "Bea" |}
              {| u_id := "seller-1"; u_email := "seller@example.com"; u_name := "Sol" |}
              (Some "165.00") "165.00")
    as [Horders _].
  - reflexivity.
  - reflexivity.
  - vm_compute. reflexivity.
  - reflexivity.
  - reflexivity.
  - split; [apply NoDup_singleton | repeat constructor; discriminate].
  - reflexivity.
  - reflexivity.
  - reflexivity.
  - reflexivity.
  - unfold transfer_accepted. simpl. repeat split; try reflexivity; discriminate.
  - rewrite Horders. reflexivity.
Defined.

(** ** POST /manual-transfer and GET /status *)

Lemma blind_ret {R A} (a : A) : store_blind (ret (R := R) a).
Proof. intros w s. reflexivity. Qed.

Lemma blind_skip {R} : store_blind (skip (R := R)).
Proof. intros w s. reflexivity. Qed.

Lemma blind_throw {R A} : store_blind (throw (R := R) (A := A)).
Proof. intros w s. reflexivity. Qed.

Lemma blind_return {R A} (r : R) : store_blind (return_ (A := A) r).
Proof. intros w s. reflexivity. Qed.

Lemma blind_lift_option {R A} (o : option A) : store_blind (lift_option (R := R) o).
Proof. destruct o; intros w s; reflexivity. Qed.

Lemma blind_dbcall {R A} (q : Database -> option (A * Database)) :
  store_blind (dbcall (R := R) q).
Proof.
  intros w s. unfold dbcall, with_store. simpl.
  destruct (faults w) as [| [] fs]; simpl; try reflexivity;
    destruct (q (db w)) as [[a d] |]; reflexivity.
Qed.

Lemma blind_bind {R A B} (m : M R A) (k : A -> M R B) :
  store_blind m -> (forall a, store_blind (k a)) -> store_blind (bind m k).
Proof.
  intros Hm Hk w s. unfold bind. rewrite Hm.
  destruct (m w) as [[a | r |] w']; simpl; [apply Hk | reflexivity | reflexivity].
Qed.

Lemma blind_try_catch {R A} (body h : M R A) :
  store_blind body -> store_blind h -> store_blind (try_catch body h).
Proof.
  intros Hb Hh w s. unfold try_catch. rewrite Hb.
  destruct (body w) as [[a | r |] w']; simpl; [reflexivity | reflexivity | apply Hh].
Qed.

Lemma blind_call {R A} (body : M A A) : store_blind body -> store_blind (call (R := R) body).
Proof.
  intros Hb w s. unfold call. rewrite Hb.
  destruct (body w) as [[a | r |] w']; reflexivity.
Qed.

Create HintDb blind.
#[local] Hint Resolve blind_skip blind_ret blind_throw blind_return blind_dbcall
  blind_lift_option : blind.

Ltac blind :=
  repeat first
    [ solve [ auto with blind ]
    | apply blind_bind; [| intros ? ]
    | apply blind_try_catch
    | apply blind_call
    | match goal with
      | |- store_blind (match ?x with _ => _ end) => destruct x
      | |- store_blind (if ?b then _ else _) => destruct b
      end ].

Lemma blind_find_sellerCard {R} env uid listing itemName :
  store_blind (find_sellerCard (R := R) env uid listing itemName).
Proof. unfold find_sellerCard. blind. Qed.

Lemma blind_transfer_steps env l b s i a : store_blind (transfer_steps env l b s i a).
Proof.
  unfold transfer_steps. cbv zeta.
  pose proof (@blind_find_sellerCard unit). blind.
Qed.

Lemma blind_transfer {R} env l b s i a :
  store_blind (transferCardOwnership (R := R) env l b s i a).
Proof.
  unfold transferCardOwnership. apply blind_call, blind_try_catch;
    [apply blind_transfer_steps | apply blind_skip].
Qed.

Lemma blind_manual_transfer_body env req : store_blind (manual_transfer_body env req).
Proof.
  unfold manual_transfer_body. cbv zeta.
  pose proof (@blind_transfer Response). blind.
Qed.

(** POST /manual-transfer neither reads nor writes the payment status
    store: whatever the store holds (no record of the payment, a pending
    one, a failed one) the answer and the effect on the database are the
    same, and the store is left as it was. *)
Theorem manual_transfer_is_blind_to_payments
    (env : Env) (req : Request) (w : World) (s : PaymentStore) :
  manual_transfer env req (with_store s w)
  = (fst (manual_transfer env req w), with_store s (snd (manual_transfer env req w))).
Proof.
  unfold manual_transfer, handler. rewrite blind_manual_transfer_body.
  destruct (manual_transfer_body env req w) as [[r | r |] w']; reflexivity.
Qed.

(** A manual transfer that lacks one of [paymentId], [listingId],
    [buyerId], [sellerId] is refused with 400 before any query is made. *)
Theorem manual_transfer_rejects_missing_fields
    (env : Env) (req : Request) (body : JsObject) (w : World) :
  req_body req = Some body ->
  manual_complete body = false ->
  manual_transfer env req w
  = ({| res_status := 400;
        res_body := BError "Missing required fields: paymentId, listingId, buyerId, sellerId" |},
     w).
Proof.
  intros Hbody Hmiss. unfold manual_transfer, handler, manual_transfer_body.
  rewrite Hbody, bind_lift_some. cbv zeta.
  assert (negb (truthy (obj_get body "paymentId")) || negb (truthy (obj_get body "listingId"))
          || negb (truthy (obj_get body "buyerId")) || negb (truthy (obj_get body "sellerId"))
          = true) as ->.
  { unfold manual_complete in Hmiss.
    destruct (truthy (obj_get body "paymentId")), (truthy (obj_get body "listingId")),
      (truthy (obj_get body "buyerId")), (truthy (obj_get body "sellerId"));
      simpl in *; congruence. }
  reflexivity.
Qed.

(** A manual transfer for a listing id that no listing has is answered
    with 404 and changes nothing, when the lookup does not fail. *)
Theorem manual_transfer_of_unknown_listing
    (env : Env) (req : Request) (body : JsObject) (w : World) :
  req_body req = Some body ->
  manual_complete body = true ->
  faults w = [] ->
  select_listing_by_id (manual_listingId body) (db w) = Some (None, db w) ->
  manual_transfer env req w
  = ({| res_status := 404; res_body := BError "Listing not found" |}, w).
Proof.
  intros Hbody Hall Hf Hl. unfold manual_transfer, handler, manual_transfer_body.
  rewrite Hbody, bind_lift_some. cbv zeta.
  assert (negb (truthy (obj_get body "paymentId")) || negb (truthy (obj_get body "listingId"))
          || negb (truthy (obj_get body "buyerId")) || negb (truthy (obj_get body "sellerId"))
          = false) as ->.
  { unfold manual_complete in Hall.
    destruct (truthy (obj_get body "paymentId")), (truthy (obj_get body "listingId")),
      (truthy (obj_get body "buyerId")), (truthy (obj_get body "sellerId"));
      simpl in *; congruence. }
  change (if is_string (obj_get body "listingId")
          then parseInt (String_ (obj_get body "listingId"))
          else obj_get body "listingId") with (manual_listingId body).
  unfold bind. rewrite (dbcall_ok _ w None (db w) Hf Hl).
  destruct w. reflexivity.
Qed.

(** GET /status only reads: it never changes the store or the database,
    and it answers 404 exactly when the store has no record under the
    id. *)
Theorem status_only_reads (req : Request) (w : World) :
  snd (payment_status req w) = w
  /\ (res_status (fst (payment_status req w)) = 404
      <-> paymentStatusStore w !! obj_get (req_params req) "paymentId" = None).
Proof.
  unfold payment_status, handler, status_body. cbv zeta. unfold bind, store_get.
  destruct (paymentStatusStore w !! obj_get (req_params req) "paymentId") as [payment |];
    simpl; split; try reflexivity; split; intros H; try reflexivity; discriminate H.
Qed.

(** A manual transfer without a seller id. *)
Lemma manual_transfer_rejects_missing_fields_witness :
  manual_transfer (example_config_env 1700000060000 "a1b2c3d4e")
    (example_request
       (Some [("paymentId", JStr "pay-1"); ("listingId", JNum 7); ("buyerId", JStr "buyer-1")])
       [])
    world_created
  = ({| res_status := 400;
        res_body := BError "Missing required fields: paymentId, listingId, buyerId, sellerId" |},
     world_created).
Proof.
  apply (manual_transfer_rejects_missing_fields (example_config_env 1700000060000 "a1b2c3d4e")
           (example_request
              (Some [("paymentId", JStr "pay-1"); ("listingId", JNum 7);
                     ("buyerId", JStr "buyer-1")]) [])
           [("paymentId", JStr "pay-1"); ("listingId", JNum 7); ("buyerId", JStr "buyer-1")]
           world_created).
  - reflexivity.
  - reflexivity.
Defined.

(** A manual transfer for listing 8, given as the string 8, which does not
    exist. *)
Lemma manual_transfer_of_unknown_listing_witness :
  manual_transfer (example_config_env 1700000060000 "a1b2c3d4e")
    (example_request
       (Some [("paymentId", JStr "pay-1"); ("listingId", JStr "8");
              ("buyerId", JStr "buyer-1"); ("sellerId", JStr "seller-1")]) [])
    world_created
  = ({| res_status := 404; res_body := BError "Listing not found" |}, world_created).
Proof.
  apply (manual_transfer_of_unknown_listing (example_config_env 1700000060000 "a1b2c3d4e")
           (example_request
              (Some [("paymentId", JStr "pay-1"); ("listingId", JStr "8");
                     ("buyerId", JStr "buyer-1"); ("sellerId", JStr "seller-1")]) [])
           [("paymentId", JStr "pay-1"); ("listingId", JStr "8");
            ("buyerId", JStr "buyer-1"); ("sellerId", JStr "seller-1")]
           world_created).
  - reflexivity.
  - reflexivity.
  - reflexivity.
  - vm_compute. reflexivity.
Defined.



